(** * Semantic Scholar scrapper: the crawler of [main.py], embedded and verified

    The development follows [src/main.py].  Python objects that the code
    mutates in place (the papers dictionary, the visited set, the queue, the
    output directory) live in one explicit store that every operation threads;
    exceptions are results that keep the store as it was when they were
    raised; the network, the clock and the browser are logged in a trace. *)

From Stdlib Require Import String Ascii List Bool Arith ZArith QArith Lia.
Import ListNotations.

Local Close Scope Q_scope.
Local Open Scope string_scope.
Local Open Scope list_scope.

(** ** Python dictionaries

    A [dict] keeps its keys in insertion order ([deque(papers_dict.keys())]
    depends on it), so it is an association list: [d[k] = v] replaces the
    value of an existing key in place and appends a new key at the end. *)

Module Dict.

Section WithValues.
Variable V : Type.

Definition dict := list (string * V).

Fixpoint get (d : dict) (k : string) : option V :=
  match d with
  | [] => None
  | (k', v) :: d' => if String.eqb k k' then Some v else get d' k
  end.

Definition mem (k : string) (d : dict) : bool :=
  match get d k with Some _ => true | None => false end.

Fixpoint set (d : dict) (k : string) (v : V) : dict :=
  match d with
  | [] => [(k, v)]
  | (k', v') :: d' =>
      if String.eqb k k' then (k', v) :: d' else (k', v') :: set d' k v
  end.

Definition keys (d : dict) : list string := map fst d.

End WithValues.

Arguments get {V} d k.
Arguments mem {V} k d.
Arguments set {V} d k v.
Arguments keys {V} d.

End Dict.

Abbreviation dict := Dict.dict.

(** ** Data model *)

(** An entry of a [references] or [citations] list: [{'paperId': ...}]. *)
Record stub := { stub_paperId : string }.

(** A paper dictionary as the API returns it and as the scrapper extends it.
    A key that may be absent is an [option]: reading it when it is [None]
    raises [KeyError]. *)
Record paper := {
  paperId         : option string;
  title           : option string;
  references      : option (list stub);
  citations       : option (list stub);
  abstract        : option string;
  topics          : option (list (string * string));
  bibtex_citation : option string
}.

(** [dict()] *)
Definition empty_paper : paper :=
  {| paperId := None; title := None; references := None; citations := None;
     abstract := None; topics := None; bibtex_citation := None |}.

(** ** Exceptions and results *)

Inductive type_error :=
| MissingPositional (callee : string) (names : list string)
| TooManyPositional (callee : string).

Inductive exn :=
| TypeError (why : type_error)
| KeyError (key : string)
| IndexError
| RequestException
| JSONDecodeError
| OSError
| TimeoutException
| WebDriverException
| FirstPaperDifferentError (expression message : string).

Inductive result (A : Type) :=
| Returned (a : A)   (* normal completion *)
| Raised (e : exn)   (* an exception propagates to the caller *)
| IllTyped           (* a call with arguments of the wrong kind: not modelled *)
| OutOfFuel.         (* the loop bound of the model was reached *)

Arguments Returned {A} a.
Arguments Raised {A} e.
Arguments IllTyped {A}.
Arguments OutOfFuel {A}.

(** ** Calls: binding positional arguments to parameters

    The objects the crawler passes around.  The three collections are passed
    by reference: [PyDict], [PySet] and [PyDeque] name [papers_dict],
    [paper_visited_set] and [paper_id_queue] of the store. *)
Inductive pyobj :=
| PyNone
| PyStr (s : string)
| PyDict
| PySet
| PyDeque.

Record param := { p_name : string; p_default : option pyobj }.

Definition required (n : string) : param :=
  {| p_name := n; p_default := None |}.
Definition optional (n : string) (d : pyobj) : param :=
  {| p_name := n; p_default := Some d |}.

(** Parameters left without an argument: those with a default take it, the
    others are reported missing. *)
Fixpoint bind_defaults (ps : list param)
  : list string * list (string * pyobj) :=
  match ps with
  | [] => ([], [])
  | p :: ps' =>
      let (missing, env) := bind_defaults ps' in
      match p_default p with
      | Some d => (missing, (p_name p, d) :: env)
      | None => (p_name p :: missing, env)
      end
  end.

(** A call [callee(a1, ..., an)] with positional arguments only ([self]
    left out on both sides). *)
Fixpoint bind_args (callee : string) (ps : list param) (args : list pyobj)
  : exn + list (string * pyobj) :=
  match ps, args with
  | _, [] =>
      match bind_defaults ps with
      | ([], env) => inr env
      | (missing, _) => inl (TypeError (MissingPositional callee missing))
      end
  | [], _ :: _ => inl (TypeError (TooManyPositional callee))
  | p :: ps', a :: args' =>
      match bind_args callee ps' args' with
      | inl e => inl e
      | inr env => inr ((p_name p, a) :: env)
      end
  end.

(** ** The store and the outside world *)

Inductive event :=
| EvGet (url : string)           (* requests.get(url) *)
| EvSleep (seconds : Q)          (* time.sleep(seconds) *)
| EvWrite (file_name : string)   (* open(file_name, 'w') and json.dump *)
| EvBrowser (what : string).     (* an action of the web driver *)

Record state := {
  papers_dict       : dict paper;
  paper_visited_set : list string;  (* in the order of the [add] calls *)
  paper_id_queue    : list string;  (* left end first *)
  attributes_dict   : paper;        (* local of [scrap_paper_by_title] *)
  files             : dict paper;   (* file name -> what was dumped there *)
  trace             : list event    (* oldest first *)
}.

(** What the network answers to [requests.get]: the request raises, or a
    response arrives whose body decodes ([request.json()]) or does not.  A
    body that decodes is a JSON object whose fields, where present, have the
    types that the code expects (strings, lists of stubs); a body that
    decodes to another JSON value, or a field that is [null], is not
    represented, and what is proved of the outcome of a request is proved
    for these bodies. *)
Inductive http :=
| NoResponse
| Response (body : option paper).

(** One [h1] element: its [data-selenium-selector] attribute and its text. *)
Record h1_element := { h1_selector : string; h1_text : string }.

(** The pages the browser shows, by searched title; [Some e] says that the
    step raises [e]. *)
Record web := {
  chrome_start  : option exn;
  chrome_close  : option exn;
  search_page   : string -> option exn;
  first_link    : string -> option exn;
  h1_wait       : string -> option exn;
  h1_list       : string -> list h1_element;
  abstract_page : string -> exn + string;
  topics_page   : string -> exn + list (string * string);
  bibtex_page   : string -> exn + string;
  current_url   : string -> string
}.

(** What the interpreter knows of the characters that are not ASCII: which
    of them are letters or digits, and the lowercase of a string that has
    some. *)
Record unicode_data := {
  unicode_isalnum : string -> bool;    (* [ch.isalnum()] *)
  unicode_lower   : string -> string   (* [s.lower()] *)
}.

Record world := {
  requests_get : string -> http;
  can_open     : string -> bool;   (* does [open(name, 'w')] succeed *)
  browser      : web;
  levenshtein  : string -> string -> Z;   (* distance.levenshtein *)
  unicodedata  : unicode_data
}.

(** [SemanticScholarScrapper.__init__] *)
Record scrapper := {
  _site_url              : string;
  _timeout               : Q;
  _time_between_api_call : Q;
  _headless              : bool
}.

Definition default_scrapper : scrapper :=
  {| _site_url := "https://www.semanticscholar.org/";
     _timeout := 5%Q; _time_between_api_call := (1 # 2)%Q; _headless := true |}.

(** ** The monad of the embedding: store passing with exceptions *)

Definition M (A : Type) := state -> result A * state.

Definition ret {A} (a : A) : M A := fun st => (Returned a, st).

Definition bind {A B} (c : M A) (k : A -> M B) : M B :=
  fun st =>
    match c st with
    | (Returned a, st') => k a st'
    | (Raised e, st') => (Raised e, st')
    | (IllTyped, st') => (IllTyped, st')
    | (OutOfFuel, st') => (OutOfFuel, st')
    end.

Definition raise {A} (e : exn) : M A := fun st => (Raised e, st).

Definition ill_typed {A} : M A := fun st => (IllTyped, st).

Declare Scope py_scope.
Delimit Scope py_scope with py.
Notation "x <- c ;; k" := (bind c (fun x => k))
  (at level 61, c at next level, right associativity) : py_scope.
Notation "c ;;; k" := (bind c (fun _ => k))
  (at level 61, right associativity) : py_scope.
Local Open Scope py_scope.

Definition read {A} (f : state -> A) : M A := fun st => (Returned (f st), st).
Definition update (f : state -> state) : M unit :=
  fun st => (Returned tt, f st).

Definition log (e : event) (st : state) : state :=
  {| papers_dict := papers_dict st; paper_visited_set := paper_visited_set st;
     paper_id_queue := paper_id_queue st; attributes_dict := attributes_dict st;
     files := files st; trace := trace st ++ [e] |}.

Definition set_papers_dict (d : dict paper) (st : state) : state :=
  {| papers_dict := d; paper_visited_set := paper_visited_set st;
     paper_id_queue := paper_id_queue st; attributes_dict := attributes_dict st;
     files := files st; trace := trace st |}.

Definition set_paper_visited_set (v : list string) (st : state) : state :=
  {| papers_dict := papers_dict st; paper_visited_set := v;
     paper_id_queue := paper_id_queue st; attributes_dict := attributes_dict st;
     files := files st; trace := trace st |}.

Definition set_paper_id_queue (q : list string) (st : state) : state :=
  {| papers_dict := papers_dict st; paper_visited_set := paper_visited_set st;
     paper_id_queue := q; attributes_dict := attributes_dict st;
     files := files st; trace := trace st |}.

Definition set_attributes_dict (p : paper) (st : state) : state :=
  {| papers_dict := papers_dict st; paper_visited_set := paper_visited_set st;
     paper_id_queue := paper_id_queue st; attributes_dict := p;
     files := files st; trace := trace st |}.

Definition set_files (f : dict paper) (st : state) : state :=
  {| papers_dict := papers_dict st; paper_visited_set := paper_visited_set st;
     paper_id_queue := paper_id_queue st; attributes_dict := attributes_dict st;
     files := f; trace := trace st |}.

(** [x in s] for a set or a dictionary's keys *)
Definition mem (x : string) (s : list string) : bool :=
  existsb (String.eqb x) s.

(** [d[k]], raising [KeyError] *)
Definition subscript {A} (o : option A) (k : string) : M A :=
  match o with
  | Some a => ret a
  | None => raise (KeyError k)
  end.

(** ** Strings: what [re], [str] and [os.path] do

    A Python string is held as its UTF-8 encoding (a lone surrogate as the
    three bytes of its code point, so that every string has one).  On ASCII
    characters [\w] is a letter, a digit or the underscore and [str.lower]
    maps [A-Z] to [a-z]; the functions of this first part work on ASCII
    strings, which the addresses of pages are.  Titles may have any
    character: the second part splits a string into its characters and asks
    the [unicodedata] of the world about those that are not ASCII. *)

Definition is_ascii_char (c : ascii) : bool := (nat_of_ascii c <? 128)%nat.

Definition is_upper (c : ascii) : bool :=
  ((65 <=? nat_of_ascii c) && (nat_of_ascii c <=? 90))%nat.

Definition is_lower (c : ascii) : bool :=
  ((97 <=? nat_of_ascii c) && (nat_of_ascii c <=? 122))%nat.

Definition is_digit (c : ascii) : bool :=
  ((48 <=? nat_of_ascii c) && (nat_of_ascii c <=? 57))%nat.

(** [\w] *)
Definition is_word_char (c : ascii) : bool :=
  is_upper c || is_lower c || is_digit c || Ascii.eqb c "_"%char.

Fixpoint is_ascii (s : string) : bool :=
  match s with
  | EmptyString => true
  | String c s' => is_ascii_char c && is_ascii s'
  end.

(** The scan of [re.findall('\w+', s)]: [run] is the match in progress, its
    last character first. *)
Fixpoint rev_string (l : list ascii) (acc : string) : string :=
  match l with
  | [] => acc
  | c :: l' => rev_string l' (String c acc)
  end.

Fixpoint findall_scan (s : string) (run : list ascii) : list string :=
  match s with
  | EmptyString =>
      match run with
      | [] => []
      | _ :: _ => [rev_string run ""]
      end
  | String c s' =>
      if is_word_char c then findall_scan s' (c :: run)
      else
        match run with
        | [] => findall_scan s' []
        | _ :: _ => rev_string run "" :: findall_scan s' []
        end
  end.

(** [re.findall('\w+', s)] for an ASCII string *)
Definition findall_word (s : string) : list string := findall_scan s [].

(** [sep.join(l)] *)
Fixpoint join (sep : string) (l : list string) : string :=
  match l with
  | [] => ""
  | [x] => x
  | x :: l' => (x ++ sep ++ join sep l')%string
  end.

Definition lower_char (c : ascii) : ascii :=
  if is_upper c then ascii_of_nat (nat_of_ascii c + 32) else c.

(** [s.lower()] for an ASCII string *)
Fixpoint lower (s : string) : string :=
  match s with
  | EmptyString => EmptyString
  | String c s' => String (lower_char c) (lower s')
  end.

(** [s[:n]] for an ASCII string *)
Fixpoint slice_to (n : nat) (s : string) : string :=
  match n, s with
  | S n', String c s' => String c (slice_to n' s')
  | _, _ => EmptyString
  end.

Fixpoint endswith_slash (s : string) : bool :=
  match s with
  | EmptyString => false
  | String c EmptyString => Ascii.eqb c "/"%char
  | String _ s' => endswith_slash s'
  end.

(** [os.path.join(a, b)] of [posixpath] *)
Definition os_path_join (a b : string) : string :=
  match b with
  | String "/"%char _ => b
  | _ =>
      match a with
      | EmptyString => b
      | _ =>
          if endswith_slash a then (a ++ b)%string
          else (a ++ "/" ++ b)%string
      end
  end.

(** *** Strings with any character *)

(** The bytes [10xxxxxx], which continue a character. *)
Definition is_continuation_byte (c : ascii) : bool :=
  ((128 <=? nat_of_ascii c) && (nat_of_ascii c <? 192))%nat.

Definition starts_with_continuation (s : string) : bool :=
  match s with
  | String c _ => is_continuation_byte c
  | EmptyString => false
  end.

(** The characters of a string, in order: a character is a byte that is
    not a continuation byte, with the continuation bytes that follow it. *)
Fixpoint characters (s : string) : list string :=
  match s with
  | EmptyString => []
  | String c s' =>
      if starts_with_continuation s' then
        match characters s' with
        | character :: rest => String c character :: rest
        | [] => [String c EmptyString]
        end
      else String c EmptyString :: characters s'
  end.

(** The string made of a list of characters. *)
Fixpoint flatten (l : list string) : string :=
  match l with
  | [] => EmptyString
  | x :: l' => (x ++ flatten l')%string
  end.

(** [\w] on a character: a letter, a digit or the underscore. *)
Definition is_word (u : unicode_data) (character : string) : bool :=
  match character with
  | String c EmptyString =>
      if is_ascii_char c then is_word_char c else unicode_isalnum u character
  | _ => unicode_isalnum u character
  end.

(** The scan of [re.findall] for the runs of the elements that [P]
    accepts: [run] is the match in progress. *)
Fixpoint scan_runs {A} (P : A -> bool) (l : list A) (run : list A)
  : list (list A) :=
  match l with
  | [] =>
      match run with
      | [] => []
      | _ :: _ => [run]
      end
  | x :: l' =>
      if P x then scan_runs P l' (run ++ [x])
      else
        match run with
        | [] => scan_runs P l' []
        | _ :: _ => run :: scan_runs P l' []
        end
  end.

(** [re.findall('\w+', s)] *)
Definition findall_word_characters (u : unicode_data) (s : string)
  : list string :=
  map flatten (scan_runs (is_word u) (characters s) []).

(** [s.lower()] *)
Definition str_lower (u : unicode_data) (s : string) : string :=
  if is_ascii s then lower s else unicode_lower u s.

(** [s[:n]]: the first [n] characters. *)
Definition slice_characters (n : nat) (s : string) : string :=
  flatten (firstn n (characters s)).

(** ** The persistence sink *)

(** [create_json_file_name] *)
Definition create_json_file_name (w : world) (paper_dict : paper)
    (out_dir_name : string) : M string :=
  let max_no_chars := 50%nat in
  title <- subscript (title paper_dict) "title" ;;
  let title :=
    slice_characters max_no_chars
      (str_lower (unicodedata w)
         (join "_" (findall_word_characters (unicodedata w) title))) in
  let output_file_name := (os_path_join out_dir_name title ++ ".json")%string in
  ret output_file_name.

(** [open(output_file_name, 'w')] followed by [json.dump]: the file is
    replaced as a whole. *)
Definition dump (w : world) (paper_dict : paper) (output_file_name : string)
  : M unit :=
  if can_open w output_file_name then
    update (fun st =>
      log (EvWrite output_file_name)
          (set_files (Dict.set (files st) output_file_name paper_dict) st))
  else raise OSError.

(** [save_json] *)
Definition save_json (w : world) (paper_dict : paper) (out_dir_name : string)
  : M unit :=
  output_file_name <- create_json_file_name w paper_dict out_dir_name ;;
  dump w paper_dict output_file_name.

(** ** The fetcher *)

Definition http_get (w : world) (url : string) : M (option paper) :=
  fun st =>
    match requests_get w url with
    | NoResponse => (Raised RequestException, log (EvGet url) st)
    | Response body => (Returned body, log (EvGet url) st)
    end.

(** [time.sleep(seconds)] for [0 <= seconds]; of a negative number
    [time.sleep] raises [ValueError], and the theorems that state the
    outcome of a request that is answered assume an interval that is not
    negative. *)
Definition time_sleep (seconds : Q) : M unit := update (log (EvSleep seconds)).

(** [request.json()] *)
Definition response_json (body : option paper) : M paper :=
  match body with
  | Some p => ret p
  | None => raise JSONDecodeError
  end.

Definition json_url_of (paper_id : string) : string :=
  let api_url := "https://api.semanticscholar.org/v1/paper/" in
  (api_url ++ paper_id ++ "?include_unknown_references=true")%string.

(** [_get_paper_json_by_id]: the handler of its [try] re-raises what
    [requests.get] raised, so the [sleep] below it is skipped then. *)
Definition _get_paper_json_by_id (self : scrapper) (w : world)
    (paper_id : string) : M paper :=
  let json_url := json_url_of paper_id in
  request <- http_get w json_url ;;
  time_sleep (_time_between_api_call self) ;;;
  response_json request.

(** ** The traversal *)

Definition _retrieve_related_papers_params : list param :=
  [ required "papers_dict"; required "paper_id"; required "relationship_type";
    required "paper_visited_set"; required "paper_id_queue";
    optional "out_dir_name" PyNone ].

(** [paper_dict[relationship_type]] for the two keys the docstring allows *)
Definition relationship (relationship_type : string) (p : paper)
  : M (list stub) :=
  if relationship_type =? "references" then
    subscript (references p) "references"
  else if relationship_type =? "citations" then
    subscript (citations p) "citations"
  else ill_typed.

(** The comprehension of lines 84-86. *)
Definition related_papers_id_list (related : list stub) : list string :=
  map stub_paperId
      (filter (fun paper_dict => negb (stub_paperId paper_dict =? "")) related).

(** One turn of the [for] loop of lines 88-97. *)
Definition for_body (self : scrapper) (w : world)
    (out_dir_name : option string) (related_paper_id : string) : M unit :=
  known <- read (fun st => Dict.mem related_paper_id (papers_dict st)) ;;
  if negb known then
    related_paper_dict <- _get_paper_json_by_id self w related_paper_id ;;
    update (fun st =>
      set_papers_dict
        (Dict.set (papers_dict st) related_paper_id related_paper_dict) st) ;;;
    match out_dir_name with
    | Some d => save_json w related_paper_dict d
    | None => ret tt
    end ;;;
    visited <- read (fun st => mem related_paper_id (paper_visited_set st)) ;;
    if negb visited then
      update (fun st =>
        set_paper_id_queue (paper_id_queue st ++ [related_paper_id]) st)
    else ret tt
  else ret tt.

(** [for related_paper_id in related_papers_id_list] *)
Fixpoint for_related_paper_id (self : scrapper) (w : world)
    (out_dir_name : option string) (ids : list string) : M unit :=
  match ids with
  | [] => ret tt
  | related_paper_id :: rest =>
      for_body self w out_dir_name related_paper_id ;;;
      for_related_paper_id self w out_dir_name rest
  end.

(** The body of [_retrieve_related_papers], its parameters bound. *)
Definition retrieve_body (self : scrapper) (w : world) (paper_id : string)
    (relationship_type : string) (out_dir_name : option string) : M unit :=
  entry <- read (fun st => Dict.get (papers_dict st) paper_id) ;;
  paper_dict <- subscript entry paper_id ;;
  related <- relationship relationship_type paper_dict ;;
  for_related_paper_id self w out_dir_name (related_papers_id_list related).

(** [_retrieve_related_papers], called with the positional arguments [args].
    The body runs on the arguments its signature documents: the papers
    dictionary, two strings, the visited set, the queue and a directory name
    or [None]. *)
Definition _retrieve_related_papers (self : scrapper) (w : world)
    (args : list pyobj) : M unit :=
  match
    bind_args "_retrieve_related_papers" _retrieve_related_papers_params args
  with
  | inl e => raise e
  | inr [ (_, PyDict); (_, PyStr paper_id); (_, PyStr relationship_type);
          (_, PySet); (_, PyDeque); (_, PyNone) ] =>
      retrieve_body self w paper_id relationship_type None
  | inr [ (_, PyDict); (_, PyStr paper_id); (_, PyStr relationship_type);
          (_, PySet); (_, PyDeque); (_, PyStr out_dir_name) ] =>
      retrieve_body self w paper_id relationship_type (Some out_dir_name)
  | inr _ => ill_typed
  end.

Definition pyobj_of_dir (out_dir_name : option string) : pyobj :=
  match out_dir_name with
  | Some d => PyStr d
  | None => PyNone
  end.

(** One turn of the [while] loop of [get_related_papers] (lines 60-65), the
    queue holding [current_paper_id] at its left end. *)
Definition while_body (self : scrapper) (w : world)
    (out_dir_name : option string) (current_paper_id : string) : M unit :=
  update (fun st => set_paper_id_queue (tl (paper_id_queue st)) st) ;;;
  visited <- read (fun st => mem current_paper_id (paper_visited_set st)) ;;
  if negb visited then
    update (fun st =>
      set_paper_visited_set (paper_visited_set st ++ [current_paper_id]) st) ;;;
    _retrieve_related_papers self w
      [PyDict; PyStr current_paper_id; PyStr "references";
       pyobj_of_dir out_dir_name] ;;;
    _retrieve_related_papers self w
      [PyDict; PyStr current_paper_id; PyStr "citations";
       pyobj_of_dir out_dir_name]
  else ret tt.

(** [while len(paper_id_queue) > 0], at most [fuel] turns. *)
Fixpoint while_queue (self : scrapper) (w : world)
    (out_dir_name : option string) (fuel : nat) : M unit :=
  fun st =>
    match paper_id_queue st with
    | [] => (Returned tt, st)
    | current_paper_id :: _ =>
        match fuel with
        | O => (OutOfFuel, st)
        | S fuel' =>
            (while_body self w out_dir_name current_paper_id ;;;
             while_queue self w out_dir_name fuel') st
        end
    end.

(** [get_related_papers]: [papers_dict] is the dictionary of the store. *)
Definition get_related_papers (self : scrapper) (w : world)
    (out_dir_name : option string) (fuel : nat) : M unit :=
  update (fun st => set_paper_id_queue (Dict.keys (papers_dict st)) st) ;;;
  update (set_paper_visited_set []) ;;;
  while_queue self w out_dir_name fuel.

(** The store at the call of [get_related_papers]: the seeds, the output
    directory as it is, nothing logged. *)
Definition initial (seeds : dict paper) (dir : dict paper) : state :=
  {| papers_dict := seeds; paper_visited_set := []; paper_id_queue := [];
     attributes_dict := empty_paper; files := dir; trace := [] |}.

(** ** The crawl with the call completed

    [get_related_papers] again, the two calls of lines 64-65 now passing the
    visited set and the queue that the callee's signature (lines 67-69) and
    docstring (lines 77-78) ask for.  Nothing else differs from the source.
    The properties below are stated on the source as it is written; this
    variant records what the traversal computes once the call reaches the
    body of [_retrieve_related_papers]. *)

Module Completed.

Definition while_body (self : scrapper) (w : world)
    (out_dir_name : option string) (current_paper_id : string) : M unit :=
  update (fun st => set_paper_id_queue (tl (paper_id_queue st)) st) ;;;
  visited <- read (fun st => mem current_paper_id (paper_visited_set st)) ;;
  if negb visited then
    update (fun st =>
      set_paper_visited_set (paper_visited_set st ++ [current_paper_id]) st) ;;;
    _retrieve_related_papers self w
      [PyDict; PyStr current_paper_id; PyStr "references"; PySet; PyDeque;
       pyobj_of_dir out_dir_name] ;;;
    _retrieve_related_papers self w
      [PyDict; PyStr current_paper_id; PyStr "citations"; PySet; PyDeque;
       pyobj_of_dir out_dir_name]
  else ret tt.

Fixpoint while_queue (self : scrapper) (w : world)
    (out_dir_name : option string) (fuel : nat) : M unit :=
  fun st =>
    match paper_id_queue st with
    | [] => (Returned tt, st)
    | current_paper_id :: _ =>
        match fuel with
        | O => (OutOfFuel, st)
        | S fuel' =>
            (while_body self w out_dir_name current_paper_id ;;;
             while_queue self w out_dir_name fuel') st
        end
    end.

Definition get_related_papers (self : scrapper) (w : world)
    (out_dir_name : option string) (fuel : nat) : M unit :=
  update (fun st => set_paper_id_queue (Dict.keys (papers_dict st)) st) ;;;
  update (set_paper_visited_set []) ;;;
  while_queue self w out_dir_name fuel.

End Completed.

(** ** The seed resolver *)

(** One action of the web driver, which may raise. *)
Definition driver (what : string) (raises : option exn) : M unit :=
  fun st =>
    match raises with
    | None => (Returned tt, log (EvBrowser what) st)
    | Some e => (Raised e, log (EvBrowser what) st)
    end.

Definition page {A} (what : string) (found : exn + A) : M A :=
  fun st =>
    match found with
    | inr a => (Returned a, log (EvBrowser what) st)
    | inl e => (Raised e, log (EvBrowser what) st)
    end.

Definition _start_browser (w : world) : M unit :=
  driver "start" (chrome_start (browser w)).

Definition _close_browser (w : world) : M unit :=
  driver "close" (chrome_close (browser w)).

Definition _search_paper_by_name (w : world) (paper_title : string) : M unit :=
  driver "search" (search_page (browser w) paper_title).

Definition _open_first_link_in_search_page (w : world) (searched : string)
  : M unit :=
  driver "first link" (first_link (browser w) searched).

Definition FirstPaperDifferentError_params : list param :=
  [ required "expression"; required "message" ].

(** [raise FirstPaperDifferentError]: raising the class instantiates it
    without arguments, and [__init__] binds them first. *)
Definition raise_FirstPaperDifferentError {A} (args : list pyobj) : M A :=
  match bind_args "__init__" FirstPaperDifferentError_params args with
  | inl e => raise e
  | inr [ (_, PyStr expression); (_, PyStr message) ] =>
      raise (FirstPaperDifferentError expression message)
  | inr _ => ill_typed
  end.

(** [[...][0]] *)
Definition first {A} (l : list A) : M A :=
  match l with
  | x :: _ => ret x
  | [] => raise IndexError
  end.

(** [_check_paper_page] *)
Definition _check_paper_page (w : world) (paper_title : string) : M unit :=
  driver "wait h1" (h1_wait (browser w) paper_title) ;;;
  let h1_list := h1_list (browser w) paper_title in
  h1 <- first (filter (fun h1 => h1_selector h1 =? "paper-detail-title")
                      h1_list) ;;
  let title := h1_text h1 in
  let d := levenshtein w paper_title title in
  if negb ((0 <=? d)%Z && (d <=? 10)%Z) then raise_FirstPaperDifferentError []
  else ret tt.

Definition _get_abstract_in_paper_page (w : world) (searched : string)
  : M string :=
  page "abstract" (abstract_page (browser w) searched).

(** [_get_topics_in_paper_page]: a time-out yields the empty dictionary. *)
Definition _get_topics_in_paper_page (w : world) (searched : string)
  : M (list (string * string)) :=
  match topics_page (browser w) searched with
  | inl TimeoutException => page "topics" (inr [])
  | found => page "topics" found
  end.

Definition _get_bibtex_citation (w : world) (searched : string) : M string :=
  page "bibtex" (bibtex_page (browser w) searched).

(** [s.split('/')[-1]] *)
Fixpoint last_segment (s : string) (segment : string) : string :=
  match s with
  | EmptyString => segment
  | String c s' =>
      if Ascii.eqb c "/"%char then last_segment s' ""
      else last_segment s' (segment ++ String c "")%string
  end.

(** [_get_paper_id_from_current_url]; the look-ahead of its pattern
    admits the empty string, so the matches are those of [\w+]. *)
Definition _get_paper_id_from_current_url (w : world) (searched : string)
  : M string :=
  let paper_page_id := last_segment (current_url (browser w) searched) "" in
  first (findall_word paper_page_id).

Definition catches_FirstPaperDifferentError (e : exn) : bool :=
  match e with
  | FirstPaperDifferentError _ _ => true
  | _ => false
  end.

(** [try: body / except E: handler / finally: return value]: the [return]
    of the [finally] clause replaces whatever the [try] statement was about
    to do, an exception in flight included. *)
Definition try_except_finally_return {A} (body : M unit) (catches : exn -> bool)
    (handler : M unit) (value : state -> A) : M A :=
  fun st =>
    let finally (r : result unit * state) : result A * state :=
      match r with
      | (Returned _, st') => (Returned (value st'), st')
      | (Raised _, st') => (Returned (value st'), st')
      | (IllTyped, st') => (IllTyped, st')
      | (OutOfFuel, st') => (OutOfFuel, st')
      end in
    match body st with
    | (Raised e, st') =>
        if catches e then finally (handler st') else finally (Raised e, st')
    | r => finally r
    end.

Definition with_page_fields (p : paper) (abstract_text : string)
    (topic_dict : list (string * string)) (bibtex : string) : paper :=
  {| paperId := paperId p; title := title p; references := references p;
     citations := citations p; abstract := Some abstract_text;
     topics := Some topic_dict; bibtex_citation := Some bibtex |}.

(** [scrap_paper_by_title] *)
Definition scrap_paper_by_title (self : scrapper) (w : world)
    (paper_title : string) (call_browser : bool) : M paper :=
  update (set_attributes_dict empty_paper) ;;;
  (if call_browser then _start_browser w else ret tt) ;;;
  try_except_finally_return
    (_search_paper_by_name w paper_title ;;;
     _open_first_link_in_search_page w paper_title ;;;
     _check_paper_page w paper_title ;;;
     abstract_text <- _get_abstract_in_paper_page w paper_title ;;
     topic_dict <- _get_topics_in_paper_page w paper_title ;;
     bibtex <- _get_bibtex_citation w paper_title ;;
     paper_id <- _get_paper_id_from_current_url w paper_title ;;
     fetched <- _get_paper_json_by_id self w paper_id ;;
     update (set_attributes_dict fetched) ;;;
     update (fun st =>
       set_attributes_dict
         (with_page_fields (attributes_dict st) abstract_text topic_dict bibtex)
         st) ;;;
     if call_browser then _close_browser w else ret tt)
    catches_FirstPaperDifferentError
    (_close_browser w)
    attributes_dict.

Definition catches_KeyError (e : exn) : bool :=
  match e with
  | KeyError _ => true
  | _ => false
  end.

(** [try: body / except E: pass] *)
Definition try_except_pass (body : M unit) (catches : exn -> bool) : M unit :=
  fun st =>
    match body st with
    | (Raised e, st') =>
        if catches e then (Returned tt, st') else (Raised e, st')
    | r => r
    end.

(** The [for] loop of [scrap_paper_list_by_title]. *)
Fixpoint for_paper_name (self : scrapper) (w : world)
    (paper_title_list : list string) : M unit :=
  match paper_title_list with
  | [] => ret tt
  | paper_name :: rest =>
      try_except_pass
        (paper_dict <- scrap_paper_by_title self w paper_name false ;;
         paper_id <- subscript (paperId paper_dict) "paperId" ;;
         update (fun st =>
           set_papers_dict (Dict.set (papers_dict st) paper_id paper_dict) st))
        catches_KeyError ;;;
      for_paper_name self w rest
  end.

(** [scrap_paper_list_by_title] *)
Definition scrap_paper_list_by_title (self : scrapper) (w : world)
    (paper_title_list : list string) : M (dict paper) :=
  _start_browser w ;;;
  update (set_papers_dict []) ;;;
  for_paper_name self w paper_title_list ;;;
  _close_browser w ;;;
  read papers_dict.

(** * Fixtures and vocabulary of the properties *)

(** ** Fixtures: repositories, browsers and graphs *)

Module Fixtures.

(** An interpreter for which no character beyond ASCII is a letter or a
    digit or has another lowercase. *)
Definition plain : unicode_data :=
  {| unicode_isalnum := fun _ => false; unicode_lower := fun s => s |}.

Definition record (name : string) (refs cits : list string) : paper :=
  {| paperId := Some name; title := Some ("Paper " ++ name)%string;
     references := Some (map Build_stub refs);
     citations := Some (map Build_stub cits);
     abstract := None; topics := None; bibtex_citation := None |}.

Definition quiet_browser : web :=
  {| chrome_start := None; chrome_close := None;
     search_page := fun _ => None; first_link := fun _ => None;
     h1_wait := fun _ => None; h1_list := fun _ => [];
     abstract_page := fun _ => inr ""; topics_page := fun _ => inr [];
     bibtex_page := fun _ => inr ""; current_url := fun _ => "" |}.

(** A repository that serves the records of [served] and fails on every
    other request. *)
Fixpoint serve (served : list (string * paper)) (url : string) : http :=
  match served with
  | [] => NoResponse
  | (id, p) :: served' =>
      if url =? json_url_of id then Response (Some p) else serve served' url
  end.

Definition static (served : list (string * paper)) : world :=
  {| requests_get := serve served; can_open := fun _ => true;
     browser := quiet_browser; levenshtein := fun _ _ => 0%Z;
     unicodedata := plain |}.

(** seeds = {A}; A.references = [B, C]; B.citations = [A, D]. *)
Definition A := record "A" ["B"; "C"] [].
Definition B := record "B" [] ["A"; "D"].
Definition C := record "C" [] [].
Definition D := record "D" [] [].

Definition diamond : world := static [("B", B); ("C", C); ("D", D)].
Definition diamond_seeds : dict paper := [("A", A)].

End Fixtures.

(** A browser that cannot be started. *)
Definition no_chrome : world :=
  {| requests_get := fun _ => NoResponse; can_open := fun _ => true;
     browser :=
       {| chrome_start := Some WebDriverException; chrome_close := None;
          search_page := fun _ => None; first_link := fun _ => None;
          h1_wait := fun _ => None; h1_list := fun _ => [];
          abstract_page := fun _ => inr ""; topics_page := fun _ => inr [];
          bibtex_page := fun _ => inr ""; current_url := fun _ => "" |};
     levenshtein := fun _ _ => 0%Z; unicodedata := Fixtures.plain |}.

(** A page whose title is far from the requested one. *)
Definition unrelated : world :=
  {| requests_get := fun _ => NoResponse; can_open := fun _ => true;
     browser :=
       {| chrome_start := None; chrome_close := None;
          search_page := fun _ => None; first_link := fun _ => None;
          h1_wait := fun _ => None;
          h1_list := fun _ =>
            [ {| h1_selector := "paper-detail-title";
                 h1_text :=
                   "Completely Unrelated Document About Something Else Entirely"
              |} ];
          abstract_page := fun _ => inr ""; topics_page := fun _ => inr [];
          bibtex_page := fun _ => inr ""; current_url := fun _ => "" |};
     levenshtein := fun _ _ => 57%Z; unicodedata := Fixtures.plain |}.

(** Two titles whose pages are found; the repository does not answer the
    request for the first paper and serves the second. *)
Definition flaky : world :=
  {| requests_get := Fixtures.serve [("id2", Fixtures.record "id2" [] [])];
     can_open := fun _ => true;
     browser :=
       {| chrome_start := None; chrome_close := None;
          search_page := fun _ => None; first_link := fun _ => None;
          h1_wait := fun _ => None;
          h1_list := fun searched =>
            [ {| h1_selector := "paper-detail-title"; h1_text := searched |} ];
          abstract_page := fun _ => inr "An abstract.";
          topics_page := fun _ => inr [];
          bibtex_page := fun _ => inr "@article{}";
          current_url := fun searched =>
            if searched =? "First"
            then "https://www.semanticscholar.org/paper/First/id1"
            else "https://www.semanticscholar.org/paper/Second/id2" |};
     levenshtein := fun _ _ => 0%Z; unicodedata := Fixtures.plain |}.

(** A repository that answers no request. *)
Definition offline : world := Fixtures.static [].

(** seeds = {A}; A.references = [B]. *)
Definition chain_seeds : dict paper := [("A", Fixtures.record "A" ["B"] [])].
Definition chain : world := Fixtures.static [("B", Fixtures.record "B" [] [])].

Definition attention : paper :=
  {| paperId := Some "204e3073870fae3d05bcbc2f6a8e263d9b72e776";
     title := Some "Attention Is All You Need: Transformer Models!!";
     references := Some []; citations := Some [];
     abstract := None; topics := None; bibtex_citation := None |}.

(** ** Vocabulary: calls *)

Definition missing_queue : exn :=
  TypeError (MissingPositional "_retrieve_related_papers" ["paper_id_queue"]).

Definition missing_init_arguments : exn :=
  TypeError (MissingPositional "__init__" ["expression"; "message"]).

(** ** Vocabulary: file names *)

Fixpoint all_chars (P : ascii -> bool) (s : string) : bool :=
  match s with
  | EmptyString => true
  | String c s' => P c && all_chars P s'
  end.

Definition non_word_char (c : ascii) : bool := negb (is_word_char c).

(** Where a run of word characters ends: at the end of the string or in
    front of a character that is not a word character. *)
Definition run_ends (s : string) : Prop :=
  match s with
  | EmptyString => True
  | String c _ => is_word_char c = false
  end.

(** The word-character runs of a string, in the words of the specification:
    the string is a gap without word characters, then a non-empty run of
    word characters that cannot be extended, then what follows. *)
Inductive word_runs : string -> list string -> Prop :=
| runs_none : forall gap,
    all_chars non_word_char gap = true -> word_runs gap []
| runs_cons : forall s gap run rest runs,
    s = (gap ++ run ++ rest)%string ->
    all_chars non_word_char gap = true ->
    run <> EmptyString ->
    all_chars is_word_char run = true ->
    run_ends rest ->
    word_runs rest runs ->
    word_runs s (run :: runs).

(** The runs of a list, in the words of the specification: the list is a
    gap of elements that [P] rejects, then a non-empty run of elements that
    [P] accepts and that cannot be extended, then what follows. *)
Inductive runs_in {A} (P : A -> bool) : list A -> list (list A) -> Prop :=
| runs_in_none : forall gap,
    forallb (fun x => negb (P x)) gap = true -> runs_in P gap []
| runs_in_cons : forall l gap run rest runs,
    l = gap ++ run ++ rest ->
    forallb (fun x => negb (P x)) gap = true ->
    run <> [] ->
    forallb P run = true ->
    match rest with
    | [] => True
    | x :: _ => P x = false
    end ->
    runs_in P rest runs ->
    runs_in P l (run :: runs).

(** The base name that [create_json_file_name] derives from a title. *)
Definition base_name (w : world) (title : string) : string :=
  slice_characters 50
    (str_lower (unicodedata w)
       (join "_" (findall_word_characters (unicodedata w) title))).

(** The same for an ASCII title, with the functions on ASCII strings. *)
Definition ascii_base_name (title : string) : string :=
  slice_to 50 (lower (join "_" (findall_word title))).

(** ** Vocabulary: results, requests and pauses *)

(** A computation completes when it returns or raises; the other two
    results only mark the limits of the model. *)
Definition pythonic {A} (r : result A) : Prop :=
  match r with
  | Returned _ | Raised _ => True
  | IllTyped | OutOfFuel => False
  end.

Definition completes {A} (c : M A) : Prop := forall st, pythonic (fst (c st)).

(** Reading a trace from its start: [waited] says whether a sleep of
    [cooldown] seconds has been seen since the last request; a request that
    comes before such a sleep breaks the pause. *)
Fixpoint pauses (cooldown : Q) (waited : bool) (tr : list event)
  : option bool :=
  match tr with
  | [] => Some waited
  | EvGet _ :: tr' => if waited then pauses cooldown false tr' else None
  | EvSleep seconds :: tr' =>
      pauses cooldown (waited || Qeq_bool seconds cooldown) tr'
  | _ :: tr' => pauses cooldown waited tr'
  end.

(** Every request but the first comes after a sleep of [cooldown] seconds
    that follows the request before it. *)
Definition cooldown_respected (cooldown : Q) (tr : list event) : bool :=
  match pauses cooldown true tr with
  | Some _ => true
  | None => false
  end.

Definition on_the_wire (e : event) : bool :=
  match e with
  | EvGet _ | EvSleep _ => true
  | _ => false
  end.

(** The trace respects the pause of [self] and ends after a sleep. *)
Definition paused (self : scrapper) (st : state) : Prop :=
  pauses (_time_between_api_call self) true (trace st) = Some true.

Definition pause_kept (self : scrapper) (st : state) : Prop :=
  cooldown_respected (_time_between_api_call self) (trace st) = true.

(** The number of requests for [paper_id] in a trace. *)
Fixpoint fetch_count (paper_id : string) (tr : list event) : nat :=
  match tr with
  | [] => 0
  | EvGet url :: tr' =>
      (if url =? json_url_of paper_id then 1 else 0) + fetch_count paper_id tr'
  | _ :: tr' => fetch_count paper_id tr'
  end.

Definition occurrences (x : string) (q : list string) : nat :=
  count_occ string_dec q x.

(** The fetcher raises [e] for [id]. *)
Definition fetch_fails (w : world) (id : string) (e : exn) : Prop :=
  match requests_get w (json_url_of id) with
  | NoResponse => e = RequestException
  | Response None => e = JSONDecodeError
  | Response (Some _) => False
  end.

(** ** Vocabulary: one turn of the [for] loop *)

(** Lines 93-97, once the record is stored. *)
Definition persist_and_enqueue (w : world) (out_dir_name : option string)
    (related_paper_id : string) (related_paper_dict : paper) : M unit :=
  match out_dir_name with
  | Some d => save_json w related_paper_dict d
  | None => ret tt
  end ;;;
  visited <- read (fun st => mem related_paper_id (paper_visited_set st)) ;;
  if negb visited then
    update (fun st =>
      set_paper_id_queue (paper_id_queue st ++ [related_paper_id]) st)
  else ret tt.

Definition stored (related_paper_id : string) (related_paper_dict : paper)
    (st : state) : state :=
  set_papers_dict
    (Dict.set (papers_dict st) related_paper_id related_paper_dict) st.

Definition enqueue_unvisited (id : string) (st : state) : state :=
  if mem id (paper_visited_set st) then st
  else set_paper_id_queue (paper_id_queue st ++ [id]) st.

Definition written (file_name : string) (p : paper) (st : state) : state :=
  log (EvWrite file_name) (set_files (Dict.set (files st) file_name p) st).

Definition requested (self : scrapper) (id : string) (answered : bool)
    (st : state) : state :=
  if answered then
    log (EvSleep (_time_between_api_call self))
      (log (EvGet (json_url_of id)) st)
  else log (EvGet (json_url_of id)) st.

Inductive turn (self : scrapper) (w : world) (id : string) (st : state)
  : result unit -> state -> Prop :=
| turn_known :
    Dict.mem id (papers_dict st) = true ->
    turn self w id st (Returned tt) st
| turn_no_response :
    Dict.mem id (papers_dict st) = false ->
    requests_get w (json_url_of id) = NoResponse ->
    turn self w id st (Raised RequestException) (requested self id false st)
| turn_undecodable :
    Dict.mem id (papers_dict st) = false ->
    requests_get w (json_url_of id) = Response None ->
    turn self w id st (Raised JSONDecodeError) (requested self id true st)
| turn_stored : forall p,
    Dict.mem id (papers_dict st) = false ->
    requests_get w (json_url_of id) = Response (Some p) ->
    turn self w id st (Returned tt)
      (enqueue_unvisited id (stored id p (requested self id true st)))
| turn_saved : forall p file_name,
    Dict.mem id (papers_dict st) = false ->
    requests_get w (json_url_of id) = Response (Some p) ->
    turn self w id st (Returned tt)
      (enqueue_unvisited id
         (written file_name p (stored id p (requested self id true st))))
| turn_not_saved : forall p e,
    Dict.mem id (papers_dict st) = false ->
    requests_get w (json_url_of id) = Response (Some p) ->
    turn self w id st (Raised e) (stored id p (requested self id true st)).

(** The store once [get_related_papers] has set up its queue and its set. *)
Definition seeded (st : state) : state :=
  set_paper_visited_set [] (set_paper_id_queue (Dict.keys (papers_dict st)) st).

(** ** Vocabulary: triples for computations that may raise *)

(** How a computation ends when it does not return. *)
Inductive abnormal :=
| AbRaised (e : exn)
| AbIllTyped
| AbOutOfFuel.

Definition after {A} (Q : A -> state -> Prop) (E : abnormal -> state -> Prop)
    (r : result A * state) : Prop :=
  match r with
  | (Returned a, st) => Q a st
  | (Raised e, st) => E (AbRaised e) st
  | (IllTyped, st) => E AbIllTyped st
  | (OutOfFuel, st) => E AbOutOfFuel st
  end.

(** From a store that satisfies [P], [c] returns in a store that satisfies
    [Q], or ends otherwise in a store that satisfies [E]. *)
Definition triple {A} (P : state -> Prop) (c : M A) (Q : A -> state -> Prop)
    (E : abnormal -> state -> Prop) : Prop :=
  forall st, P st -> after Q E (c st).

(** ** Vocabulary: invariants of the traversal *)

(** Every record of [d] is a record of the store. *)
Definition keeps (d : dict paper) (st : state) : Prop :=
  forall k v, Dict.get d k = Some v -> Dict.get (papers_dict st) k = Some v.

(** Between [st0] and [st] nothing was done for the identifier [""]: no
    request, no assignment in [papers_dict], no new entry in the queue, and
    every file written holds a record fetched under another identifier. *)
Definition untouched_by_empty (w : world) (st0 st : state) : Prop :=
  fetch_count "" (trace st) = fetch_count "" (trace st0) /\
  Dict.get (papers_dict st) "" = Dict.get (papers_dict st0) "" /\
  occurrences "" (paper_id_queue st) <= occurrences "" (paper_id_queue st0) /\
  forall file_name p,
    Dict.get (files st) file_name = Some p ->
    Dict.get (files st0) file_name = Some p \/
    exists id, id <> "" /\ requests_get w (json_url_of id) = Response (Some p).

(** Since the store held [d0] and [n0] requests for [id] had been made:
    [id] was not requested again, or it was requested once, was not in [d0]
    and is now stored; and what [d0] held is still held. *)
Definition gate (id : string) (n0 : nat) (d0 : dict paper) (st : state)
  : Prop :=
  (Dict.mem id d0 = true -> Dict.mem id (papers_dict st) = true) /\
  (fetch_count id (trace st) = n0 \/
   (fetch_count id (trace st) = S n0 /\ Dict.mem id d0 = false /\
    Dict.mem id (papers_dict st) = true)).

(** What is left of it when the computation raises. *)
Definition gate_raised (id : string) (n0 : nat) (d0 : dict paper) (st : state)
  : Prop :=
  fetch_count id (trace st) <= S n0 /\
  (Dict.mem id d0 = true -> fetch_count id (trace st) = n0).

(** No request for [id] since [n0] had been made. *)
Definition not_requested (id : string) (n0 : nat) (st : state) : Prop :=
  fetch_count id (trace st) = n0.

(** The computation ended abnormally: without a request for [id], or by
    the exception [e] of that request, made once and with nothing stored. *)
Definition aborted (id : string) (e : exn) (n0 : nat) (ab : abnormal)
    (st : state) : Prop :=
  fetch_count id (trace st) = n0 \/
  (ab = AbRaised e /\ fetch_count id (trace st) = S n0 /\
   Dict.mem id (papers_dict st) = false).

(** ** Vocabulary: the citation graph *)

(** The record of an identifier: the seed record, or else the record that
    the repository serves. *)
Definition record_of (seeds : dict paper) (w : world) (id : string)
  : option paper :=
  match Dict.get seeds id with
  | Some p => Some p
  | None =>
      match requests_get w (json_url_of id) with
      | Response (Some p) => Some p
      | _ => None
      end
  end.

Definition related_ids (related : option (list stub)) : list string :=
  match related with
  | Some l => related_papers_id_list l
  | None => []
  end.

(** The identifiers at the end of the references and citations edges of
    [id], the stubs with an empty identifier left out. *)
Definition neighbours (seeds : dict paper) (w : world) (id : string)
  : list string :=
  match record_of seeds w id with
  | Some p => related_ids (references p) ++ related_ids (citations p)
  | None => []
  end.

Inductive reachable (seeds : dict paper) (w : world) : string -> Prop :=
| reachable_seed : forall id, In id (Dict.keys seeds) -> reachable seeds w id
| reachable_edge : forall id id',
    reachable seeds w id -> In id' (neighbours seeds w id) ->
    reachable seeds w id'.

(** The store and the graph agree: records are those of the graph, the
    seeds are stored, what is stored is visited or waits in the queue, and
    what is visited or waits is reachable and stored. *)
Definition sound (w : world) (seeds : dict paper) (st : state) : Prop :=
  (forall k p, Dict.get (papers_dict st) k = Some p ->
               record_of seeds w k = Some p) /\
  (forall k, In k (Dict.keys seeds) -> Dict.mem k (papers_dict st) = true) /\
  (forall k, Dict.mem k (papers_dict st) = true ->
             In k (paper_visited_set st) \/ In k (paper_id_queue st)) /\
  (forall k, In k (paper_visited_set st) \/ In k (paper_id_queue st) ->
             reachable seeds w k /\ Dict.mem k (papers_dict st) = true).

(** All neighbours of [v] are stored. *)
Definition expanded (w : world) (seeds : dict paper) (v : string) (st : state)
  : Prop :=
  forall y, In y (neighbours seeds w v) -> Dict.mem y (papers_dict st) = true.

Definition closed_except (w : world) (seeds : dict paper) (x : option string)
    (st : state) : Prop :=
  forall v, In v (paper_visited_set st) -> Some v <> x -> expanded w seeds v st.

(** In the turn of [x], the neighbours [done] dealt with. *)
Definition expanding (w : world) (seeds : dict paper) (x : string)
    (done : list string) (st : state) : Prop :=
  sound w seeds st /\ closed_except w seeds (Some x) st /\
  In x (paper_visited_set st) /\
  (forall y, In y done -> Dict.mem y (papers_dict st) = true).

Definition at_loop_head (w : world) (seeds : dict paper) (st : state) : Prop :=
  sound w seeds st /\ closed_except w seeds None st.

(** * More of the program: the entry point, and the vocabulary of the
    further properties *)

(** ** Vocabulary: the characters of a base name *)

(** A lowercase letter, a digit or the underscore. *)
Definition is_slug_char (c : ascii) : bool :=
  is_lower c || is_digit c || Ascii.eqb c "_"%char.

(** [save_json(p1, d)] followed by [save_json(p2, d)]. *)
Definition save_both (w : world) (p1 p2 : paper) (out_dir_name : string)
  : M unit :=
  save_json w p1 out_dir_name ;;; save_json w p2 out_dir_name.

(** The name of the file of a title in a directory. *)
Definition file_name_of (w : world) (out_dir_name t : string) : string :=
  (os_path_join out_dir_name (base_name w t) ++ ".json")%string.

(** A record with a title and nothing else. *)
Definition titled (t : string) : paper :=
  {| paperId := None; title := Some t; references := None; citations := None;
     abstract := None; topics := None; bibtex_citation := None |}.

(** Two letters beyond ASCII, as UTF-8, an interpreter that knows them, and
    a title that has them. *)
Definition E_acute : string :=
  String (ascii_of_nat 195) (String (ascii_of_nat 137) EmptyString).

Definition e_acute : string :=
  String (ascii_of_nat 195) (String (ascii_of_nat 169) EmptyString).

Definition accents : unicode_data :=
  {| unicode_isalnum := fun character =>
       (character =? E_acute) || (character =? e_acute);
     unicode_lower := fun s =>
       flatten
         (map (fun character =>
                 if character =? E_acute then e_acute else lower character)
              (characters s)) |}.

Definition french : world :=
  {| requests_get := fun _ => NoResponse; can_open := fun _ => true;
     browser := Fixtures.quiet_browser; levenshtein := fun _ _ => 0%Z;
     unicodedata := accents |}.

Definition cafe_ecole : string :=
  ("Caf" ++ e_acute ++ " & " ++ E_acute ++ "cole")%string.

(** ** Vocabulary: calls of [_retrieve_related_papers] *)

(** The arguments that the signature of [_retrieve_related_papers]
    documents. *)
Definition documented (paper_id relationship_type : string)
    (out_dir_name : option string) : list pyobj :=
  [PyDict; PyStr paper_id; PyStr relationship_type; PySet; PyDeque;
   pyobj_of_dir out_dir_name].

(** [paper_dict[relationship_type]] as it stands in a record. *)
Definition relationship_field (relationship_type : string) (p : paper)
  : option (list stub) :=
  if relationship_type =? "references" then references p
  else if relationship_type =? "citations" then citations p
  else None.

(** The key whose absence makes [papers_dict[paper_id][relationship_type]]
    raise, if there is one. *)
Definition missing_key (st : state) (paper_id relationship_type : string)
  : option string :=
  match Dict.get (papers_dict st) paper_id with
  | None => Some paper_id
  | Some p =>
      if relationship_type =? "references" then
        match references p with
        | None => Some "references"
        | Some _ => None
        end
      else if relationship_type =? "citations" then
        match citations p with
        | None => Some "citations"
        | Some _ => None
        end
      else None
  end.

(** The number of files written in a trace. *)
Fixpoint write_count (tr : list event) : nat :=
  match tr with
  | [] => 0
  | EvWrite _ :: tr' => S (write_count tr')
  | _ :: tr' => write_count tr'
  end.

(** The number of requests made in a trace. *)
Fixpoint request_count (tr : list event) : nat :=
  match tr with
  | [] => 0
  | EvGet _ :: tr' => S (request_count tr')
  | _ :: tr' => request_count tr'
  end.

(** Between [st0] and [st] the queue only grew at its right end, by
    identifiers that were neither stored nor marked in [st0], each once, and
    that are stored now; the visited set is the same. *)
Definition enqueued_since (st0 st : state) : Prop :=
  paper_visited_set st = paper_visited_set st0 /\
  (forall k, Dict.mem k (papers_dict st0) = true ->
             Dict.mem k (papers_dict st) = true) /\
  exists new,
    paper_id_queue st = paper_id_queue st0 ++ new /\
    NoDup new /\
    forall x, In x new ->
      Dict.mem x (papers_dict st0) = false /\
      Dict.mem x (papers_dict st) = true /\
      mem x (paper_visited_set st0) = false.

(** The identifiers of [done] are stored. *)
Definition known (done : list string) (st : state) : Prop :=
  forall y, In y done -> Dict.mem y (papers_dict st) = true.

(** ** Vocabulary: the seed resolver *)

Definition no_slash (s : string) : bool :=
  all_chars (fun c => negb (Ascii.eqb c "/"%char)) s.

(** The [h1] elements that [_check_paper_page] looks at. *)
Definition paper_detail_titles (w : world) (paper_title : string)
  : list h1_element :=
  filter (fun h1 => h1_selector h1 =? "paper-detail-title")
         (h1_list (browser w) paper_title).

(** The paper is empty or it is a record that the repository serves, with
    the three fields of the page set. *)
Definition resolved (w : world) (p : paper) : Prop :=
  p = empty_paper \/
  exists id fetched abstract_text topic_dict bibtex,
    requests_get w (json_url_of id) = Response (Some fetched) /\
    p = with_page_fields fetched abstract_text topic_dict bibtex.

(** A computation leaves the component [f] of the store as it is. *)
Definition preserves {A X : Type} (f : state -> X) (c : M A) : Prop :=
  forall st, f (snd (c st)) = f st.

(** A computation makes at most [n] requests. *)
Definition requests_at_most {A : Type} (n : nat) (c : M A) : Prop :=
  forall st,
    request_count (trace (snd (c st))) <= request_count (trace st) + n.

(** The number of times the browser was closed in a trace. *)
Fixpoint close_count (tr : list event) : nat :=
  match tr with
  | [] => 0
  | EvBrowser what :: tr' =>
      (if what =? "close" then 1 else 0) + close_count tr'
  | _ :: tr' => close_count tr'
  end.

(** Every record of the dictionary is stored under its own [paperId] and is
    a fetched record with the fields of its page. *)
Definition keyed_by_paper_id (w : world) (d : dict paper) : Prop :=
  forall k p,
    Dict.get d k = Some p ->
    paperId p = Some k /\
    exists id fetched abstract_text topic_dict bibtex,
      requests_get w (json_url_of id) = Response (Some fetched) /\
      p = with_page_fields fetched abstract_text topic_dict bibtex.


(** The event of starting or closing the browser, when the method does it
    itself. *)
Definition browser_event (call_browser : bool) (what : string) : list event :=
  if call_browser then [EvBrowser what] else [].


(** ** The entry point: [main]

    [rfind] and the slices count bytes; the dot and the slash are single
    bytes that occur in no other character, so [splitext] is that of Python
    on any name.  [strip] removes the white space of ASCII. *)

(** [s.rfind(c)]: the index of the last occurrence of [c], -1 when there
    is none; [i] is the index of the head of [s]. *)
Fixpoint rfind_from (c : ascii) (s : string) (i : Z) (found : Z) : Z :=
  match s with
  | EmptyString => found
  | String c' s' =>
      rfind_from c s' (i + 1)%Z (if Ascii.eqb c' c then i else found)
  end.

Definition rfind (c : ascii) (s : string) : Z := rfind_from c s 0%Z (-1)%Z.

(** [s[i:j]] for [0 <= i] *)
Definition slice (s : string) (i j : Z) : string :=
  substring (Z.to_nat i) (Z.to_nat (j - i)) s.

(** [os.path.splitext]: the extension starts at the last dot of the last
    component, unless that component has only dots before it. *)
Definition splitext (p : string) : string * string :=
  let sepIndex := rfind "/" p in
  let dotIndex := rfind "." p in
  if (dotIndex >? sepIndex)%Z then
    (* skip all leading dots *)
    if all_chars (fun c => Ascii.eqb c ".") (slice p (sepIndex + 1) dotIndex)
    then (p, "")
    else (slice p 0 dotIndex, slice p dotIndex (Z.of_nat (String.length p)))
  else (p, "").

(** The ASCII characters that [str.isspace] accepts; [strip] below removes
    these, not the white space beyond ASCII. *)
Definition is_space (c : ascii) : bool :=
  let n := nat_of_ascii c in
  ((9 <=? n) && (n <=? 13) || (28 <=? n) && (n <=? 32))%nat.

Fixpoint lstrip (s : string) : string :=
  match s with
  | EmptyString => EmptyString
  | String c s' => if is_space c then lstrip s' else s
  end.

Fixpoint rstrip (s : string) : string :=
  match s with
  | EmptyString => EmptyString
  | String c s' =>
      match rstrip s' with
      | EmptyString => if is_space c then EmptyString else String c EmptyString
      | kept => String c kept
      end
  end.

(** [s.strip()] *)
Definition strip (s : string) : string := rstrip (lstrip s).

(** What [os.mkdir] does. *)
Inductive mkdir_outcome :=
| Created
| FileExists               (* raises [FileExistsError] *)
| MkdirRaises (e : exn).   (* raises another exception *)

(** The directories that [main] reads and creates. *)
Record disk := {
  listdir : string -> exn + list string;
  mkdir   : string -> mkdir_outcome
}.

Definition jsons_output_path : string :=
  "/home/daniel/PycharmProjects/SemanticScholar/output2".

Definition papers_dir : string :=
  "/home/daniel/Documents/LNCC/Doutorado/dissertation-paper-project/reference-papers/Evaluation".

Definition os_listdir (d : disk) (path : string) : M (list string) :=
  match listdir d path with
  | inr names => ret names
  | inl e => raise e
  end.

(** [try: os.mkdir(path) / except FileExistsError: pass] *)
Definition try_mkdir (d : disk) (path : string) : M unit :=
  match mkdir d path with
  | Created => ret tt
  | FileExists => ret tt
  | MkdirRaises e => raise e
  end.

(** The [for] loop of [main]; [papers_dict[paper_id]] is read twice, each
    time with the same result, so the second reading is placed before the
    opening of the file that [dump] models together with the writing. *)
Fixpoint for_paper_id (w : world) (papers : dict paper)
    (output_path : string) (paper_ids : list string) : M unit :=
  match paper_ids with
  | [] => ret tt
  | paper_id :: rest =>
      try_except_pass
        (paper_dict <- subscript (Dict.get papers paper_id) paper_id ;;
         output_file_name <- create_json_file_name w paper_dict output_path ;;
         paper_dict <- subscript (Dict.get papers paper_id) paper_id ;;
         dump w paper_dict output_file_name)
        catches_KeyError ;;;
      for_paper_id w papers output_path rest
  end.

(** [main]; the scrapper is [SemanticScholarScrapper(headless=True)]. *)
Definition main (w : world) (d : disk) : M unit :=
  let ss_scrapper := default_scrapper in
  names <- os_listdir d papers_dir ;;
  let paper_list :=
    map (fun paper_fn => strip (fst (splitext paper_fn))) names in
  papers <- scrap_paper_list_by_title ss_scrapper w paper_list ;;
  try_mkdir d jsons_output_path ;;;
  for_paper_id w papers jsons_output_path (Dict.keys papers).

(** ** Vocabulary: the entry point *)

(** The names of the files written in a trace, in order. *)
Fixpoint written_names (tr : list event) : list string :=
  match tr with
  | [] => []
  | EvWrite file_name :: tr' => file_name :: written_names tr'
  | _ :: tr' => written_names tr'
  end.

(** The name of a file in the output directory of [main]. *)
Definition output_file (base : string) : string :=
  (jsons_output_path ++ "/" ++ base ++ ".json")%string.

(** The titles of the records that the repository serves are ASCII. *)
Definition ascii_titles (w : world) : Prop :=
  forall url p t,
    requests_get w url = Response (Some p) ->
    title p = Some t ->
    is_ascii t = true.

(** The number of entries that [main] finds in the directory of papers. *)
Definition listed (d : disk) : nat :=
  match listdir d papers_dir with
  | inr names => length names
  | inl _ => 0
  end.

(** A directory of two papers; the output directory exists. *)
Definition shelf : disk :=
  {| listdir := fun _ => inr ["First.pdf"; " Second .pdf"];
     mkdir := fun _ => FileExists |}.

(** * Properties *)

(** ** The call of [_retrieve_related_papers] in [get_related_papers] *)

(** Four positional arguments leave the fifth required parameter unbound,
    whatever the arguments are. *)
Lemma bind_four_arguments (a1 a2 a3 a4 : pyobj) :
  bind_args "_retrieve_related_papers" _retrieve_related_papers_params
            [a1; a2; a3; a4] = inl missing_queue.
Proof. reflexivity. Qed.

Lemma retrieve_four_arguments self w (a1 a2 a3 a4 : pyobj) (st : state) :
  _retrieve_related_papers self w [a1; a2; a3; a4] st = (Raised missing_queue, st).
Proof. reflexivity. Qed.

(** A turn of the loop that finds its node unvisited marks it and raises. *)
Lemma while_body_raises self w out_dir_name current st :
  mem current (paper_visited_set st) = false ->
  while_body self w out_dir_name current st =
    (Raised missing_queue,
     set_paper_visited_set (paper_visited_set st ++ [current])
       (set_paper_id_queue (tl (paper_id_queue st)) st)).
Proof.
  intros Hfresh. unfold while_body, bind, update, read. cbn -[mem].
  rewrite Hfresh. reflexivity.
Qed.

(** What [get_related_papers] does, on every input. *)
Lemma get_related_papers_run self w out_dir_name fuel st :
  get_related_papers self w out_dir_name (S fuel) st =
    match Dict.keys (papers_dict st) with
    | [] => (Returned tt, set_paper_visited_set [] (set_paper_id_queue [] st))
    | first_id :: others =>
        (Raised missing_queue,
         set_paper_visited_set [first_id] (set_paper_id_queue others st))
    end.
Proof.
  unfold get_related_papers, bind, update. cbn -[Dict.keys while_body].
  destruct (Dict.keys (papers_dict st)) as [|first_id others] eqn:Hkeys.
  - reflexivity.
  - unfold bind. rewrite while_body_raises by reflexivity. reflexivity.
Qed.

(** C3. Whenever [papers_dict] holds at least one identifier,
    [get_related_papers] fails with a [TypeError]: its call of
    [_retrieve_related_papers] passes four positional arguments, which leaves
    the required parameter [paper_id_queue] unbound.  The exception is raised
    in the first turn of the loop, when only the first identifier has been
    taken from the queue and marked: nothing was fetched or written (the
    trace and the files are untouched), nothing was stored in [papers_dict]
    and nothing was appended to the queue. *)
Theorem get_related_papers_type_error :
  forall self w out_dir_name fuel st,
    papers_dict st <> [] ->
    (forall current relationship_type,
        bind_args "_retrieve_related_papers" _retrieve_related_papers_params
          [PyDict; PyStr current; PyStr relationship_type;
           pyobj_of_dir out_dir_name] = inl missing_queue) /\
    exists st',
      get_related_papers self w out_dir_name (S fuel) st =
        (Raised missing_queue, st') /\
      trace st' = trace st /\
      files st' = files st /\
      papers_dict st' = papers_dict st /\
      paper_id_queue st' = tl (Dict.keys (papers_dict st)) /\
      paper_visited_set st' = firstn 1 (Dict.keys (papers_dict st)).
Proof.
  intros self w out_dir_name fuel st Hseeds. split.
  - intros. apply bind_four_arguments.
  - rewrite get_related_papers_run.
    destruct (papers_dict st) as [|[first_id p] others] eqn:Hdict.
    + congruence.
    + cbn. eexists. split; [reflexivity|]. cbn. rewrite Hdict. auto.
Qed.

(** C3 at an input: the seed of the diamond. *)
Lemma get_related_papers_type_error_witness :
  Fixtures.diamond_seeds <> [] /\
  exists st',
    get_related_papers default_scrapper Fixtures.diamond (Some "out") 1
      (initial Fixtures.diamond_seeds []) = (Raised missing_queue, st') /\
    trace st' = [] /\ files st' = [] /\
    papers_dict st' = Fixtures.diamond_seeds /\
    paper_id_queue st' = [] /\ paper_visited_set st' = ["A"].
Proof.
  assert (H : Fixtures.diamond_seeds <> []) by discriminate.
  split; [exact H|].
  exact (proj2 (get_related_papers_type_error default_scrapper Fixtures.diamond
                  (Some "out") 0 (initial Fixtures.diamond_seeds []) H)).
Defined.

(** ** File names *)

Lemma append_assoc (s t u : string) :
  ((s ++ t) ++ u)%string = (s ++ t ++ u)%string.
Proof. induction s as [|c s IH]; cbn; [reflexivity|]. rewrite IH. reflexivity. Qed.

Lemma append_empty (s : string) : (s ++ "")%string = s.
Proof. induction s as [|c s IH]; cbn; [reflexivity|]. rewrite IH. reflexivity. Qed.

Lemma length_append (s t : string) :
  String.length (s ++ t) = (String.length s + String.length t)%nat.
Proof. induction s as [|c s IH]; cbn; [reflexivity|]. rewrite IH. reflexivity. Qed.

Lemma rev_string_append (run : list ascii) (acc : string) :
  rev_string run acc = (rev_string run "" ++ acc)%string.
Proof.
  revert acc. induction run as [|c run IH]; intros acc; cbn.
  - reflexivity.
  - rewrite (IH (String c acc)), (IH (String c "")).
    rewrite append_assoc. reflexivity.
Qed.

Lemma rev_string_not_empty (run : list ascii) :
  run <> [] -> rev_string run "" <> EmptyString.
Proof.
  destruct run as [|c run]; [congruence|]. intros _. cbn.
  rewrite rev_string_append.
  destruct (rev_string run ""); cbn; discriminate.
Qed.

Lemma all_chars_append (P : ascii -> bool) (s t : string) :
  all_chars P (s ++ t) = all_chars P s && all_chars P t.
Proof.
  induction s as [|c s IH]; cbn; [reflexivity|].
  rewrite IH. apply andb_assoc.
Qed.

Lemma all_chars_rev_string (P : ascii -> bool) (run : list ascii) :
  forallb P run = true -> all_chars P (rev_string run "") = true.
Proof.
  induction run as [|c run IH]; cbn; [reflexivity|].
  intros H. apply andb_true_iff in H as [Hc Hrun].
  rewrite rev_string_append, all_chars_append, IH by assumption.
  cbn. rewrite Hc. reflexivity.
Qed.

Lemma word_runs_gap (c : ascii) (s : string) (runs : list string) :
  is_word_char c = false -> word_runs s runs -> word_runs (String c s) runs.
Proof.
  intros Hc H. destruct H as [gap Hgap | s gap run rest runs Heq Hgap Hne Hrun Hend Hrest].
  - apply runs_none. cbn. unfold non_word_char at 1. rewrite Hc. exact Hgap.
  - apply runs_cons with (gap := String c gap) (rest := rest); auto.
    + rewrite Heq. reflexivity.
    + cbn. unfold non_word_char at 1. rewrite Hc. exact Hgap.
Qed.

(** The scan finds the runs: with no match in progress, and with the match
    [run] in progress in front of the string. *)
Lemma findall_scan_runs (s : string) :
  word_runs s (findall_scan s []) /\
  forall run, run <> [] -> forallb is_word_char run = true ->
    word_runs (rev_string run "" ++ s) (findall_scan s run).
Proof.
  induction s as [|c s [IHgap IHrun]].
  - split.
    + apply runs_none. reflexivity.
    + intros run Hne Hword. destruct run as [|c run]; [congruence|].
      cbn [findall_scan].
      apply runs_cons with (gap := "") (rest := "").
      * cbn [String.append]. rewrite append_empty. reflexivity.
      * reflexivity.
      * apply rev_string_not_empty. discriminate.
      * apply all_chars_rev_string. exact Hword.
      * exact I.
      * apply runs_none. reflexivity.
  - split.
    + cbn [findall_scan]. destruct (is_word_char c) eqn:Hc.
      * apply (IHrun [c]); [discriminate|]. cbn. rewrite Hc. reflexivity.
      * apply word_runs_gap; assumption.
    + intros run Hne Hword. cbn [findall_scan].
      destruct (is_word_char c) eqn:Hc.
      * replace (rev_string run "" ++ String c s)%string
          with (rev_string (c :: run) "" ++ s)%string.
        -- apply IHrun; [discriminate|]. cbn. rewrite Hc. exact Hword.
        -- cbn. rewrite (rev_string_append run (String c "")).
           rewrite append_assoc. reflexivity.
      * destruct run as [|c' run]; [congruence|].
        apply runs_cons with (gap := "") (rest := String c s).
        -- reflexivity.
        -- reflexivity.
        -- apply rev_string_not_empty. discriminate.
        -- apply all_chars_rev_string. exact Hword.
        -- exact Hc.
        -- apply word_runs_gap; assumption.
Qed.

Lemma findall_word_runs (s : string) : word_runs s (findall_word s).
Proof. apply findall_scan_runs. Qed.

Lemma findall_scan_in_gap (gap s : string) :
  all_chars non_word_char gap = true ->
  findall_scan (gap ++ s) [] = findall_scan s [].
Proof.
  induction gap as [|c gap IH]; cbn; [reflexivity|].
  unfold non_word_char at 1. intros H. apply andb_true_iff in H as [Hc Hgap].
  apply negb_true_iff in Hc. rewrite Hc. auto.
Qed.

Lemma findall_scan_in_run (run rest : string) (acc : list ascii) :
  all_chars is_word_char run = true ->
  run_ends rest ->
  (acc <> [] \/ run <> EmptyString) ->
  findall_scan (run ++ rest) acc =
    (rev_string acc "" ++ run)%string :: findall_scan rest [].
Proof.
  revert acc. induction run as [|c run IH]; intros acc Hword Hend Hne.
  - cbn [String.append]. destruct Hne as [Hne|Hne]; [|congruence].
    destruct acc as [|a acc]; [congruence|].
    rewrite append_empty.
    destruct rest as [|c rest]; cbn [findall_scan]; [reflexivity|].
    cbn in Hend. rewrite Hend. reflexivity.
  - cbn in Hword. apply andb_true_iff in Hword as [Hc Hword].
    cbn [String.append findall_scan]. rewrite Hc.
    rewrite IH; auto; [|left; discriminate].
    f_equal. cbn. rewrite (rev_string_append acc (String c "")).
    rewrite append_assoc. reflexivity.
Qed.

(** The runs are unique: the relation of the specification and the scan of
    [re.findall] define the same list. *)
Lemma word_runs_findall (s : string) (runs : list string) :
  word_runs s runs -> runs = findall_word s.
Proof.
  unfold findall_word. induction 1 as [gap Hgap | s gap run rest runs Heq Hgap Hne Hrun Hend Hrest IH].
  - pose proof (findall_scan_in_gap gap "" Hgap) as Hscan.
    rewrite append_empty in Hscan. rewrite Hscan. reflexivity.
  - rewrite Heq, findall_scan_in_gap by assumption.
    rewrite findall_scan_in_run by auto. cbn. rewrite IH. reflexivity.
Qed.

Lemma slice_to_length (n : nat) (s : string) :
  (String.length (slice_to n s) <= n)%nat.
Proof.
  revert s. induction n as [|n IH]; intros [|c s]; cbn; try lia.
  specialize (IH s). lia.
Qed.

Lemma lower_char_not_slash (c : ascii) :
  is_word_char c = true -> lower_char c <> "/"%char.
Proof.
  destruct c as [[] [] [] [] [] [] [] []]; vm_compute; congruence.
Qed.

Lemma word_runs_Forall (s : string) (runs : list string) :
  word_runs s runs ->
  Forall (fun run => run <> EmptyString /\ all_chars is_word_char run = true) runs.
Proof. induction 1; constructor; auto. Qed.

(** A base name does not begin with a slash: it is empty or begins with a
    lowercased word character. *)
Lemma ascii_base_name_relative (t rest : string) :
  ascii_base_name t <> String "/" rest.
Proof.
  unfold ascii_base_name.
  pose proof (word_runs_Forall _ _ (findall_word_runs t)) as Hruns.
  destruct (findall_word t) as [|run runs]; [discriminate|].
  inversion Hruns as [|? ? [Hne Hword] _]; subst.
  destruct run as [|c run]; [congruence|].
  cbn in Hword. apply andb_true_iff in Hword as [Hc _].
  assert (Hjoin : exists tail, join "_" (String c run :: runs) = String c tail).
  { destruct runs; cbn; eauto. }
  destruct Hjoin as [tail ->]. cbn. intros H. injection H as H _.
  apply (lower_char_not_slash c Hc). exact H.
Qed.

Lemma os_path_join_relative (a b : string) :
  (forall rest, b <> String "/" rest) ->
  os_path_join a b =
    if (a =? "") || endswith_slash a then (a ++ b)%string
    else (a ++ "/" ++ b)%string.
Proof.
  intros Hb. unfold os_path_join.
  assert (Hjoin : match a with
                  | EmptyString => b
                  | String _ _ =>
                      if endswith_slash a then (a ++ b)%string
                      else (a ++ "/" ++ b)%string
                  end =
                  if (a =? "") || endswith_slash a then (a ++ b)%string
                  else (a ++ "/" ++ b)%string).
  { destruct a; reflexivity. }
  destruct b as [|c rest]; [exact Hjoin|].
  destruct c as [[] [] [] [] [] [] [] []]; try exact Hjoin.
  exfalso. apply (Hb rest). reflexivity.
Qed.

(** *** Titles with any character *)

Lemma flatten_characters (s : string) : flatten (characters s) = s.
Proof.
  induction s as [|c s IH]; cbn [characters]; [reflexivity|].
  destruct (starts_with_continuation s).
  - destruct (characters s) as [|character rest]; cbn [flatten] in *;
      rewrite <- IH; reflexivity.
  - cbn [flatten]. rewrite IH. reflexivity.
Qed.

Lemma runs_in_gap {A} (P : A -> bool) (x : A) (l : list A)
    (runs : list (list A)) :
  P x = false -> runs_in P l runs -> runs_in P (x :: l) runs.
Proof.
  intros Hx H.
  destruct H as [gap Hgap | l gap run rest runs Heq Hgap Hne Hrun Hend Hrest].
  - apply runs_in_none. cbn. rewrite Hx. exact Hgap.
  - apply runs_in_cons with (gap := x :: gap) (rest := rest); auto.
    + rewrite Heq. reflexivity.
    + cbn. rewrite Hx. exact Hgap.
Qed.

(** The scan finds the runs: with no match in progress, and with the match
    [run] in progress in front of the list. *)
Lemma scan_runs_in {A} (P : A -> bool) (l : list A) :
  runs_in P l (scan_runs P l []) /\
  forall run, run <> [] -> forallb P run = true ->
    runs_in P (run ++ l) (scan_runs P l run).
Proof.
  induction l as [|x l [IHgap IHrun]].
  - split.
    + apply runs_in_none. reflexivity.
    + intros run Hne Hword. destruct run as [|y run]; [congruence|].
      cbn [scan_runs].
      apply runs_in_cons with (gap := []) (rest := []); auto;
        apply runs_in_none; reflexivity.
  - split.
    + cbn [scan_runs]. destruct (P x) eqn:Hx.
      * apply (IHrun [x]); [discriminate|]. cbn. rewrite Hx. reflexivity.
      * apply runs_in_gap; assumption.
    + intros run Hne Hword. cbn [scan_runs]. destruct (P x) eqn:Hx.
      * replace (run ++ x :: l) with ((run ++ [x]) ++ l)
          by (rewrite <- app_assoc; reflexivity).
        apply IHrun.
        -- destruct run; discriminate.
        -- rewrite forallb_app, Hword. cbn. rewrite Hx. reflexivity.
      * destruct run as [|y run]; [congruence|].
        apply runs_in_cons with (gap := []) (rest := x :: l); auto.
        apply runs_in_gap; assumption.
Qed.

Lemma scan_runs_gap {A} (P : A -> bool) (gap l : list A) :
  forallb (fun x => negb (P x)) gap = true ->
  scan_runs P (gap ++ l) [] = scan_runs P l [].
Proof.
  induction gap as [|x gap IH]; cbn; [reflexivity|].
  intros H. apply andb_true_iff in H as [Hx Hgap].
  apply negb_true_iff in Hx. rewrite Hx. auto.
Qed.

Lemma scan_runs_run {A} (P : A -> bool) (run rest acc : list A) :
  forallb P run = true ->
  match rest with
  | [] => True
  | x :: _ => P x = false
  end ->
  (acc <> [] \/ run <> []) ->
  scan_runs P (run ++ rest) acc = (acc ++ run) :: scan_runs P rest [].
Proof.
  revert acc. induction run as [|x run IH]; intros acc Hword Hend Hne.
  - cbn [app]. destruct Hne as [Hne|Hne]; [|congruence].
    destruct acc as [|a acc]; [congruence|].
    rewrite app_nil_r.
    destruct rest as [|x rest]; cbn [scan_runs]; [reflexivity|].
    rewrite Hend. reflexivity.
  - cbn in Hword. apply andb_true_iff in Hword as [Hx Hword].
    cbn [app scan_runs]. rewrite Hx.
    rewrite IH; auto.
    + rewrite <- app_assoc. reflexivity.
    + left. destruct acc; discriminate.
Qed.

(** The runs are unique: the relation of the specification and the scan of
    [re.findall] define the same list. *)
Lemma runs_in_scan {A} (P : A -> bool) (l : list A) (runs : list (list A)) :
  runs_in P l runs -> runs = scan_runs P l [].
Proof.
  induction 1 as [gap Hgap | l gap run rest runs Heq Hgap Hne Hrun Hend Hrest IH].
  - pose proof (scan_runs_gap P gap [] Hgap) as Hscan.
    rewrite app_nil_r in Hscan. rewrite Hscan. reflexivity.
  - rewrite Heq, scan_runs_gap by assumption.
    rewrite scan_runs_run by auto. cbn. rewrite IH. reflexivity.
Qed.

(** On an ASCII string the characters are the bytes, and the functions on
    strings with any character are those on ASCII strings. *)

Lemma ascii_not_continuation (c : ascii) :
  is_ascii_char c = true -> is_continuation_byte c = false.
Proof.
  unfold is_ascii_char, is_continuation_byte. intros H.
  apply Nat.ltb_lt in H.
  replace (128 <=? nat_of_ascii c)%nat with false; [reflexivity|].
  symmetry. apply Nat.leb_gt. exact H.
Qed.

Lemma characters_ascii (s : string) :
  is_ascii s = true ->
  characters s = map (fun c => String c EmptyString) (list_ascii_of_string s).
Proof.
  induction s as [|c s IH]; cbn [is_ascii characters list_ascii_of_string map];
    [reflexivity|].
  intros H. apply andb_true_iff in H as [_ Hs].
  replace (starts_with_continuation s) with false.
  - rewrite (IH Hs). reflexivity.
  - destruct s as [|c' s]; [reflexivity|]. cbn in Hs |- *.
    apply andb_true_iff in Hs as [Hc' _].
    symmetry. apply ascii_not_continuation, Hc'.
Qed.

Lemma is_word_ascii (u : unicode_data) (c : ascii) :
  is_ascii_char c = true -> is_word u (String c EmptyString) = is_word_char c.
Proof. intros H. unfold is_word. rewrite H. reflexivity. Qed.

Lemma flatten_app (l1 l2 : list string) :
  flatten (l1 ++ l2) = (flatten l1 ++ flatten l2)%string.
Proof.
  induction l1 as [|x l1 IH]; cbn; [reflexivity|].
  rewrite IH, append_assoc. reflexivity.
Qed.

Lemma flatten_rev_string (run : list ascii) :
  flatten (map (fun c => String c EmptyString) (rev run)) = rev_string run "".
Proof.
  induction run as [|c run IH]; [reflexivity|].
  cbn [rev rev_string].
  rewrite map_app, flatten_app, IH, (rev_string_append run (String c "")).
  reflexivity.
Qed.

Lemma scan_runs_ascii (u : unicode_data) (s : string) :
  is_ascii s = true ->
  forall run,
    map flatten
      (scan_runs (is_word u)
         (map (fun c => String c EmptyString) (list_ascii_of_string s))
         (map (fun c => String c EmptyString) (rev run))) =
    findall_scan s run.
Proof.
  induction s as [|c s IH]; intros Hs run.
  - cbn [list_ascii_of_string map scan_runs findall_scan].
    destruct run as [|a run]; [reflexivity|].
    pose proof (flatten_rev_string (a :: run)) as Hflat.
    destruct (map (fun c => String c EmptyString) (rev (a :: run)))
      as [|x l] eqn:Hrun.
    + apply (f_equal (@length string)) in Hrun.
      rewrite length_map, length_rev in Hrun. discriminate.
    + cbn [map]. rewrite Hflat. reflexivity.
  - cbn [is_ascii] in Hs. apply andb_true_iff in Hs as [Hc Hs].
    cbn [list_ascii_of_string map scan_runs findall_scan].
    rewrite (is_word_ascii u c Hc).
    destruct (is_word_char c).
    + replace (map (fun c0 => String c0 EmptyString) (rev run) ++
               [String c EmptyString])
        with (map (fun c0 => String c0 EmptyString) (rev (c :: run)))
        by (cbn [rev]; rewrite map_app; reflexivity).
      apply IH, Hs.
    + destruct run as [|a run].
      * cbn [rev map]. apply (IH Hs []).
      * pose proof (flatten_rev_string (a :: run)) as Hflat.
        destruct (map (fun c0 => String c0 EmptyString) (rev (a :: run)))
          as [|x l] eqn:Hrun.
        -- apply (f_equal (@length string)) in Hrun.
           rewrite length_map, length_rev in Hrun. discriminate.
        -- cbn [map]. rewrite Hflat. f_equal. apply (IH Hs []).
Qed.

Lemma findall_word_characters_ascii (u : unicode_data) (s : string) :
  is_ascii s = true -> findall_word_characters u s = findall_word s.
Proof.
  intros Hs. unfold findall_word_characters, findall_word.
  rewrite (characters_ascii s Hs). apply (scan_runs_ascii u s Hs []).
Qed.

Lemma is_word_char_ascii (c : ascii) :
  is_word_char c = true -> is_ascii_char c = true.
Proof.
  destruct c as [[] [] [] [] [] [] [] []]; vm_compute; congruence.
Qed.

Lemma lower_char_ascii (c : ascii) :
  is_ascii_char c = true -> is_ascii_char (lower_char c) = true.
Proof.
  destruct c as [[] [] [] [] [] [] [] []]; vm_compute; congruence.
Qed.

Lemma is_ascii_all_chars (s : string) : is_ascii s = all_chars is_ascii_char s.
Proof.
  induction s as [|c s IH]; cbn [is_ascii all_chars]; [reflexivity|].
  rewrite IH. reflexivity.
Qed.

Lemma is_ascii_append (s t : string) :
  is_ascii (s ++ t) = is_ascii s && is_ascii t.
Proof. rewrite !is_ascii_all_chars. apply all_chars_append. Qed.

Lemma is_ascii_word (s : string) :
  all_chars is_word_char s = true -> is_ascii s = true.
Proof.
  induction s as [|c s IH]; cbn [is_ascii all_chars]; [reflexivity|].
  intros H. apply andb_true_iff in H as [Hc Hs].
  rewrite (is_word_char_ascii c Hc), (IH Hs). reflexivity.
Qed.

Lemma is_ascii_join (runs : list string) :
  Forall (fun run => run <> EmptyString /\ all_chars is_word_char run = true)
    runs ->
  is_ascii (join "_" runs) = true.
Proof.
  induction 1 as [|run runs [_ Hrun] Hruns IH]; [reflexivity|].
  destruct runs as [|run' runs].
  - cbn. apply is_ascii_word, Hrun.
  - change (join "_" (run :: run' :: runs))
      with (run ++ "_" ++ join "_" (run' :: runs))%string.
    rewrite is_ascii_append, (is_ascii_word run Hrun), is_ascii_append, IH.
    reflexivity.
Qed.

Lemma is_ascii_lower (s : string) : is_ascii s = true -> is_ascii (lower s) = true.
Proof.
  induction s as [|c s IH]; cbn [is_ascii lower]; [reflexivity|].
  intros H. apply andb_true_iff in H as [Hc Hs].
  rewrite (lower_char_ascii c Hc), (IH Hs). reflexivity.
Qed.

Lemma slice_characters_ascii (n : nat) (s : string) :
  is_ascii s = true -> slice_characters n s = slice_to n s.
Proof.
  intros Hs. unfold slice_characters. rewrite (characters_ascii s Hs).
  clear Hs. revert s. induction n as [|n IH]; intros [|c s]; cbn; try reflexivity.
  rewrite IH. reflexivity.
Qed.

Lemma base_name_ascii (w : world) (t : string) :
  is_ascii t = true -> base_name w t = ascii_base_name t.
Proof.
  intros Ht. unfold base_name, ascii_base_name.
  rewrite (findall_word_characters_ascii _ t Ht).
  assert (Hjoin : is_ascii (join "_" (findall_word t)) = true).
  { apply is_ascii_join, (word_runs_Forall t), findall_word_runs. }
  unfold str_lower. rewrite Hjoin.
  apply slice_characters_ascii, is_ascii_lower, Hjoin.
Qed.

Lemma create_json_file_name_titled w p d t st :
  title p = Some t ->
  create_json_file_name w p d st = (Returned (file_name_of w d t), st).
Proof. intros Ht. unfold create_json_file_name. rewrite Ht. reflexivity. Qed.

(** C8. For every title, the file name that [create_json_file_name]
    returns is made of the word-character runs of the title, joined by
    underscores, lowercased and cut to its first 50 characters at most,
    placed in the output directory by [os.path.join] and followed by
    [.json].  The characters are those of the title as a Python string,
    ASCII or not; for an ASCII title the runs are runs of letters, digits
    and underscores, the lowercase is that of [A-Z], and between a directory
    name that is not empty and does not end with a slash and the base name
    there is one slash.  The title "Attention Is All You Need: Transformer
    Models!!" gives the base name
    attention_is_all_you_need_transformer_models. *)
Theorem create_json_file_name_derivation :
  forall (w : world) (paper_dict : paper) (out_dir_name t : string)
         (st : state),
    title paper_dict = Some t ->
    (exists runs,
        runs_in (is_word (unicodedata w)) (characters t) runs /\
        (forall runs',
            runs_in (is_word (unicodedata w)) (characters t) runs' ->
            runs' = runs) /\
        let lowered :=
          str_lower (unicodedata w) (join "_" (map flatten runs)) in
        let kept := firstn 50 (characters lowered) in
        (length kept <= 50)%nat /\
        (length (characters lowered) <= 50 -> flatten kept = lowered)%nat /\
        create_json_file_name w paper_dict out_dir_name st =
          (Returned (os_path_join out_dir_name (flatten kept) ++ ".json")%string,
           st)) /\
    (is_ascii t = true ->
     exists runs,
       word_runs t runs /\
       (forall runs', word_runs t runs' -> runs' = runs) /\
       let base := slice_to 50 (lower (join "_" runs)) in
       let separator :=
         if (out_dir_name =? "") || endswith_slash out_dir_name then ""
         else "/" in
       (String.length base <= 50)%nat /\
       create_json_file_name w paper_dict out_dir_name st =
         (Returned (out_dir_name ++ separator ++ base ++ ".json")%string, st)) /\
    base_name w "Attention Is All You Need: Transformer Models!!" =
      "attention_is_all_you_need_transformer_models".
Proof.
  intros w paper_dict out_dir_name t st Htitle.
  split; [|split; [|reflexivity]].
  - exists (scan_runs (is_word (unicodedata w)) (characters t) []).
    split; [apply scan_runs_in|]. split.
    + intros runs' H'. apply runs_in_scan. exact H'.
    + cbv zeta. split; [apply firstn_le_length|]. split.
      * intros Hshort. rewrite firstn_all2 by exact Hshort.
        apply flatten_characters.
      * apply create_json_file_name_titled. exact Htitle.
  - intros Hascii. exists (findall_word t).
    split; [apply findall_word_runs|]. split.
    + intros runs' H'. apply word_runs_findall. exact H'.
    + cbv zeta. split; [apply slice_to_length|].
      rewrite (create_json_file_name_titled w paper_dict out_dir_name t st Htitle).
      unfold file_name_of. rewrite (base_name_ascii w t Hascii).
      fold (ascii_base_name t).
      rewrite (os_path_join_relative out_dir_name _ (ascii_base_name_relative t)).
      destruct ((out_dir_name =? "") || endswith_slash out_dir_name);
        cbn [String.append]; rewrite ?append_assoc; reflexivity.
Qed.

(** C8 at two inputs: the title of the specification, and a title with
    letters beyond ASCII, in [output2]. *)
Lemma create_json_file_name_derivation_witness :
  create_json_file_name offline attention "output2" (initial [] []) =
    (Returned "output2/attention_is_all_you_need_transformer_models.json",
     initial [] []) /\
  create_json_file_name french (titled cafe_ecole) "output2" (initial [] []) =
    (Returned ("output2/caf" ++ e_acute ++ "_" ++ e_acute ++ "cole.json")%string,
     initial [] []).
Proof.
  split.
  - destruct (create_json_file_name_derivation offline attention "output2" _
                (initial [] []) eq_refl) as [_ [Hascii _]].
    destruct (Hascii eq_refl) as [runs [_ [Huniq [_ Hname]]]].
    rewrite Hname.
    rewrite <- (Huniq (findall_word "Attention Is All You Need: Transformer Models!!")
                      (findall_word_runs _)).
    reflexivity.
  - destruct (create_json_file_name_derivation french (titled cafe_ecole)
                "output2" _ (initial [] []) eq_refl)
      as [[runs [_ [Huniq [_ [_ Hname]]]]] _].
    rewrite Hname.
    rewrite <- (Huniq _ (proj1 (scan_runs_in _ _))).
    reflexivity.
Defined.

(** ** The seed resolver and the [return] of its [finally] clause *)

Lemma completes_ret {A} (a : A) : completes (ret a).
Proof. intros st. exact I. Qed.

Lemma completes_raise {A} (e : exn) : completes (@raise A e).
Proof. intros st. exact I. Qed.

Lemma completes_update (f : state -> state) : completes (update f).
Proof. intros st. exact I. Qed.

Lemma completes_read {A} (f : state -> A) : completes (read f).
Proof. intros st. exact I. Qed.

Lemma completes_bind {A B} (c : M A) (k : A -> M B) :
  completes c -> (forall a, completes (k a)) -> completes (bind c k).
Proof.
  intros Hc Hk st. unfold bind. specialize (Hc st).
  destruct (c st) as [[a | e | |] st']; cbn in *; try contradiction.
  - apply Hk.
  - exact I.
Qed.

Lemma completes_if {A} (b : bool) (c1 c2 : M A) :
  completes c1 -> completes c2 -> completes (if b then c1 else c2).
Proof. destruct b; auto. Qed.

Lemma completes_driver (what : string) (raises : option exn) :
  completes (driver what raises).
Proof. intros st. unfold driver. destruct raises; exact I. Qed.

Lemma completes_page {A} (what : string) (found : exn + A) :
  completes (page what found).
Proof. intros st. unfold page. destruct found; exact I. Qed.

Lemma completes_subscript {A} (o : option A) (k : string) :
  completes (subscript o k).
Proof. destruct o; [apply completes_ret | apply completes_raise]. Qed.

Lemma completes_first {A} (l : list A) : completes (first l).
Proof. destruct l; [apply completes_raise | apply completes_ret]. Qed.

Lemma completes_response_json (body : option paper) :
  completes (response_json body).
Proof. destruct body; [apply completes_ret | apply completes_raise]. Qed.

Lemma completes_http_get (w : world) (url : string) : completes (http_get w url).
Proof. intros st. unfold http_get. destruct (requests_get w url); exact I. Qed.

Lemma completes_time_sleep (seconds : Q) : completes (time_sleep seconds).
Proof. intros st. exact I. Qed.

Create HintDb completes.
#[local] Hint Resolve completes_ret completes_raise completes_update
  completes_read completes_if completes_driver completes_page
  completes_subscript completes_first completes_response_json
  completes_http_get completes_time_sleep : completes.

Ltac completes :=
  repeat first
    [ apply completes_bind; [|intros ?]
    | apply completes_if
    | solve [auto with completes] ].

Lemma completes_get_paper_json self w paper_id :
  completes (_get_paper_json_by_id self w paper_id).
Proof. unfold _get_paper_json_by_id. completes. Qed.

(** [raise FirstPaperDifferentError] never raises that exception: the
    instantiation fails first. *)
Lemma raise_FirstPaperDifferentError_no_arguments {A} (st : state) :
  @raise_FirstPaperDifferentError A [] st = (Raised missing_init_arguments, st).
Proof. reflexivity. Qed.

Lemma completes_raise_FirstPaperDifferentError {A} :
  completes (@raise_FirstPaperDifferentError A []).
Proof. intros st. exact I. Qed.

#[local] Hint Resolve completes_raise_FirstPaperDifferentError : completes.

Lemma completes_check_paper_page w paper_title :
  completes (_check_paper_page w paper_title).
Proof. unfold _check_paper_page. completes. Qed.

Lemma completes_get_topics w searched :
  completes (_get_topics_in_paper_page w searched).
Proof.
  unfold _get_topics_in_paper_page.
  destruct (topics_page (browser w) searched) as [[]|]; auto with completes.
Qed.

Lemma completes_close_browser w : completes (_close_browser w).
Proof. unfold _close_browser. auto with completes. Qed.

#[local] Hint Resolve completes_get_paper_json completes_check_paper_page
  completes_get_topics completes_close_browser : completes.

(** Whatever its body and its handler do, a [try] statement whose [finally]
    clause returns does return. *)
Lemma try_except_finally_return_returns {A} (body handler : M unit)
    (catches : exn -> bool) (value : state -> A) :
  completes body -> completes handler ->
  forall st, exists st',
    try_except_finally_return body catches handler value st =
      (Returned (value st'), st').
Proof.
  intros Hbody Hhandler st. unfold try_except_finally_return.
  specialize (Hbody st).
  destruct (body st) as [[[] | e | |] st1]; cbn in Hbody; try contradiction.
  - eexists. reflexivity.
  - destruct (catches e).
    + specialize (Hhandler st1).
      destruct (handler st1) as [[[] | e' | |] st2]; cbn in Hhandler;
        try contradiction; eexists; reflexivity.
    + eexists. reflexivity.
Qed.

(** Against C10 as it is stated: [_start_browser] is called before the
    [try] statement (lines 167-168), and what it raises reaches the caller. *)
Lemma scrap_paper_by_title_start_raises :
  scrap_paper_by_title default_scrapper no_chrome "Foo" true (initial [] []) =
    (Raised WebDriverException, log (EvBrowser "start") (initial [] [])).
Proof. reflexivity. Qed.

(** C10, amended. When the browser need not be started ([call_browser] is
    false) or starts, [scrap_paper_by_title] returns the attributes
    dictionary as it stands, whatever is raised inside its [try] statement or
    by its handler; among these is the [TypeError] that
    [raise FirstPaperDifferentError] produces, the class being instantiated
    without the two arguments of its [__init__]. *)
Theorem scrap_paper_by_title_returns :
  forall self w paper_title call_browser st,
    (call_browser = true -> chrome_start (browser w) = None) ->
    (exists st',
        scrap_paper_by_title self w paper_title call_browser st =
          (Returned (attributes_dict st'), st')) /\
    @raise_FirstPaperDifferentError unit [] st = (Raised missing_init_arguments, st).
Proof.
  intros self w paper_title call_browser st Hstart. split; [|reflexivity].
  unfold scrap_paper_by_title, bind at 1 2. cbn [update].
  set (st0 := set_attributes_dict empty_paper st).
  assert (Hbegin : exists st1,
             (if call_browser then _start_browser w else ret tt) st0 =
               (Returned tt, st1)).
  { destruct call_browser.
    - unfold _start_browser, driver. rewrite (Hstart eq_refl). eexists. reflexivity.
    - eexists. reflexivity. }
  destruct Hbegin as [st1 Hbegin]. rewrite Hbegin.
  apply try_except_finally_return_returns; [|auto with completes].
  unfold _search_paper_by_name, _open_first_link_in_search_page,
    _get_abstract_in_paper_page, _get_bibtex_citation,
    _get_paper_id_from_current_url.
  completes.
Qed.

(** C10, amended, at an input: a page with another title, the browser
    started by the caller. *)
Lemma scrap_paper_by_title_returns_witness :
  exists st',
    scrap_paper_by_title default_scrapper unrelated "Foo" false (initial [] []) =
      (Returned (attributes_dict st'), st').
Proof.
  refine (proj1 (scrap_paper_by_title_returns default_scrapper unrelated "Foo"
                   false (initial [] []) _)).
  discriminate.
Defined.

(** On such a page the [TypeError] is swallowed: the empty dictionary is
    returned and the browser is left open. *)
Lemma scrap_paper_by_title_mismatch :
  scrap_paper_by_title default_scrapper unrelated "Foo" false (initial [] []) =
    (Returned empty_paper,
     log (EvBrowser "wait h1")
       (log (EvBrowser "first link")
          (log (EvBrowser "search") (initial [] [])))).
Proof. reflexivity. Qed.

(** ** The fetcher and its pause *)


(** The two ways in which a call of the fetcher ends. *)
Lemma get_paper_json_cases self w paper_id st :
  _get_paper_json_by_id self w paper_id st =
    match requests_get w (json_url_of paper_id) with
    | Response body =>
        (match body with
         | Some p => Returned p
         | None => Raised JSONDecodeError
         end,
         log (EvSleep (_time_between_api_call self))
           (log (EvGet (json_url_of paper_id)) st))
    | NoResponse =>
        (Raised RequestException, log (EvGet (json_url_of paper_id)) st)
    end.
Proof.
  unfold _get_paper_json_by_id, bind, http_get, time_sleep, update.
  destruct (requests_get w (json_url_of paper_id)) as [|[p|]]; reflexivity.
Qed.



(** ** Dictionaries, requests and the queue: counting lemmas *)

Lemma get_set_same {V} (d : dict V) (k : string) (v : V) :
  Dict.get (Dict.set d k v) k = Some v.
Proof.
  induction d as [|[k' v'] d IH]; cbn.
  - rewrite String.eqb_refl. reflexivity.
  - destruct (String.eqb k k') eqn:Hk; cbn; rewrite Hk; auto.
Qed.

Lemma get_set_other {V} (d : dict V) (k k' : string) (v : V) :
  k' <> k -> Dict.get (Dict.set d k v) k' = Dict.get d k'.
Proof.
  intros Hne. induction d as [|[k0 v0] d IH]; cbn.
  - apply String.eqb_neq in Hne. rewrite Hne. reflexivity.
  - destruct (String.eqb k k0) eqn:Hk; cbn.
    + apply String.eqb_eq in Hk. subst k0.
      apply String.eqb_neq in Hne. rewrite Hne. reflexivity.
    + rewrite IH. reflexivity.
Qed.

Lemma mem_set_same {V} (d : dict V) (k : string) (v : V) :
  Dict.mem k (Dict.set d k v) = true.
Proof. unfold Dict.mem. rewrite get_set_same. reflexivity. Qed.

Lemma mem_set_other {V} (d : dict V) (k k' : string) (v : V) :
  k' <> k -> Dict.mem k' (Dict.set d k v) = Dict.mem k' d.
Proof. intros Hne. unfold Dict.mem. rewrite get_set_other by assumption. reflexivity. Qed.

Lemma mem_set_known {V} (d : dict V) (k k' : string) (v : V) :
  Dict.mem k' d = true -> Dict.mem k' (Dict.set d k v) = true.
Proof.
  intros Hk'. destruct (string_dec k' k) as [->|Hne].
  - apply mem_set_same.
  - rewrite mem_set_other; assumption.
Qed.

Lemma mem_keys {V} (d : dict V) (k : string) :
  Dict.mem k d = true <-> In k (Dict.keys d).
Proof.
  unfold Dict.mem. induction d as [|[k' v'] d IH]; cbn.
  - split; [discriminate | contradiction].
  - destruct (String.eqb k k') eqn:Hk.
    + apply String.eqb_eq in Hk. subst. split; auto.
    + apply String.eqb_neq in Hk. rewrite IH. split; [auto|].
      intros [Heq|Hin]; [congruence | exact Hin].
Qed.

Lemma keys_set_fresh {V} (d : dict V) (k : string) (v : V) :
  Dict.mem k d = false -> Dict.keys (Dict.set d k v) = Dict.keys d ++ [k].
Proof.
  unfold Dict.mem, Dict.keys. induction d as [|[k' v'] d IH]; cbn; [reflexivity|].
  destruct (String.eqb k k'); [discriminate|]. intros H. cbn.
  f_equal. apply IH. exact H.
Qed.

Lemma mem_In (x : string) (s : list string) : mem x s = true <-> In x s.
Proof.
  unfold mem. rewrite existsb_exists. split.
  - intros [y [Hin Heq]]. apply String.eqb_eq in Heq. subst. exact Hin.
  - intros Hin. exists x. split; [exact Hin | apply String.eqb_refl].
Qed.

Lemma append_cancel_tail (s t u : string) :
  (s ++ u)%string = (t ++ u)%string -> s = t.
Proof.
  revert t. induction s as [|c s IH]; intros [|c' t] H; cbn in H.
  - reflexivity.
  - apply (f_equal String.length) in H. cbn in H. rewrite length_append in H. lia.
  - apply (f_equal String.length) in H. cbn in H. rewrite length_append in H. lia.
  - injection H as -> H. f_equal. apply IH. exact H.
Qed.

(** Distinct identifiers are requested at distinct addresses. *)
Lemma json_url_of_injective (a b : string) :
  json_url_of a = json_url_of b -> a = b.
Proof.
  unfold json_url_of. cbn. intros H. injection H as H.
  apply append_cancel_tail in H. exact H.
Qed.

Lemma fetch_count_app (paper_id : string) (tr1 tr2 : list event) :
  fetch_count paper_id (tr1 ++ tr2) =
    fetch_count paper_id tr1 + fetch_count paper_id tr2.
Proof.
  induction tr1 as [|[url| | |] tr1 IH]; cbn; auto. rewrite IH. lia.
Qed.

Lemma fetch_count_get_same (paper_id : string) (st : state) :
  fetch_count paper_id (trace (log (EvGet (json_url_of paper_id)) st)) =
    S (fetch_count paper_id (trace st)).
Proof.
  cbn [log trace]. rewrite fetch_count_app. cbn [fetch_count].
  rewrite String.eqb_refl. lia.
Qed.

Lemma fetch_count_get_other (paper_id other : string) (st : state) :
  other <> paper_id ->
  fetch_count paper_id (trace (log (EvGet (json_url_of other)) st)) =
    fetch_count paper_id (trace st).
Proof.
  intros Hne. cbn [log trace]. rewrite fetch_count_app. cbn [fetch_count].
  destruct (String.eqb_spec (json_url_of other) (json_url_of paper_id)) as [Heq|_].
  - apply json_url_of_injective in Heq. congruence.
  - lia.
Qed.

Lemma fetch_count_sleep (paper_id : string) (seconds : Q) (st : state) :
  fetch_count paper_id (trace (log (EvSleep seconds) st)) =
    fetch_count paper_id (trace st).
Proof. cbn. rewrite fetch_count_app. cbn. lia. Qed.

Lemma fetch_count_write (paper_id : string) (file_name : string) (st : state) :
  fetch_count paper_id (trace (log (EvWrite file_name) st)) =
    fetch_count paper_id (trace st).
Proof. cbn. rewrite fetch_count_app. cbn. lia. Qed.

Lemma occurrences_tl (x : string) (q : list string) :
  occurrences x (tl q) <= occurrences x q.
Proof.
  destruct q as [|y q]; cbn; [lia|]. unfold occurrences. cbn.
  destruct (string_dec y x); lia.
Qed.

Lemma occurrences_append_other (x y : string) (q : list string) :
  y <> x -> occurrences x (q ++ [y]) = occurrences x q.
Proof.
  intros Hne. unfold occurrences. rewrite count_occ_app. cbn.
  destruct (string_dec y x); [congruence | lia].
Qed.

(** The comprehension drops the empty identifiers. *)
Lemma related_papers_id_list_not_empty (related : list stub) :
  ~ In "" (related_papers_id_list related).
Proof.
  unfold related_papers_id_list. intros Hin.
  apply in_map_iff in Hin as [s [Hid Hin]].
  apply filter_In in Hin as [_ Hkeep]. rewrite Hid in Hkeep. discriminate.
Qed.

(** ** What one turn of the [for] loop does *)

Lemma for_body_known self w out_dir_name id st :
  Dict.mem id (papers_dict st) = true ->
  for_body self w out_dir_name id st = (Returned tt, st).
Proof. intros H. unfold for_body, bind, read. rewrite H. reflexivity. Qed.

Lemma for_body_unknown self w out_dir_name id st :
  Dict.mem id (papers_dict st) = false ->
  for_body self w out_dir_name id st =
    match requests_get w (json_url_of id) with
    | NoResponse =>
        (Raised RequestException, log (EvGet (json_url_of id)) st)
    | Response None =>
        (Raised JSONDecodeError,
         log (EvSleep (_time_between_api_call self))
           (log (EvGet (json_url_of id)) st))
    | Response (Some p) =>
        persist_and_enqueue w out_dir_name id p
          (stored id p
             (log (EvSleep (_time_between_api_call self))
                (log (EvGet (json_url_of id)) st)))
    end.
Proof.
  intros H. unfold for_body, bind at 1, read. rewrite H. cbn [negb].
  unfold bind at 1. rewrite (surjective_pairing (_get_paper_json_by_id _ _ _ _)).
  rewrite get_paper_json_cases.
  destruct (requests_get w (json_url_of id)) as [|[p|]]; reflexivity.
Qed.

Lemma save_json_cases w p d st :
  save_json w p d st =
    match title p with
    | None => (Raised (KeyError "title"), st)
    | Some t =>
        let file_name := (os_path_join d (base_name w t) ++ ".json")%string in
        if can_open w file_name then
          (Returned tt,
           log (EvWrite file_name)
             (set_files (Dict.set (files st) file_name p) st))
        else (Raised OSError, st)
    end.
Proof.
  unfold save_json, bind at 1.
  destruct (title p) as [t|] eqn:Ht.
  - rewrite (create_json_file_name_titled w p d t st Ht).
    unfold file_name_of, dump, update, raise. cbv zeta.
    destruct (can_open w _); reflexivity.
  - unfold create_json_file_name. rewrite Ht. reflexivity.
Qed.

Lemma enqueue_unvisited_run id st :
  (visited <- read (fun st => mem id (paper_visited_set st)) ;;
   if negb visited then
     update (fun st => set_paper_id_queue (paper_id_queue st ++ [id]) st)
   else ret tt) st = (Returned tt, enqueue_unvisited id st).
Proof.
  unfold bind, read, enqueue_unvisited.
  destruct (mem id (paper_visited_set st)); reflexivity.
Qed.

Lemma bind_returned {A B} {c : M A} (k : A -> M B) {a : A} {st st' : state} :
  c st = (Returned a, st') -> bind c k st = k a st'.
Proof. intros H. unfold bind. rewrite H. reflexivity. Qed.

Lemma bind_raised {A B} {c : M A} (k : A -> M B) {e : exn} {st st' : state} :
  c st = (Raised e, st') -> bind c k st = (Raised e, st').
Proof. intros H. unfold bind. rewrite H. reflexivity. Qed.

(** The ways in which lines 93-97 end. *)
Lemma persist_and_enqueue_cases w out_dir_name id p st :
  persist_and_enqueue w out_dir_name id p st =
    (Returned tt, enqueue_unvisited id st) \/
  (exists file_name,
      persist_and_enqueue w out_dir_name id p st =
        (Returned tt,
         enqueue_unvisited id
           (log (EvWrite file_name)
              (set_files (Dict.set (files st) file_name p) st)))) \/
  (exists e, persist_and_enqueue w out_dir_name id p st = (Raised e, st)).
Proof.
  unfold persist_and_enqueue.
  destruct out_dir_name as [d|]; cbv beta iota.
  - pose proof (save_json_cases w p d st) as Hsave.
    destruct (title p) as [t|].
    + cbv zeta in Hsave. destruct (can_open w _).
      * right. left. eexists.
        rewrite (bind_returned _ Hsave). apply enqueue_unvisited_run.
      * right. right. eexists. apply (bind_raised _ Hsave).
    + right. right. eexists. apply (bind_raised _ Hsave).
  - left. rewrite (bind_returned (c := ret tt) _ (a := tt) (st' := st) eq_refl).
    apply enqueue_unvisited_run.
Qed.

(** ** Invariants: triples for computations that may raise *)

Section TripleRules.

Context {A B : Type}.
Variables (P : state -> Prop) (E : abnormal -> state -> Prop).

Lemma triple_ret (a : A) (Q : A -> state -> Prop) :
  (forall st, P st -> Q a st) -> triple P (ret a) Q E.
Proof. intros H st HP. apply H. exact HP. Qed.

Lemma triple_raise (e : exn) (Q : A -> state -> Prop) :
  (forall st, P st -> E (AbRaised e) st) -> triple P (@raise A e) Q E.
Proof. intros H st HP. apply H. exact HP. Qed.

Lemma triple_ill_typed (Q : A -> state -> Prop) :
  (forall st, P st -> E AbIllTyped st) -> triple P (@ill_typed A) Q E.
Proof. intros H st HP. apply H. exact HP. Qed.

Lemma triple_read (f : state -> A) (Q : A -> state -> Prop) :
  (forall st, P st -> Q (f st) st) -> triple P (read f) Q E.
Proof. intros H st HP. apply H. exact HP. Qed.

Lemma triple_update (f : state -> state) (Q : unit -> state -> Prop) :
  (forall st, P st -> Q tt (f st)) -> triple P (update f) Q E.
Proof. intros H st HP. apply H. exact HP. Qed.

Lemma triple_bind (c : M A) (k : A -> M B) (Q1 : A -> state -> Prop)
    (Q : B -> state -> Prop) :
  triple P c Q1 E -> (forall a, triple (Q1 a) (k a) Q E) ->
  triple P (bind c k) Q E.
Proof.
  intros Hc Hk st HP. unfold bind. specialize (Hc st HP).
  destruct (c st) as [[a | e | |] st']; cbn in Hc |- *; auto.
  apply Hk. exact Hc.
Qed.

Lemma triple_subscript (o : option A) (key : string) (Q : A -> state -> Prop) :
  (forall a st, o = Some a -> P st -> Q a st) ->
  (forall st, P st -> E (AbRaised (KeyError key)) st) ->
  triple P (subscript o key) Q E.
Proof.
  intros HQ HE. destruct o as [a|]; cbn.
  - apply triple_ret. intros st. apply HQ. reflexivity.
  - apply triple_raise. exact HE.
Qed.

End TripleRules.

(** An invariant of one turn of the [for] loop, kept whatever it is that
    ends the turn, is an invariant of the calls and of the loops around it. *)
Section Lifting.

Variables (self : scrapper) (w : world).
Variables (I : state -> Prop) (E : abnormal -> state -> Prop).

Hypothesis I_abnormal : forall ab st, I st -> E ab st.
Hypothesis I_visited : forall st v, I st -> I (set_paper_visited_set v st).
Hypothesis I_popleft :
  forall st, I st -> I (set_paper_id_queue (tl (paper_id_queue st)) st).
Hypothesis I_for_body :
  forall out_dir_name id, id <> "" ->
    triple I (for_body self w out_dir_name id) (fun _ => I) E.

Lemma lift_for out_dir_name (ids : list string) :
  ~ In "" ids ->
  triple I (for_related_paper_id self w out_dir_name ids) (fun _ => I) E.
Proof.
  induction ids as [|id ids IH]; intros Hids; cbn [for_related_paper_id].
  - apply triple_ret. auto.
  - apply triple_bind with (Q1 := fun _ => I).
    + apply I_for_body. intros ->. apply Hids. left. reflexivity.
    + intros _. apply IH. intros Hin. apply Hids. right. exact Hin.
Qed.

Lemma lift_retrieve_body paper_id relationship_type out_dir_name :
  triple I (retrieve_body self w paper_id relationship_type out_dir_name)
    (fun _ => I) E.
Proof.
  unfold retrieve_body.
  apply triple_bind with (Q1 := fun _ => I); [apply triple_read; auto|].
  intros entry.
  apply triple_bind with (Q1 := fun _ => I); [apply triple_subscript; auto|].
  intros paper_dict.
  apply triple_bind with (Q1 := fun _ => I).
  - unfold relationship.
    destruct (relationship_type =? "references");
      [apply triple_subscript; auto|].
    destruct (relationship_type =? "citations");
      [apply triple_subscript; auto|].
    apply triple_ill_typed. auto.
  - intros related. apply lift_for. apply related_papers_id_list_not_empty.
Qed.

(** What a call of [_retrieve_related_papers] comes to. *)
Lemma retrieve_cases (args : list pyobj) :
  (exists e, _retrieve_related_papers self w args = raise e) \/
  _retrieve_related_papers self w args = ill_typed \/
  (exists paper_id relationship_type out_dir_name,
      _retrieve_related_papers self w args =
        retrieve_body self w paper_id relationship_type out_dir_name).
Proof.
  unfold _retrieve_related_papers.
  destruct (bind_args _ _ args) as [e | env]; [left; eexists; reflexivity|].
  right.
  repeat match goal with
         | |- context [match ?x with _ => _ end] =>
             is_var x; destruct x; try (left; reflexivity)
         end.
  all: right; eexists _, _, _; reflexivity.
Qed.

Lemma lift_retrieve (args : list pyobj) :
  triple I (_retrieve_related_papers self w args) (fun _ => I) E.
Proof.
  destruct (retrieve_cases args) as [[e ->] | [-> | [p [r [o ->]]]]].
  - apply triple_raise. auto.
  - apply triple_ill_typed. auto.
  - apply lift_retrieve_body.
Qed.

Lemma lift_while_body out_dir_name current :
  triple I (while_body self w out_dir_name current) (fun _ => I) E.
Proof.
  unfold while_body.
  apply triple_bind with (Q1 := fun _ => I); [apply triple_update; auto|].
  intros _.
  apply triple_bind with (Q1 := fun _ => I); [apply triple_read; auto|].
  intros visited. destruct visited; cbn [negb]; [apply triple_ret; auto|].
  apply triple_bind with (Q1 := fun _ => I); [apply triple_update; auto|].
  intros _.
  apply triple_bind with (Q1 := fun _ => I); [apply lift_retrieve|].
  intros _. apply lift_retrieve.
Qed.

Lemma lift_while_queue out_dir_name fuel :
  triple I (while_queue self w out_dir_name fuel) (fun _ => I) E.
Proof.
  induction fuel as [|fuel IH]; intros st HI; cbn [while_queue].
  - destruct (paper_id_queue st); cbn; auto.
  - destruct (paper_id_queue st) as [|current q]; [exact HI|].
    revert st HI. fold (triple I
      (while_body self w out_dir_name current ;;;
       while_queue self w out_dir_name fuel) (fun _ => I) E).
    apply triple_bind with (Q1 := fun _ => I); [apply lift_while_body|].
    intros _. exact IH.
Qed.

Lemma lift_completed_while_body out_dir_name current :
  triple I (Completed.while_body self w out_dir_name current) (fun _ => I) E.
Proof.
  unfold Completed.while_body.
  apply triple_bind with (Q1 := fun _ => I); [apply triple_update; auto|].
  intros _.
  apply triple_bind with (Q1 := fun _ => I); [apply triple_read; auto|].
  intros visited. destruct visited; cbn [negb]; [apply triple_ret; auto|].
  apply triple_bind with (Q1 := fun _ => I); [apply triple_update; auto|].
  intros _.
  apply triple_bind with (Q1 := fun _ => I); [apply lift_retrieve|].
  intros _. apply lift_retrieve.
Qed.

Lemma lift_completed_while_queue out_dir_name fuel :
  triple I (Completed.while_queue self w out_dir_name fuel) (fun _ => I) E.
Proof.
  induction fuel as [|fuel IH]; intros st HI; cbn [Completed.while_queue].
  - destruct (paper_id_queue st); cbn; auto.
  - destruct (paper_id_queue st) as [|current q]; [exact HI|].
    revert st HI. fold (triple I
      (Completed.while_body self w out_dir_name current ;;;
       Completed.while_queue self w out_dir_name fuel) (fun _ => I) E).
    apply triple_bind with (Q1 := fun _ => I);
      [apply lift_completed_while_body|].
    intros _. exact IH.
Qed.

End Lifting.

(** ** The outcomes of one turn of the [for] loop *)

Lemma for_body_turn self w out_dir_name id st :
  turn self w id st (fst (for_body self w out_dir_name id st))
                    (snd (for_body self w out_dir_name id st)).
Proof.
  destruct (Dict.mem id (papers_dict st)) eqn:Hknown.
  - rewrite for_body_known by assumption. apply turn_known. exact Hknown.
  - rewrite for_body_unknown by assumption.
    destruct (requests_get w (json_url_of id)) as [|[p|]] eqn:Hget.
    + apply turn_no_response; assumption.
    + destruct (persist_and_enqueue_cases w out_dir_name id p
                  (stored id p (requested self id true st)))
        as [H | [[file_name H] | [e H]]];
        unfold requested in H; rewrite H; cbn [fst snd].
      * apply turn_stored; assumption.
      * apply turn_saved; assumption.
      * apply turn_not_saved; assumption.
    + apply turn_undecodable; assumption.
Qed.

(** To prove a triple for one turn, consider its outcomes. *)
Lemma triple_for_body self w out_dir_name id (P : state -> Prop)
    (Q : unit -> state -> Prop) (E : abnormal -> state -> Prop) :
  (forall st r st', P st -> turn self w id st r st' -> after Q E (r, st')) ->
  triple P (for_body self w out_dir_name id) Q E.
Proof.
  intros H st HP.
  rewrite (surjective_pairing (for_body self w out_dir_name id st)).
  apply (H st); [exact HP | apply for_body_turn].
Qed.

Lemma enqueue_unvisited_papers_dict id st :
  papers_dict (enqueue_unvisited id st) = papers_dict st.
Proof. unfold enqueue_unvisited. destruct (mem id _); reflexivity. Qed.

Lemma enqueue_unvisited_trace id st :
  trace (enqueue_unvisited id st) = trace st.
Proof. unfold enqueue_unvisited. destruct (mem id _); reflexivity. Qed.

Lemma enqueue_unvisited_files id st :
  files (enqueue_unvisited id st) = files st.
Proof. unfold enqueue_unvisited. destruct (mem id _); reflexivity. Qed.

Lemma enqueue_unvisited_visited id st :
  paper_visited_set (enqueue_unvisited id st) = paper_visited_set st.
Proof. unfold enqueue_unvisited. destruct (mem id _); reflexivity. Qed.

Lemma enqueue_unvisited_queue id st :
  paper_id_queue (enqueue_unvisited id st) =
    if mem id (paper_visited_set st) then paper_id_queue st
    else paper_id_queue st ++ [id].
Proof. unfold enqueue_unvisited. destruct (mem id _); reflexivity. Qed.

Lemma requested_papers_dict self id answered st :
  papers_dict (requested self id answered st) = papers_dict st.
Proof. destruct answered; reflexivity. Qed.

Lemma requested_files self id answered st :
  files (requested self id answered st) = files st.
Proof. destruct answered; reflexivity. Qed.

Lemma requested_queue self id answered st :
  paper_id_queue (requested self id answered st) = paper_id_queue st.
Proof. destruct answered; reflexivity. Qed.

Lemma requested_visited self id answered st :
  paper_visited_set (requested self id answered st) = paper_visited_set st.
Proof. destruct answered; reflexivity. Qed.

Lemma requested_fetch_count self id answered st x :
  fetch_count x (trace (requested self id answered st)) =
    if String.eqb id x then S (fetch_count x (trace st))
    else fetch_count x (trace st).
Proof.
  unfold requested.
  destruct answered; rewrite ?fetch_count_sleep;
    destruct (String.eqb_spec id x) as [->|Hne];
    auto using fetch_count_get_same, fetch_count_get_other.
Qed.

Lemma written_papers_dict f p st : papers_dict (written f p st) = papers_dict st.
Proof. reflexivity. Qed.

Lemma written_files f p st : files (written f p st) = Dict.set (files st) f p.
Proof. reflexivity. Qed.

Lemma written_queue f p st : paper_id_queue (written f p st) = paper_id_queue st.
Proof. reflexivity. Qed.

Lemma written_visited f p st :
  paper_visited_set (written f p st) = paper_visited_set st.
Proof. reflexivity. Qed.

Lemma written_fetch_count f p st x :
  fetch_count x (trace (written f p st)) = fetch_count x (trace st).
Proof. unfold written. rewrite fetch_count_write. reflexivity. Qed.

Lemma stored_papers_dict id p st :
  papers_dict (stored id p st) = Dict.set (papers_dict st) id p.
Proof. reflexivity. Qed.

Lemma stored_files id p st : files (stored id p st) = files st.
Proof. reflexivity. Qed.

Lemma stored_queue id p st : paper_id_queue (stored id p st) = paper_id_queue st.
Proof. reflexivity. Qed.

Lemma stored_visited id p st :
  paper_visited_set (stored id p st) = paper_visited_set st.
Proof. reflexivity. Qed.

Lemma stored_trace id p st : trace (stored id p st) = trace st.
Proof. reflexivity. Qed.

Create Rewrite HintDb store.
#[local] Hint Rewrite enqueue_unvisited_papers_dict enqueue_unvisited_trace
  enqueue_unvisited_files enqueue_unvisited_visited requested_papers_dict
  requested_files requested_queue requested_visited requested_fetch_count
  written_papers_dict written_files written_queue written_visited
  written_fetch_count stored_papers_dict stored_files stored_queue
  stored_visited stored_trace : store.

Ltac store := autorewrite with store.

(** ** Records are kept *)

Lemma keeps_for_body self w d out_dir_name id :
  triple (keeps d) (for_body self w out_dir_name id)
    (fun _ => keeps d) (fun _ => keeps d).
Proof.
  apply triple_for_body. intros st r st' Hkeeps Hturn.
  assert (Hset : forall p,
             Dict.mem id (papers_dict st) = false ->
             forall k v, Dict.get d k = Some v ->
               Dict.get (Dict.set (papers_dict st) id p) k = Some v).
  { intros p Hfresh k v Hk.
    rewrite get_set_other; [apply Hkeeps; exact Hk|].
    intros ->. apply Hkeeps in Hk. unfold Dict.mem in Hfresh.
    rewrite Hk in Hfresh. discriminate. }
  destruct Hturn; cbn [after]; unfold keeps; store; auto.
Qed.

Lemma keeps_crawl self w d :
  (forall args,
      triple (keeps d) (_retrieve_related_papers self w args)
        (fun _ => keeps d) (fun _ => keeps d)) /\
  (forall out_dir_name fuel,
      triple (keeps d) (Completed.while_queue self w out_dir_name fuel)
        (fun _ => keeps d) (fun _ => keeps d)).
Proof.
  split; intros.
  - apply lift_retrieve; auto. intros. apply keeps_for_body.
  - apply lift_completed_while_queue; auto. intros. apply keeps_for_body.
Qed.

(** C9. A record that the store holds under an identifier is still held,
    unchanged, after any call of [_retrieve_related_papers] (lines 88-91
    assign only to identifiers that are not in [papers_dict]) and at the end
    of [get_related_papers], however it ends. *)
Theorem records_never_overwritten :
  forall self w out_dir_name fuel args st k v,
    Dict.get (papers_dict st) k = Some v ->
    Dict.get (papers_dict (snd (_retrieve_related_papers self w args st))) k
      = Some v /\
    Dict.get (papers_dict (snd (get_related_papers self w out_dir_name fuel st))) k
      = Some v.
Proof.
  intros self w out_dir_name fuel args st k v Hk. split.
  - pose proof (proj1 (keeps_crawl self w (papers_dict st)) args st) as H.
    assert (Hst : keeps (papers_dict st) st) by (intros ? ? ?; assumption).
    specialize (H Hst).
    destruct (_retrieve_related_papers self w args st) as [[[] | e | |] st'];
      cbn in H |- *; apply H; exact Hk.
  - destruct fuel as [|fuel].
    + unfold get_related_papers, bind, update. cbn.
      destruct (Dict.keys (papers_dict st)); exact Hk.
    + rewrite get_related_papers_run.
      destruct (Dict.keys (papers_dict st)); exact Hk.
Qed.

(** C9 at an input: the record of the seed [A] of the diamond. *)
Lemma records_never_overwritten_witness :
  let call :=
    _retrieve_related_papers default_scrapper Fixtures.diamond
      [PyDict; PyStr "A"; PyStr "references"; PySet; PyDeque; PyStr "out"]
      (initial Fixtures.diamond_seeds []) in
  Dict.get (papers_dict (snd call)) "A" = Some Fixtures.A /\
  Dict.get
    (papers_dict
       (snd (get_related_papers default_scrapper Fixtures.diamond (Some "out") 3
               (initial Fixtures.diamond_seeds [])))) "A" = Some Fixtures.A.
Proof.
  exact (records_never_overwritten default_scrapper Fixtures.diamond (Some "out") 3
           [PyDict; PyStr "A"; PyStr "references"; PySet; PyDeque; PyStr "out"]
           (initial Fixtures.diamond_seeds []) "A" Fixtures.A eq_refl).
Defined.

(** ** The empty identifier *)

Lemma untouched_by_empty_refl w st : untouched_by_empty w st st.
Proof. unfold untouched_by_empty. auto. Qed.

Lemma untouched_by_empty_for_body self w st0 out_dir_name id :
  id <> "" ->
  triple (untouched_by_empty w st0) (for_body self w out_dir_name id)
    (fun _ => untouched_by_empty w st0) (fun _ => untouched_by_empty w st0).
Proof.
  intros Hid. apply triple_for_body.
  intros st r st' (Hfetch & Hdict & Hqueue & Hfiles) Hturn.
  assert (Hneq : (id =? "") = false) by (apply String.eqb_neq; exact Hid).
  assert (Hqueue' : forall s,
             paper_id_queue s = paper_id_queue st ->
             occurrences "" (paper_id_queue (enqueue_unvisited id s))
               <= occurrences "" (paper_id_queue st0)).
  { intros s Hs. rewrite enqueue_unvisited_queue, Hs.
    destruct (mem id (paper_visited_set s)); [exact Hqueue|].
    rewrite occurrences_append_other by exact Hid. exact Hqueue. }
  destruct Hturn; cbn [after]; unfold untouched_by_empty; store;
    rewrite ?Hneq, ?get_set_other by congruence;
    repeat split; auto.
  intros f q Hf. destruct (string_dec f file_name) as [->|Hne].
  - rewrite get_set_same in Hf. injection Hf as <-.
    right. exists id. auto.
  - rewrite get_set_other in Hf by assumption. apply Hfiles. exact Hf.
Qed.

Lemma untouched_by_empty_popleft w st0 st :
  untouched_by_empty w st0 st ->
  untouched_by_empty w st0 (set_paper_id_queue (tl (paper_id_queue st)) st).
Proof.
  intros (Hfetch & Hdict & Hqueue & Hfiles). unfold untouched_by_empty.
  cbn [trace papers_dict paper_id_queue files set_paper_id_queue].
  repeat split; auto.
  pose proof (occurrences_tl "" (paper_id_queue st)). lia.
Qed.

Lemma get_related_papers_seeded self w out_dir_name fuel st :
  get_related_papers self w out_dir_name fuel st =
    while_queue self w out_dir_name fuel (seeded st).
Proof. reflexivity. Qed.

Lemma completed_get_related_papers_seeded self w out_dir_name fuel st :
  Completed.get_related_papers self w out_dir_name fuel st =
    Completed.while_queue self w out_dir_name fuel (seeded st).
Proof. reflexivity. Qed.

(** What holds after a computation, however it ends. *)
Lemma triple_always {A} (I : state -> Prop) (c : M A) (st : state) :
  triple I c (fun _ => I) (fun _ => I) -> I st -> I (snd (c st)).
Proof.
  intros H HI. specialize (H st HI).
  destruct (c st) as [[a | e | |] st']; exact H.
Qed.

(** C7. A stub whose identifier is the empty string is dropped by the
    comprehension of lines 84-86, so that no call of
    [_retrieve_related_papers] and no run of [get_related_papers] requests
    it, stores a record under it, writes a file for it or appends it to the
    queue. *)
Theorem empty_identifier_never_processed :
  forall self w,
    (forall related, ~ In "" (related_papers_id_list related)) /\
    (forall args st,
        untouched_by_empty w st (snd (_retrieve_related_papers self w args st))) /\
    (forall out_dir_name fuel st,
        untouched_by_empty w (seeded st)
          (snd (get_related_papers self w out_dir_name fuel st))).
Proof.
  intros self w. split; [apply related_papers_id_list_not_empty|]. split.
  - intros args st. apply (triple_always (untouched_by_empty w st)).
    + apply lift_retrieve; auto.
      intros. apply untouched_by_empty_for_body. assumption.
    + apply untouched_by_empty_refl.
  - intros out_dir_name fuel st. rewrite get_related_papers_seeded.
    apply (triple_always (untouched_by_empty w (seeded st))).
    + apply lift_while_queue; auto using untouched_by_empty_popleft.
      intros. apply untouched_by_empty_for_body. assumption.
    + apply untouched_by_empty_refl.
Qed.

(** The same for the crawl with the call completed. *)
Lemma completed_empty_identifier_never_processed self w out_dir_name fuel st :
  untouched_by_empty w (seeded st)
    (snd (Completed.get_related_papers self w out_dir_name fuel st)).
Proof.
  rewrite completed_get_related_papers_seeded.
  apply (triple_always (untouched_by_empty w (seeded st))).
  - apply lift_completed_while_queue; auto using untouched_by_empty_popleft.
    intros. apply untouched_by_empty_for_body. assumption.
  - apply untouched_by_empty_refl.
Qed.

(** A record whose lists hold empty identifiers: only [B] is processed. *)
Example empty_stubs_skipped :
  let A :=
    {| paperId := Some "A"; title := Some "Paper A";
       references := Some [ {| stub_paperId := "" |}; {| stub_paperId := "B" |};
                            {| stub_paperId := "" |} ];
       citations := Some [ {| stub_paperId := "" |} ];
       abstract := None; topics := None; bibtex_citation := None |} in
  let st :=
    snd (Completed.get_related_papers default_scrapper Fixtures.diamond
           (Some "out") 10 (initial [("A", A)] [])) in
  filter on_the_wire (trace st) =
    [ EvGet (json_url_of "B"); EvSleep (1 # 2)%Q;
      EvGet (json_url_of "D"); EvSleep (1 # 2)%Q ] /\
  Dict.keys (papers_dict st) = ["A"; "B"; "D"] /\
  paper_visited_set st = ["A"; "B"; "D"] /\
  Dict.keys (files st) = ["out/paper_b.json"; "out/paper_d.json"].
Proof. vm_compute. auto. Qed.

(** ** The gate: at most one request per identifier *)

Section Gate.

Variables (id : string) (n0 : nat) (d0 : dict paper).

Lemma gate_gate_raised st : gate id n0 d0 st -> gate_raised id n0 d0 st.
Proof.
  intros [Hkept [Hcount | (Hcount & Hfresh & _)]]; split; intros;
    try lia; congruence.
Qed.

Lemma gate_for_body self w out_dir_name id' :
  triple (gate id n0 d0) (for_body self w out_dir_name id')
    (fun _ => gate id n0 d0) (fun _ => gate_raised id n0 d0).
Proof.
  apply triple_for_body. intros st r st' Hgate Hturn.
  pose proof (gate_gate_raised st Hgate) as Hraised.
  destruct Hgate as [Hkept Hcount].
  destruct Hturn as [Hknown | Hfresh Hget | Hfresh Hget | p Hfresh Hget
                    | p file_name Hfresh Hget | p e Hfresh Hget];
    cbn [after]; [split; assumption | ..].
  all: unfold gate, gate_raised; store.
  all: destruct (String.eqb_spec id' id) as [->|Hne].
  all: try (assert (Hn0 : fetch_count id (trace st) = n0)
              by (destruct Hcount as [?|(_ & _ & ?)]; congruence)).
  all: try (assert (Hd0 : Dict.mem id d0 = false)
              by (destruct (Dict.mem id d0); [rewrite Hkept in Hfresh|];
                  congruence)).
  all: rewrite ?mem_set_same, ?mem_set_other by congruence.
  all: try (split; [congruence | right; auto]; fail).
  all: try (split; [lia | congruence]; fail).
  all: try (split; assumption).
  all: exact Hraised.
Qed.

End Gate.

Lemma gate_start id st : gate id (fetch_count id (trace st)) (papers_dict st) st.
Proof. unfold gate. auto. Qed.

(** However a computation that keeps the gate ends, [id] was requested at
    most once more, and not at all if the store held it. *)
Lemma gate_conclusion {A} id (c : M A) (st : state) :
  triple (gate id (fetch_count id (trace st)) (papers_dict st)) c
    (fun _ => gate id (fetch_count id (trace st)) (papers_dict st))
    (fun _ => gate_raised id (fetch_count id (trace st)) (papers_dict st)) ->
  fetch_count id (trace (snd (c st))) <= S (fetch_count id (trace st)) /\
  (Dict.mem id (papers_dict st) = true ->
   fetch_count id (trace (snd (c st))) = fetch_count id (trace st)).
Proof.
  intros H. specialize (H st (gate_start id st)).
  destruct (c st) as [[a | e | |] st']; cbn [after snd] in *;
    try exact H; apply gate_gate_raised; exact H.
Qed.

(** C2. In a call of [_retrieve_related_papers] an identifier is requested
    at most once, and not at all when [papers_dict] holds it already (lines
    89-91: the request is made for identifiers that are not in the
    dictionary, and the answer is stored there); in a run of
    [get_related_papers] every identifier is requested at most once, and the
    seeds, which are in the dictionary from the start, never. *)
Theorem at_most_one_fetch :
  forall self w id,
    (forall args st,
        let st' := snd (_retrieve_related_papers self w args st) in
        fetch_count id (trace st') <= S (fetch_count id (trace st)) /\
        (Dict.mem id (papers_dict st) = true ->
         fetch_count id (trace st') = fetch_count id (trace st))) /\
    (forall out_dir_name fuel seeds dir,
        let st' :=
          snd (get_related_papers self w out_dir_name fuel (initial seeds dir)) in
        fetch_count id (trace st') <= 1 /\
        (Dict.mem id seeds = true -> fetch_count id (trace st') = 0)).
Proof.
  intros self w id. split.
  - intros args st. apply gate_conclusion.
    apply lift_retrieve; auto using gate_gate_raised.
    intros. apply gate_for_body.
  - intros out_dir_name fuel seeds dir. rewrite get_related_papers_seeded.
    apply (gate_conclusion id (while_queue self w out_dir_name fuel)
             (seeded (initial seeds dir))).
    apply lift_while_queue; auto using gate_gate_raised.
    intros. apply gate_for_body.
Qed.

(** The same for the crawl with the call completed. *)
Lemma completed_at_most_one_fetch self w id out_dir_name fuel seeds dir :
  let st' :=
    snd (Completed.get_related_papers self w out_dir_name fuel
           (initial seeds dir)) in
  fetch_count id (trace st') <= 1 /\
  (Dict.mem id seeds = true -> fetch_count id (trace st') = 0).
Proof.
  rewrite completed_get_related_papers_seeded.
  apply (gate_conclusion id (Completed.while_queue self w out_dir_name fuel)
           (seeded (initial seeds dir))).
  apply lift_completed_while_queue; auto using gate_gate_raised.
  intros. apply gate_for_body.
Qed.

(** ** A failed request ends the crawl *)

Section Failure.

Variables (w : world) (id : string) (e : exn) (n0 : nat).
Hypothesis Hfails : fetch_fails w id e.

Lemma aborted_for_body self out_dir_name id' :
  triple (not_requested id n0) (for_body self w out_dir_name id')
    (fun _ => not_requested id n0) (aborted id e n0).
Proof.
  apply triple_for_body. intros st r st' Hcount Hturn.
  unfold not_requested in Hcount. unfold fetch_fails in Hfails.
  destruct Hturn as [Hknown | Hfresh Hget | Hfresh Hget | p Hfresh Hget
                    | p file_name Hfresh Hget | p e' Hfresh Hget];
    cbn [after]; [exact Hcount | ..].
  all: unfold not_requested, aborted; store.
  all: destruct (String.eqb_spec id' id) as [->|Hne].
  all: try (rewrite Hget in Hfails; try contradiction; subst e;
            right; repeat split; congruence).
  all: auto.
Qed.

End Failure.




(** With the call completed the exception leaves [get_related_papers] too:
    the loop of lines 59-65 has no handler. *)
Lemma completed_fetch_error_aborts self w out_dir_name fuel seeds dir id e :
  let run :=
    Completed.get_related_papers self w out_dir_name fuel (initial seeds dir) in
  fetch_fails w id e ->
  fetch_count id (trace (snd run)) <> 0 ->
  fst run = Raised e.
Proof.
  intros run Hfails Hrequested. subst run.
  rewrite completed_get_related_papers_seeded in *.
  assert (H : triple (not_requested id 0)
                (Completed.while_queue self w out_dir_name fuel)
                (fun _ => not_requested id 0) (aborted id e 0)).
  { apply lift_completed_while_queue; auto.
    - intros ab s Hs. left. exact Hs.
    - intros out i _. apply aborted_for_body. exact Hfails. }
  specialize (H (seeded (initial seeds dir)) eq_refl).
  destruct (Completed.while_queue self w out_dir_name fuel _)
    as [[[] | e' | |] st'];
    cbn [after fst snd] in *; unfold not_requested in H;
    try destruct H as [H | (Hab & Hcount & Hmem)];
    try congruence.
Qed.

(** ** The traversal as written: the diamond and a chain *)

(** C4 at its input. On the diamond [get_related_papers] raises in the turn
    of [A]: no request was made, [A] alone is marked and no file was written;
    the scenario expects one request each for [B], [C] and [D], the order
    [A], [B], [C], [D] and four files. *)
Theorem diamond_crawl_raises :
  forall fuel,
    let run :=
      get_related_papers default_scrapper Fixtures.diamond (Some "out") (S fuel)
        (initial Fixtures.diamond_seeds []) in
    fst run = Raised missing_queue /\
    trace (snd run) = [] /\
    paper_visited_set (snd run) = ["A"] /\
    Dict.keys (papers_dict (snd run)) = ["A"] /\
    files (snd run) = [].
Proof. intros fuel. cbv zeta. rewrite get_related_papers_run. cbn. auto. Qed.

(** With the call completed the diamond is crawled as the scenario says.
    The crawl writes the files of the three papers it fetches; the file of
    the seed is the one that [main] writes (lines 378-385), here in the
    directory from the start. *)
Lemma completed_diamond_crawl :
  let run :=
    Completed.get_related_papers default_scrapper Fixtures.diamond (Some "out") 4
      (initial Fixtures.diamond_seeds [("out/paper_a.json", Fixtures.A)]) in
  fst run = Returned tt /\
  filter on_the_wire (trace (snd run)) =
    [ EvGet (json_url_of "B"); EvSleep (1 # 2)%Q;
      EvGet (json_url_of "C"); EvSleep (1 # 2)%Q;
      EvGet (json_url_of "D"); EvSleep (1 # 2)%Q ] /\
  fetch_count "A" (trace (snd run)) = 0 /\
  paper_visited_set (snd run) = ["A"; "B"; "C"; "D"] /\
  Dict.keys (files (snd run)) =
    ["out/paper_a.json"; "out/paper_b.json"; "out/paper_c.json";
     "out/paper_d.json"].
Proof. vm_compute. auto. Qed.

(** ** The citation graph and what the traversal reaches *)


(** C1 at its input. On the chain [get_related_papers] ends, by the
    [TypeError], with [A] alone in the visited set, whereas [B] is reachable
    from the seed by a references edge. *)
Theorem chain_crawl_misses_reachable :
  forall fuel,
    let run :=
      get_related_papers default_scrapper chain None (S fuel)
        (initial chain_seeds []) in
    fst run = Raised missing_queue /\
    paper_visited_set (snd run) = ["A"] /\
    reachable chain_seeds chain "B" /\
    ~ In "B" (paper_visited_set (snd run)).
Proof.
  intros fuel. cbv zeta. rewrite get_related_papers_run. cbn.
  repeat split.
  - apply reachable_edge with (id := "A").
    + apply reachable_seed. left. reflexivity.
    + left. reflexivity.
  - intros [H | []]. discriminate.
Qed.

(** ** Reachability, for the crawl with the call completed *)

Lemma retrieve_documented self w paper_id relationship_type out_dir_name :
  _retrieve_related_papers self w
    [PyDict; PyStr paper_id; PyStr relationship_type; PySet; PyDeque;
     pyobj_of_dir out_dir_name] =
  retrieve_body self w paper_id relationship_type out_dir_name.
Proof. destruct out_dir_name; reflexivity. Qed.

Section Reach.

Variables (self : scrapper) (w : world) (seeds : dict paper).

Lemma get_mem {V} (d : dict V) (k : string) (v : V) :
  Dict.get d k = Some v -> Dict.mem k d = true.
Proof. unfold Dict.mem. intros ->. reflexivity. Qed.

Lemma mem_get {V} (d : dict V) (k : string) :
  Dict.mem k d = true -> exists v, Dict.get d k = Some v.
Proof. unfold Dict.mem. destruct (Dict.get d k) as [v|]; [eauto | discriminate]. Qed.

Lemma record_of_fetched id p st :
  sound w seeds st ->
  Dict.mem id (papers_dict st) = false ->
  requests_get w (json_url_of id) = Response (Some p) ->
  record_of seeds w id = Some p.
Proof.
  intros (_ & Hseeds & _) Hfresh Hget. unfold record_of.
  destruct (Dict.get seeds id) as [q|] eqn:Hseed.
  - apply get_mem, mem_keys, Hseeds in Hseed. congruence.
  - rewrite Hget. reflexivity.
Qed.

(** A new record is stored under a neighbour of [x] and the identifier is
    appended to the queue unless it is marked. *)
Lemma expanding_step x done id p st st' :
  expanding w seeds x done st ->
  Dict.mem id (papers_dict st) = false ->
  requests_get w (json_url_of id) = Response (Some p) ->
  In id (neighbours seeds w x) ->
  papers_dict st' = Dict.set (papers_dict st) id p ->
  paper_visited_set st' = paper_visited_set st ->
  paper_id_queue st' =
    (if mem id (paper_visited_set st) then paper_id_queue st
     else paper_id_queue st ++ [id]) ->
  expanding w seeds x (id :: done) st'.
Proof.
  intros (Hsound & Hclosed & Hx & Hdone) Hfresh Hget Hedge Hdict Hvisited Hqueue.
  pose proof (record_of_fetched id p st Hsound Hfresh Hget) as Hrecord.
  destruct Hsound as (Hagree & Hseeds & Hknown & Hreach).
  assert (Hqueue' : forall k, In k (paper_id_queue st) -> In k (paper_id_queue st')).
  { intros k Hk. rewrite Hqueue. destruct (mem id _); [|apply in_or_app]; auto. }
  unfold expanding, sound, closed_except, expanded.
  rewrite Hdict, Hvisited. repeat split.
  - intros k q Hk. destruct (string_dec k id) as [->|Hne].
    + rewrite get_set_same in Hk. congruence.
    + rewrite get_set_other in Hk by assumption. apply Hagree. exact Hk.
  - intros k Hk. apply mem_set_known. apply Hseeds. exact Hk.
  - intros k Hk. destruct (string_dec k id) as [->|Hne].
    + rewrite Hqueue. destruct (mem id (paper_visited_set st)) eqn:Hmarked.
      * left. apply mem_In. exact Hmarked.
      * right. apply in_or_app. right. left. reflexivity.
    + rewrite mem_set_other in Hk by assumption.
      destruct (Hknown k Hk); auto.
  - destruct H as [Hk | Hk].
    + apply Hreach. left. exact Hk.
    + rewrite Hqueue in Hk. destruct (mem id (paper_visited_set st)).
      * apply Hreach. right. exact Hk.
      * apply in_app_or in Hk as [Hk | [<- | []]].
        -- apply Hreach. right. exact Hk.
        -- apply reachable_edge with (id := x); [|exact Hedge].
           apply Hreach. left. exact Hx.
  - destruct H as [Hk | Hk].
    + apply mem_set_known. apply Hreach. left. exact Hk.
    + rewrite Hqueue in Hk. destruct (mem id (paper_visited_set st)).
      * apply mem_set_known. apply Hreach. right. exact Hk.
      * apply in_app_or in Hk as [Hk | [<- | []]].
        -- apply mem_set_known. apply Hreach. right. exact Hk.
        -- apply mem_set_same.
  - intros v Hv Hne y Hy. apply mem_set_known. apply (Hclosed v Hv Hne y Hy).
  - exact Hx.
  - intros y [<- | Hy]; [apply mem_set_same|].
    apply mem_set_known. apply Hdone. exact Hy.
Qed.

Lemma expanding_for_body out_dir_name x done id :
  In id (neighbours seeds w x) ->
  triple (expanding w seeds x done) (for_body self w out_dir_name id)
    (fun _ => expanding w seeds x (id :: done)) (fun _ _ => True).
Proof.
  intros Hedge. apply triple_for_body. intros st r st' Hexp Hturn.
  destruct Hturn as [Hknown | | | p Hfresh Hget | p file_name Hfresh Hget | ];
    cbn [after]; auto.
  - destruct Hexp as (Hsound & Hclosed & Hx & Hdone).
    split; [exact Hsound|]. split; [exact Hclosed|]. split; [exact Hx|].
    intros y [<- | Hy]; auto.
  - apply expanding_step with (p := p) (st := st); auto;
      rewrite ?enqueue_unvisited_queue; store; reflexivity.
  - apply expanding_step with (p := p) (st := st); auto;
      rewrite ?enqueue_unvisited_queue; store; reflexivity.
Qed.

Lemma expanding_for out_dir_name x (ids : list string) :
  forall done,
    (forall id, In id ids -> In id (neighbours seeds w x)) ->
    triple (expanding w seeds x done) (for_related_paper_id self w out_dir_name ids)
      (fun _ => expanding w seeds x (rev ids ++ done)) (fun _ _ => True).
Proof.
  induction ids as [|id ids IH]; intros done Hedges; cbn [for_related_paper_id].
  - apply triple_ret. auto.
  - apply triple_bind with (Q1 := fun _ => expanding w seeds x (id :: done)).
    + apply expanding_for_body. apply Hedges. left. reflexivity.
    + intros _. cbn [rev]. rewrite <- app_assoc. cbn [app].
      apply IH. intros id' Hin. apply Hedges. right. exact Hin.
Qed.

(** The two calls of a turn, the record of [x] being [p]. *)
Lemma expanding_retrieve out_dir_name x p done (references_first : bool) :
  record_of seeds w x = Some p ->
  triple (expanding w seeds x done)
    (retrieve_body self w x
       (if references_first then "references" else "citations") out_dir_name)
    (fun _ =>
       expanding w seeds x
         (rev (related_ids (if references_first then references p
                            else citations p)) ++ done))
    (fun _ _ => True).
Proof.
  intros Hrecord st Hexp. unfold retrieve_body, bind at 1, read.
  destruct Hexp as (Hsound & Hrest).
  assert (Hentry : Dict.get (papers_dict st) x = Some p).
  { destruct Hsound as (Hagree & _ & _ & Hreach). destruct Hrest as (_ & Hx & _).
    destruct (mem_get (papers_dict st) x) as [q Hq].
    - apply Hreach. left. exact Hx.
    - rewrite Hq. f_equal. apply Hagree in Hq. congruence. }
  rewrite Hentry. cbn [subscript]. unfold bind at 1, ret.
  assert (Hneighbours : forall id,
             In id (related_ids (if references_first then references p
                                 else citations p)) ->
             In id (neighbours seeds w x)).
  { intros id Hid. unfold neighbours. rewrite Hrecord. apply in_or_app.
    destruct references_first; auto. }
  destruct references_first; cbn [relationship String.eqb Ascii.eqb Bool.eqb];
    unfold relationship; cbn [String.eqb Ascii.eqb Bool.eqb];
    match goal with
    | |- context [subscript ?field _] => destruct field as [l|] eqn:Hfield
    end; cbn [subscript]; unfold bind, ret, raise; cbn [after]; auto;
    cbn [related_ids] in *;
    apply (expanding_for out_dir_name x (related_papers_id_list l) done Hneighbours);
    split; assumption.
Qed.

Lemma at_loop_head_while_body out_dir_name current q :
  triple (fun st => at_loop_head w seeds st /\ paper_id_queue st = current :: q)
    (Completed.while_body self w out_dir_name current)
    (fun _ => at_loop_head w seeds) (fun _ _ => True).
Proof.
  intros st [[Hsound Hclosed] Hq].
  destruct Hsound as (Hagree & Hseeds & Hknown & Hreach).
  unfold Completed.while_body, bind at 1, update, bind at 1, read.
  cbn [paper_visited_set set_paper_id_queue].
  destruct (mem current (paper_visited_set st)) eqn:Hmarked; cbn [negb].
  - cbn [after ret]. split; [|exact Hclosed].
    unfold sound. cbn [papers_dict paper_visited_set paper_id_queue
                       set_paper_id_queue]. rewrite Hq. cbn [tl].
    repeat split; auto.
    + intros k Hk. destruct (Hknown k Hk) as [Hv | Hin]; [auto|].
      rewrite Hq in Hin. destruct Hin as [<- | Hin]; [|auto].
      left. apply mem_In. exact Hmarked.
    + apply Hreach. rewrite Hq. destruct H; [left | right; right]; assumption.
    + apply Hreach. rewrite Hq. destruct H; [left | right; right]; assumption.
  - unfold bind at 1. cbn [fst snd].
    set (st2 := set_paper_visited_set (paper_visited_set st ++ [current])
                  (set_paper_id_queue (tl (paper_id_queue st)) st)).
    assert (Hcurrent : reachable seeds w current /\
                       Dict.mem current (papers_dict st) = true).
    { apply Hreach. right. rewrite Hq. left. reflexivity. }
    destruct (mem_get (papers_dict st) current (proj2 Hcurrent)) as [p Hp].
    pose proof (Hagree _ _ Hp) as Hrecord.
    assert (Hexp : expanding w seeds current [] st2).
    { unfold expanding, sound, closed_except. subst st2.
      cbn [papers_dict paper_visited_set paper_id_queue
           set_paper_id_queue set_paper_visited_set]. rewrite Hq. cbn [tl].
      repeat split; auto.
      - intros k Hk. destruct (Hknown k Hk) as [Hv | Hin].
        + left. apply in_or_app. auto.
        + rewrite Hq in Hin. destruct Hin as [<- | Hin]; [|auto].
          left. apply in_or_app. right. left. reflexivity.
      - apply Hreach. rewrite Hq.
        destruct H as [H | H]; [apply in_app_or in H as [H | [<- | []]]|];
          [left | right; left | right; right]; auto.
      - apply Hreach. rewrite Hq.
        destruct H as [H | H]; [apply in_app_or in H as [H | [<- | []]]|];
          [left | right; left | right; right]; auto.
      - intros v Hv Hne. apply in_app_or in Hv as [Hv | [<- | []]].
        + apply Hclosed; [exact Hv | discriminate].
        + congruence.
      - apply in_or_app. right. left. reflexivity. }
    change (after (fun _ => at_loop_head w seeds) (fun _ _ => True)
              ((_retrieve_related_papers self w
                  [PyDict; PyStr current; PyStr "references"; PySet; PyDeque;
                   pyobj_of_dir out_dir_name] ;;;
                _retrieve_related_papers self w
                  [PyDict; PyStr current; PyStr "citations"; PySet; PyDeque;
                   pyobj_of_dir out_dir_name]) st2)).
    rewrite !retrieve_documented.
    revert Hexp. generalize st2. clear st2.
    fold (triple (expanding w seeds current [])
            (retrieve_body self w current "references" out_dir_name ;;;
             retrieve_body self w current "citations" out_dir_name)
            (fun _ => at_loop_head w seeds) (fun _ _ => True)).
    apply triple_bind
      with (Q1 := fun _ => expanding w seeds current (rev (related_ids (references p)) ++ [])).
    + apply (expanding_retrieve out_dir_name current p [] true Hrecord).
    + intros _ s Hs.
      pose proof (expanding_retrieve out_dir_name current p
                    (rev (related_ids (references p)) ++ []) false Hrecord s Hs)
        as Hcits.
      cbv beta iota in Hcits.
      destruct (retrieve_body self w current "citations" out_dir_name s)
        as [[[] | e | |] s']; cbn [after] in *; auto.
      destruct Hcits as (Hsound' & Hclosed' & Hx' & Hdone').
      split; [exact Hsound'|].
      intros v Hv _. destruct (string_dec v current) as [->|Hne].
      * intros y Hy. apply Hdone'. unfold neighbours in Hy.
        rewrite Hrecord in Hy. rewrite app_nil_r.
        apply in_or_app. apply in_app_or in Hy as [Hy | Hy];
          [right | left]; apply -> in_rev; exact Hy.
      * apply Hclosed'; [exact Hv | congruence].
Qed.

Lemma at_loop_head_while_queue out_dir_name fuel :
  triple (at_loop_head w seeds) (Completed.while_queue self w out_dir_name fuel)
    (fun _ st => at_loop_head w seeds st /\ paper_id_queue st = [])
    (fun _ _ => True).
Proof.
  induction fuel as [|fuel IH]; intros st Hhead; cbn [Completed.while_queue].
  - destruct (paper_id_queue st) eqn:Hq; cbn [after]; auto.
  - destruct (paper_id_queue st) as [|current q] eqn:Hq; [cbn [after]; auto|].
    assert (Hpre : at_loop_head w seeds st /\ paper_id_queue st = current :: q) by auto.
    revert st Hpre Hhead Hq. intros st Hpre _ _. revert st Hpre.
    fold (triple (fun st => at_loop_head w seeds st /\ paper_id_queue st = current :: q)
            (Completed.while_body self w out_dir_name current ;;;
             Completed.while_queue self w out_dir_name fuel)
            (fun _ st => at_loop_head w seeds st /\ paper_id_queue st = [])
            (fun _ _ => True)).
    apply triple_bind with (Q1 := fun _ => at_loop_head w seeds).
    + apply at_loop_head_while_body.
    + intros _. exact IH.
Qed.

Lemma at_loop_head_seeded dir : at_loop_head w seeds (seeded (initial seeds dir)).
Proof.
  unfold at_loop_head, sound, closed_except, seeded, initial.
  cbn [papers_dict paper_visited_set paper_id_queue set_paper_id_queue
       set_paper_visited_set].
  repeat split.
  - intros k p Hk. unfold record_of. rewrite Hk. reflexivity.
  - intros k Hk. apply mem_keys. exact Hk.
  - intros k Hk. right. apply mem_keys. exact Hk.
  - destruct H as [[] | Hk]. apply reachable_seed. exact Hk.
  - destruct H as [[] | Hk]. apply mem_keys. exact Hk.
  - intros v [].
Qed.

(** When the crawl with the call completed returns, it has visited the
    identifiers that are reachable from the seeds, and no other. *)
Lemma completed_reachability out_dir_name fuel dir st' :
  Completed.get_related_papers self w out_dir_name fuel (initial seeds dir) =
    (Returned tt, st') ->
  forall id, In id (paper_visited_set st') <-> reachable seeds w id.
Proof.
  rewrite completed_get_related_papers_seeded. intros Hrun.
  pose proof (at_loop_head_while_queue out_dir_name fuel
                (seeded (initial seeds dir)) (at_loop_head_seeded dir)) as H.
  rewrite Hrun in H. cbn [after] in H.
  destruct H as [[(Hagree & Hseeds & Hknown & Hreach) Hclosed] Hq].
  assert (Hvisited : forall k, Dict.mem k (papers_dict st') = true ->
                               In k (paper_visited_set st')).
  { intros k Hk. destruct (Hknown k Hk) as [Hv | Hin]; [exact Hv|].
    rewrite Hq in Hin. contradiction. }
  intros id. split.
  - intros Hid. apply Hreach. left. exact Hid.
  - induction 1 as [id Hseed | id id' Hid IH Hedge].
    + apply Hvisited, Hseeds. exact Hseed.
    + apply Hvisited. apply (Hclosed id IH); [discriminate | exact Hedge].
Qed.

End Reach.

(** On the diamond: the four papers are the reachable ones. *)
Example diamond_reachable :
  forall id,
    In id ["A"; "B"; "C"; "D"] <->
    reachable Fixtures.diamond_seeds Fixtures.diamond id.
Proof.
  apply (completed_reachability default_scrapper Fixtures.diamond
           Fixtures.diamond_seeds (Some "out") 4 []
           (snd (Completed.get_related_papers default_scrapper
                   Fixtures.diamond (Some "out") 4
                   (initial Fixtures.diamond_seeds [])))).
  vm_compute. reflexivity.
Qed.

(** ** The pause in the crawl *)

Lemma pauses_app (cooldown : Q) (tr1 tr2 : list event) :
  forall waited,
    pauses cooldown waited (tr1 ++ tr2) =
      match pauses cooldown waited tr1 with
      | Some waited' => pauses cooldown waited' tr2
      | None => None
      end.
Proof.
  induction tr1 as [|[url | seconds | file_name | what] tr1 IH]; intros waited;
    cbn [app pauses]; auto.
  destruct waited; auto.
Qed.

Section Pause.

Variable self : scrapper.

Lemma paused_pause_kept st : paused self st -> pause_kept self st.
Proof. unfold paused, pause_kept, cooldown_respected. intros ->. reflexivity. Qed.

Lemma paused_requested id st :
  paused self st ->
  pause_kept self (requested self id false st) /\
  paused self (requested self id true st).
Proof.
  unfold paused, pause_kept, cooldown_respected, requested. intros H.
  cbn [log trace]. rewrite <- app_assoc. rewrite !pauses_app, H.
  cbn [app pauses orb]. rewrite Qeq_bool_refl. auto.
Qed.

Lemma paused_for_body w out_dir_name id :
  triple (paused self) (for_body self w out_dir_name id)
    (fun _ => paused self) (fun _ => pause_kept self).
Proof.
  apply triple_for_body. intros st r st' Hpaused Hturn.
  destruct (paused_requested id st Hpaused) as [Hfailed Hanswered].
  destruct Hturn; cbn [after]; auto using paused_pause_kept.
  - unfold paused in *. store. exact Hanswered.
  - unfold paused in *. store. unfold written. cbn [log trace set_files].
    rewrite stored_trace, pauses_app, Hanswered. reflexivity.
Qed.

(** In the crawl every request comes after the pause that follows the
    request before it: a request that raises, the only one that is not
    followed by the pause, ends the crawl. *)
Lemma completed_crawl_pause_kept w out_dir_name fuel seeds dir :
  pause_kept self
    (snd (Completed.get_related_papers self w out_dir_name fuel
            (initial seeds dir))).
Proof.
  rewrite completed_get_related_papers_seeded.
  assert (H : triple (paused self)
                (Completed.while_queue self w out_dir_name fuel)
                (fun _ => paused self) (fun _ => pause_kept self)).
  { apply lift_completed_while_queue; auto using paused_pause_kept.
    intros. apply paused_for_body. }
  specialize (H (seeded (initial seeds dir)) eq_refl).
  destruct (Completed.while_queue _ _ _ _ _) as [[[] | e | |] st'];
    cbn [after snd] in *; auto using paused_pause_kept.
Qed.

End Pause.

(** The same records are kept by the crawl with the call completed. *)
Lemma completed_records_never_overwritten self w out_dir_name fuel st k v :
  Dict.get (papers_dict st) k = Some v ->
  Dict.get
    (papers_dict (snd (Completed.get_related_papers self w out_dir_name fuel st)))
    k = Some v.
Proof.
  intros Hk. rewrite completed_get_related_papers_seeded.
  apply (triple_always (keeps (papers_dict st))
           (Completed.while_queue self w out_dir_name fuel) (seeded st)).
  - apply keeps_crawl.
  - intros ? ? ?. assumption.
  - exact Hk.
Qed.

(** * Further properties *)

(** ** The persistence sink *)

Lemma lower_append (s t : string) :
  lower (s ++ t) = (lower s ++ lower t)%string.
Proof. induction s as [|c s IH]; cbn; [reflexivity|]. rewrite IH. reflexivity. Qed.

Lemma lower_char_idempotent (c : ascii) :
  lower_char (lower_char c) = lower_char c.
Proof. destruct c as [[] [] [] [] [] [] [] []]; reflexivity. Qed.

Lemma lower_idempotent (s : string) : lower (lower s) = lower s.
Proof.
  induction s as [|c s IH]; cbn; [reflexivity|].
  rewrite lower_char_idempotent, IH. reflexivity.
Qed.

Lemma is_word_char_lower_char (c : ascii) :
  is_word_char (lower_char c) = is_word_char c.
Proof. destruct c as [[] [] [] [] [] [] [] []]; reflexivity. Qed.

Lemma lower_join (l : list string) :
  lower (join "_" l) = join "_" (map lower l).
Proof.
  induction l as [|x l IH]; [reflexivity|].
  destruct l as [|y l]; [reflexivity|].
  change (join "_" (x :: y :: l)) with (x ++ "_" ++ join "_" (y :: l))%string.
  change (join "_" (map lower (x :: y :: l)))
    with (lower x ++ "_" ++ join "_" (map lower (y :: l)))%string.
  rewrite !lower_append, IH. reflexivity.
Qed.

Lemma rev_string_lower (run : list ascii) (acc : string) :
  rev_string (map lower_char run) (lower acc) = lower (rev_string run acc).
Proof.
  revert acc. induction run as [|c run IH]; intros acc; cbn; [reflexivity|].
  apply (IH (String c acc)).
Qed.

(** Lowering a string lowers its runs. *)
Lemma findall_scan_lower (s : string) :
  forall run,
    findall_scan (lower s) (map lower_char run) = map lower (findall_scan s run).
Proof.
  induction s as [|c s IH]; intros run; cbn [lower findall_scan].
  - destruct run as [|a run]; [reflexivity|].
    cbn [map]. f_equal. apply (rev_string_lower (a :: run) "").
  - rewrite is_word_char_lower_char. destruct (is_word_char c).
    + apply (IH (c :: run)).
    + destruct run as [|a run]; cbn [map].
      * apply (IH []).
      * f_equal; [apply (rev_string_lower (a :: run) "") | apply (IH [])].
Qed.

Lemma ascii_base_name_lower (t : string) :
  ascii_base_name (lower t) = ascii_base_name t.
Proof.
  unfold ascii_base_name, findall_word.
  pose proof (findall_scan_lower t []) as Hscan. cbn [map] in Hscan.
  rewrite Hscan, <- lower_join, lower_idempotent. reflexivity.
Qed.

(** X3. For ASCII titles the file name does not depend on the case of the
    title: a record whose title is the lowercased title of another gets the
    same name. *)
Theorem file_name_ignores_case :
  forall w p p' d t st,
    title p = Some t ->
    is_ascii t = true ->
    title p' = Some (lower t) ->
    create_json_file_name w p' d st = create_json_file_name w p d st.
Proof.
  intros w p p' d t st Ht Hascii Ht'.
  rewrite (create_json_file_name_titled w p d t st Ht).
  rewrite (create_json_file_name_titled w p' d (lower t) st Ht').
  unfold file_name_of.
  rewrite (base_name_ascii w t Hascii).
  rewrite (base_name_ascii w (lower t) (is_ascii_lower t Hascii)).
  rewrite ascii_base_name_lower. reflexivity.
Qed.

(** X3 at an input. *)
Lemma file_name_ignores_case_witness :
  create_json_file_name offline (titled "attention is all you need") "out"
    (initial [] []) =
  create_json_file_name offline (titled "Attention Is All You Need") "out"
    (initial [] []).
Proof.
  exact (file_name_ignores_case offline (titled "Attention Is All You Need")
           (titled "attention is all you need") "out"
           "Attention Is All You Need" (initial [] []) eq_refl eq_refl eq_refl).
Defined.

Lemma is_slug_char_lower_char (c : ascii) :
  is_word_char c = true -> is_slug_char (lower_char c) = true.
Proof. destruct c as [[] [] [] [] [] [] [] []]; vm_compute; congruence. Qed.

Lemma is_slug_char_word (c : ascii) :
  is_slug_char c = true -> is_word_char c = true /\ lower_char c = c.
Proof. destruct c as [[] [] [] [] [] [] [] []]; vm_compute; auto; congruence. Qed.

Lemma join_word_chars (l : list string) :
  Forall (fun run => run <> EmptyString /\ all_chars is_word_char run = true) l ->
  all_chars is_word_char (join "_" l) = true.
Proof.
  induction 1 as [|x l [_ Hx] Hl IH]; [reflexivity|].
  destruct l as [|y l]; [exact Hx|].
  change (join "_" (x :: y :: l)) with (x ++ "_" ++ join "_" (y :: l))%string.
  rewrite !all_chars_append, Hx, IH. reflexivity.
Qed.

Lemma lower_slug_chars (s : string) :
  all_chars is_word_char s = true -> all_chars is_slug_char (lower s) = true.
Proof.
  induction s as [|c s IH]; cbn; [reflexivity|].
  intros H. apply andb_true_iff in H as [Hc Hs].
  rewrite (is_slug_char_lower_char c Hc), IH by assumption. reflexivity.
Qed.

Lemma slice_to_all_chars (P : ascii -> bool) (n : nat) (s : string) :
  all_chars P s = true -> all_chars P (slice_to n s) = true.
Proof.
  revert s. induction n as [|n IH]; intros [|c s]; cbn; auto.
  intros H. apply andb_true_iff in H as [Hc Hs].
  rewrite Hc, IH by assumption. reflexivity.
Qed.

Lemma slice_to_short (n : nat) (s : string) :
  (String.length s <= n)%nat -> slice_to n s = s.
Proof.
  revert s. induction n as [|n IH]; intros [|c s]; cbn; auto; try lia.
  intros H. rewrite IH by lia. reflexivity.
Qed.

(** The characters of the base name of an ASCII title. *)
Lemma ascii_base_name_chars (t : string) :
  all_chars is_slug_char (ascii_base_name t) = true.
Proof.
  unfold ascii_base_name. apply slice_to_all_chars, lower_slug_chars, join_word_chars.
  apply (word_runs_Forall t). apply findall_word_runs.
Qed.

Lemma lower_slug (s : string) :
  all_chars is_slug_char s = true ->
  all_chars is_word_char s = true /\ lower s = s.
Proof.
  induction s as [|c s IH]; cbn; [auto|].
  intros H. apply andb_true_iff in H as [Hc Hs].
  destruct (is_slug_char_word c Hc) as [Hword Hlower].
  destruct (IH Hs) as [Hwords Hlowers].
  rewrite Hword, Hwords, Hlower, Hlowers. auto.
Qed.

(** A string of at most 50 characters that are lowercase letters, digits or
    underscores is its own base name. *)
Lemma ascii_base_name_of_slug (s : string) :
  all_chars is_slug_char s = true -> (String.length s <= 50)%nat ->
  ascii_base_name s = s.
Proof.
  intros Hslug Hlen. destruct (lower_slug s Hslug) as [Hword Hlower].
  destruct s as [|c s]; [reflexivity|].
  unfold ascii_base_name, findall_word.
  pose proof (findall_scan_in_run (String c s) "" [] Hword I
                (or_intror (fun H => eq_ind (String c s)
                   (fun x => match x with EmptyString => False | _ => True end)
                   I EmptyString H))) as Hscan.
  rewrite append_empty in Hscan. rewrite Hscan.
  cbn [rev_string findall_scan join String.append].
  rewrite Hlower. apply slice_to_short. exact Hlen.
Qed.

(** X4. For ASCII titles deriving a file name is idempotent: a record
    whose title is the base name derived from the title [t] gets the file
    name of [t]. *)
Theorem file_name_of_base_name :
  forall w p p' d t st,
    title p = Some t ->
    is_ascii t = true ->
    title p' = Some (base_name w t) ->
    create_json_file_name w p' d st = create_json_file_name w p d st.
Proof.
  intros w p p' d t st Ht Hascii Ht'.
  rewrite (create_json_file_name_titled w p d t st Ht).
  rewrite (create_json_file_name_titled w p' d _ st Ht').
  unfold file_name_of.
  rewrite (base_name_ascii w t Hascii).
  pose proof (ascii_base_name_chars t) as Hslug.
  rewrite base_name_ascii
    by (apply is_ascii_word, (lower_slug _ Hslug)).
  rewrite (ascii_base_name_of_slug _ Hslug); [reflexivity|].
  unfold ascii_base_name. apply slice_to_length.
Qed.

(** X4 at an input. *)
Lemma file_name_of_base_name_witness :
  create_json_file_name offline (titled "deep_learning") "out" (initial [] []) =
  create_json_file_name offline (titled "Deep Learning!") "out" (initial [] []).
Proof.
  exact (file_name_of_base_name offline (titled "Deep Learning!")
           (titled "deep_learning") "out" "Deep Learning!" (initial [] [])
           eq_refl eq_refl eq_refl).
Defined.

(** X5. For a record with an ASCII title the file name is the directory
    name, joined by [os.path.join] to a base of at most 50 characters, all
    of them lowercase letters, digits or underscores (no slash, no dot, no
    space, no capital), and [.json]. *)
Theorem file_name_characters :
  forall w p d t st,
    title p = Some t ->
    is_ascii t = true ->
    exists base,
      create_json_file_name w p d st =
        (Returned (os_path_join d base ++ ".json")%string, st) /\
      all_chars is_slug_char base = true /\
      (String.length base <= 50)%nat.
Proof.
  intros w p d t st Ht Hascii. exists (ascii_base_name t). split; [|split].
  - rewrite (create_json_file_name_titled w p d t st Ht).
    unfold file_name_of. rewrite (base_name_ascii w t Hascii). reflexivity.
  - apply ascii_base_name_chars.
  - unfold ascii_base_name. apply slice_to_length.
Qed.

(** X5 at an input. *)
Lemma file_name_characters_witness :
  exists base,
    create_json_file_name offline attention "out" (initial [] []) =
      (Returned (os_path_join "out" base ++ ".json")%string, initial [] []) /\
    all_chars is_slug_char base = true /\
    (String.length base <= 50)%nat.
Proof.
  exact (file_name_characters offline attention "out"
           "Attention Is All You Need: Transformer Models!!" (initial [] [])
           eq_refl eq_refl).
Defined.

Lemma lower_empty (s : string) : lower s = EmptyString -> s = EmptyString.
Proof. destruct s; [reflexivity | discriminate]. Qed.

Lemma slice_to_empty (n : nat) (s : string) :
  slice_to (S n) s = EmptyString -> s = EmptyString.
Proof. destruct s; [reflexivity | discriminate]. Qed.

Lemma word_runs_none (t : string) :
  word_runs t [] -> all_chars non_word_char t = true.
Proof. inversion 1. assumption. Qed.

Lemma ascii_base_name_empty (t : string) :
  ascii_base_name t = EmptyString <-> all_chars non_word_char t = true.
Proof.
  split.
  - unfold ascii_base_name. intros H.
    apply slice_to_empty, lower_empty in H.
    pose proof (findall_word_runs t) as Hruns.
    pose proof (word_runs_Forall t _ Hruns) as Hall.
    destruct (findall_word t) as [|run runs]; [apply word_runs_none; exact Hruns|].
    inversion Hall as [|? ? [Hne _] _]; subst.
    destruct run as [|c run]; [congruence|].
    destruct runs; discriminate.
  - intros H. unfold ascii_base_name, findall_word.
    pose proof (findall_scan_in_gap t "" H) as Hscan.
    rewrite append_empty in Hscan. rewrite Hscan. reflexivity.
Qed.

(** X6. For a record with an ASCII title the base name is empty exactly
    when the title has no letter, digit or underscore, and
    [create_json_file_name] then returns the name [.json] in the
    directory. *)
Theorem base_name_empty :
  forall w p d t st,
    title p = Some t ->
    is_ascii t = true ->
    (base_name w t = EmptyString <-> all_chars non_word_char t = true) /\
    (all_chars non_word_char t = true ->
     create_json_file_name w p d st =
       (Returned (os_path_join d "" ++ ".json")%string, st)).
Proof.
  intros w p d t st Ht Hascii.
  rewrite (base_name_ascii w t Hascii).
  split; [apply ascii_base_name_empty|].
  intros Hnone.
  rewrite (create_json_file_name_titled w p d t st Ht).
  unfold file_name_of. rewrite (base_name_ascii w t Hascii).
  rewrite (proj2 (ascii_base_name_empty t) Hnone). reflexivity.
Qed.

(** X6 at an input: a title of punctuation. *)
Lemma base_name_empty_witness :
  create_json_file_name offline (titled "?!") "out" (initial [] []) =
    (Returned "out/.json", initial [] []).
Proof.
  exact (proj2 (base_name_empty offline (titled "?!") "out" "?!" (initial [] [])
                  eq_refl eq_refl) eq_refl).
Defined.

(** X1. Two records saved one after the other in one directory: the second
    is in its file; the first is in its file unless the two names are the
    same, in which case the second has replaced it; no other file changes. *)
Theorem save_json_twice :
  forall w p1 p2 d t1 t2 st,
    title p1 = Some t1 ->
    title p2 = Some t2 ->
    can_open w (file_name_of w d t1) = true ->
    can_open w (file_name_of w d t2) = true ->
    exists st',
      save_both w p1 p2 d st = (Returned tt, st') /\
      Dict.get (files st') (file_name_of w d t2) = Some p2 /\
      Dict.get (files st') (file_name_of w d t1) =
        Some (if file_name_of w d t1 =? file_name_of w d t2 then p2 else p1) /\
      forall other,
        other <> file_name_of w d t1 -> other <> file_name_of w d t2 ->
        Dict.get (files st') other = Dict.get (files st) other.
Proof.
  intros w p1 p2 d t1 t2 st Ht1 Ht2 Hopen1 Hopen2.
  pose proof (save_json_cases w p1 d st) as Hsave1.
  rewrite Ht1 in Hsave1. cbv zeta in Hsave1.
  fold (file_name_of w d t1) in Hsave1. rewrite Hopen1 in Hsave1.
  unfold save_both. rewrite (bind_returned _ Hsave1).
  rewrite save_json_cases, Ht2. cbv zeta.
  fold (file_name_of w d t2). rewrite Hopen2.
  eexists. split; [reflexivity|]. cbn [files log set_files].
  split; [apply get_set_same|]. split.
  - destruct (String.eqb_spec (file_name_of w d t1) (file_name_of w d t2))
      as [Heq|Hne].
    + rewrite Heq. apply get_set_same.
    + rewrite get_set_other by assumption. apply get_set_same.
  - intros other Hne1 Hne2. rewrite !get_set_other by assumption. reflexivity.
Qed.

(** X1 at an input: two titles that differ in case and punctuation. *)
Lemma save_json_twice_witness :
  exists st',
    save_both (Fixtures.static []) (titled "Deep Learning") (titled "deep-learning!")
      "out" (initial [] []) = (Returned tt, st') /\
    Dict.get (files st') (file_name_of offline "out" "deep-learning!") =
      Some (titled "deep-learning!") /\
    Dict.get (files st') (file_name_of offline "out" "Deep Learning") =
      Some (if file_name_of offline "out" "Deep Learning" =?
               file_name_of offline "out" "deep-learning!"
            then titled "deep-learning!" else titled "Deep Learning") /\
    forall other,
      other <> file_name_of offline "out" "Deep Learning" ->
      other <> file_name_of offline "out" "deep-learning!" ->
      Dict.get (files st') other = Dict.get (files (initial [] [])) other.
Proof.
  exact (save_json_twice (Fixtures.static []) (titled "Deep Learning")
           (titled "deep-learning!") "out" "Deep Learning" "deep-learning!"
           (initial [] []) eq_refl eq_refl eq_refl eq_refl).
Defined.

(** ** One turn of the [for] loop *)



(** ** Calls of [_retrieve_related_papers] *)

(** X7. A call for an identifier that [papers_dict] does not hold raises
    [KeyError] with that identifier, and a call for a record without the
    list asked for raises [KeyError] with the name of the list; the store is
    as it was. *)
Theorem retrieve_missing_key :
  forall self w paper_id relationship_type out_dir_name st key,
    missing_key st paper_id relationship_type = Some key ->
    _retrieve_related_papers self w
      (documented paper_id relationship_type out_dir_name) st =
      (Raised (KeyError key), st).
Proof.
  intros self w paper_id relationship_type out_dir_name st key Hkey.
  unfold documented. rewrite retrieve_documented.
  unfold missing_key in Hkey. unfold retrieve_body, bind at 1, read.
  destruct (Dict.get (papers_dict st) paper_id) as [p|]; cbn [subscript].
  - unfold bind at 1, ret, bind at 1, relationship.
    destruct (relationship_type =? "references").
    + destruct (references p); [discriminate|]. injection Hkey as <-. reflexivity.
    + destruct (relationship_type =? "citations"); [|discriminate].
      destruct (citations p); [discriminate|]. injection Hkey as <-. reflexivity.
  - injection Hkey as <-. reflexivity.
Qed.

(** X7 at an input: the citations of a paper that is not stored. *)
Lemma retrieve_missing_key_witness :
  _retrieve_related_papers default_scrapper Fixtures.diamond
    (documented "Z" "citations" None) (initial Fixtures.diamond_seeds []) =
    (Raised (KeyError "Z"), initial Fixtures.diamond_seeds []).
Proof.
  exact (retrieve_missing_key default_scrapper Fixtures.diamond "Z" "citations"
           None (initial Fixtures.diamond_seeds []) "Z" eq_refl).
Defined.

Lemma write_count_app (tr1 tr2 : list event) :
  write_count (tr1 ++ tr2) = write_count tr1 + write_count tr2.
Proof. induction tr1 as [|[] tr1 IH]; cbn; auto. Qed.

Lemma request_count_app (tr1 tr2 : list event) :
  request_count (tr1 ++ tr2) = request_count tr1 + request_count tr2.
Proof. induction tr1 as [|[] tr1 IH]; cbn; auto. Qed.

Lemma requested_write_count self id answered st :
  write_count (trace (requested self id answered st)) = write_count (trace st).
Proof.
  unfold requested. destruct answered; cbn [log trace];
    rewrite !write_count_app; cbn; lia.
Qed.

(** Without a directory a turn of the [for] loop writes nothing. *)
Lemma for_body_no_directory self w id (files0 : dict paper) (n : nat) :
  triple (fun st => files st = files0 /\ write_count (trace st) = n)
    (for_body self w None id)
    (fun _ st => files st = files0 /\ write_count (trace st) = n)
    (fun _ st => files st = files0 /\ write_count (trace st) = n).
Proof.
  intros st [Hfiles Hcount].
  destruct (Dict.mem id (papers_dict st)) eqn:Hknown.
  - rewrite for_body_known by assumption. cbn [after]. auto.
  - rewrite for_body_unknown by assumption.
    pose proof (requested_write_count self id true st) as Htrue.
    pose proof (requested_write_count self id false st) as Hfalse.
    unfold requested in Htrue, Hfalse.
    destruct (requests_get w (json_url_of id)) as [|[p|]]; cbn [after].
    + split; [exact Hfiles | congruence].
    + unfold persist_and_enqueue.
      rewrite (bind_returned (c := ret tt) _ (a := tt) eq_refl).
      rewrite enqueue_unvisited_run. cbn [after].
      rewrite enqueue_unvisited_files, enqueue_unvisited_trace.
      split; [exact Hfiles | cbn [stored set_papers_dict trace] in *; congruence].
    + split; [exact Hfiles | congruence].
Qed.

Lemma for_related_no_directory self w (files0 : dict paper) (n : nat) ids :
  triple (fun st => files st = files0 /\ write_count (trace st) = n)
    (for_related_paper_id self w None ids)
    (fun _ st => files st = files0 /\ write_count (trace st) = n)
    (fun _ st => files st = files0 /\ write_count (trace st) = n).
Proof.
  induction ids as [|id ids IH]; cbn [for_related_paper_id].
  - apply triple_ret. auto.
  - eapply triple_bind; [apply for_body_no_directory|].
    intros u. exact IH.
Qed.

(** X8. A call without an output directory ([out_dir_name] is [None], the
    default) writes no file, whatever it fetches and however it ends. *)
Theorem retrieve_without_directory :
  forall self w paper_id relationship_type st,
    let st' :=
      snd (_retrieve_related_papers self w
             (documented paper_id relationship_type None) st) in
    files st' = files st /\
    write_count (trace st') = write_count (trace st).
Proof.
  intros self w paper_id relationship_type st. cbv zeta.
  unfold documented. rewrite retrieve_documented.
  set (I := fun s : state =>
              files s = files st /\
              write_count (trace s) = write_count (trace st)).
  apply (triple_always I); [|split; reflexivity].
  unfold retrieve_body.
  apply triple_bind with (Q1 := fun _ => I); [apply triple_read; auto|].
  intros entry.
  apply triple_bind with (Q1 := fun _ => I); [apply triple_subscript; auto|].
  intros paper_dict.
  apply triple_bind with (Q1 := fun _ => I);
    [|intros related; apply for_related_no_directory].
  unfold relationship.
  destruct (relationship_type =? "references"); [apply triple_subscript; auto|].
  destruct (relationship_type =? "citations"); [apply triple_subscript; auto|].
  apply triple_ill_typed. auto.
Qed.

Lemma known_for_body self w out_dir_name id done :
  triple (known done) (for_body self w out_dir_name id)
    (fun _ => known (id :: done)) (fun _ _ => True).
Proof.
  apply triple_for_body. intros st r st' Hknown Hturn.
  destruct Hturn; cbn [after]; auto; intros y [<- | Hy]; store;
    auto using mem_set_same, mem_set_known.
Qed.

Lemma known_for_related self w out_dir_name ids :
  forall done,
    triple (known done) (for_related_paper_id self w out_dir_name ids)
      (fun _ => known (rev ids ++ done)) (fun _ _ => True).
Proof.
  induction ids as [|id ids IH]; intros done; cbn [for_related_paper_id].
  - apply triple_ret. auto.
  - apply triple_bind with (Q1 := fun _ => known (id :: done)).
    + apply known_for_body.
    + intros u. cbn [rev]. rewrite <- app_assoc. apply IH.
Qed.

(** What [retrieve_body] comes to for a stored record. *)
Lemma retrieve_body_stored self w paper_id relationship_type out_dir_name st p :
  Dict.get (papers_dict st) paper_id = Some p ->
  retrieve_body self w paper_id relationship_type out_dir_name st =
    (related <- relationship relationship_type p ;;
     for_related_paper_id self w out_dir_name (related_papers_id_list related)) st.
Proof.
  intros Hp. unfold retrieve_body, bind at 1, read. rewrite Hp.
  cbn [subscript]. reflexivity.
Qed.

Lemma relationship_returns relationship_type p st related st' :
  relationship relationship_type p st = (Returned related, st') ->
  relationship_field relationship_type p = Some related /\ st' = st.
Proof.
  unfold relationship, relationship_field.
  destruct (relationship_type =? "references").
  - destruct (references p); cbn; intros H; inversion H; auto.
  - destruct (relationship_type =? "citations"); [|discriminate].
    destruct (citations p); cbn; intros H; inversion H; auto.
Qed.

(** A call that returns ran the [for] loop over the identifiers of the
    list asked for, from the store of the call. *)
Lemma retrieve_returns self w paper_id relationship_type out_dir_name st p :
  Dict.get (papers_dict st) paper_id = Some p ->
  fst (retrieve_body self w paper_id relationship_type out_dir_name st) =
    Returned tt ->
  exists related,
    relationship_field relationship_type p = Some related /\
    retrieve_body self w paper_id relationship_type out_dir_name st =
      for_related_paper_id self w out_dir_name
        (related_papers_id_list related) st.
Proof.
  intros Hp Hret.
  rewrite (retrieve_body_stored self w paper_id relationship_type out_dir_name
             st p Hp) in *.
  unfold bind in *.
  destruct (relationship relationship_type p st) as [[related | e | |] s] eqn:Hrel;
    try discriminate.
  destruct (relationship_returns relationship_type p st related s Hrel)
    as [Hfield ->].
  exists related. auto.
Qed.

(** X9. When a call returns, every identifier of the list it was asked to
    expand (the empty ones apart) is a key of [papers_dict]. *)
Theorem retrieve_stores_related :
  forall self w paper_id relationship_type out_dir_name st p,
    let run :=
      _retrieve_related_papers self w
        (documented paper_id relationship_type out_dir_name) st in
    Dict.get (papers_dict st) paper_id = Some p ->
    fst run = Returned tt ->
    forall id,
      In id (related_ids (relationship_field relationship_type p)) ->
      Dict.mem id (papers_dict (snd run)) = true.
Proof.
  intros self w paper_id relationship_type out_dir_name st p run Hp Hret id Hid.
  subst run. unfold documented in *. rewrite retrieve_documented in *.
  destruct (retrieve_returns self w paper_id relationship_type out_dir_name
              st p Hp Hret) as [related [Hfield Hrun]].
  rewrite Hrun in *. rewrite Hfield in Hid. cbn [related_ids] in Hid.
  pose proof (known_for_related self w out_dir_name
                (related_papers_id_list related) [] st) as H.
  assert (Hnone : known [] st) by (intros y []).
  specialize (H Hnone).
  destruct (for_related_paper_id _ _ _ _ st) as [[[] | e | |] s];
    try discriminate.
  cbn [after snd] in *. apply H. apply in_or_app. left.
  apply -> in_rev. exact Hid.
Qed.

(** X9 at an input: the references of the seed of the diamond. *)
Lemma retrieve_stores_related_witness :
  Dict.mem "C"
    (papers_dict
       (snd (_retrieve_related_papers default_scrapper Fixtures.diamond
               (documented "A" "references" None)
               (initial Fixtures.diamond_seeds [])))) = true.
Proof.
  exact (retrieve_stores_related default_scrapper Fixtures.diamond "A"
           "references" None (initial Fixtures.diamond_seeds []) Fixtures.A
           eq_refl eq_refl "C" (or_intror (or_introl eq_refl))).
Defined.

Lemma enqueued_since_refl st : enqueued_since st st.
Proof.
  unfold enqueued_since. repeat split; auto.
  exists []. rewrite app_nil_r. repeat split; [constructor | contradiction..].
Qed.

Lemma enqueued_since_stored st0 st id p s :
  enqueued_since st0 st ->
  Dict.mem id (papers_dict st) = false ->
  papers_dict s = Dict.set (papers_dict st) id p ->
  paper_visited_set s = paper_visited_set st ->
  paper_id_queue s = paper_id_queue st ->
  enqueued_since st0 (enqueue_unvisited id s).
Proof.
  intros (Hvisited & Hmono & new & Hqueue & Hnodup & Hnew) Hfresh Hdict Hv Hq.
  unfold enqueued_since.
  rewrite enqueue_unvisited_papers_dict, enqueue_unvisited_visited,
    enqueue_unvisited_queue, Hdict, Hv, Hq.
  split; [exact Hvisited|]. split.
  { intros k Hk. apply mem_set_known. apply Hmono. exact Hk. }
  assert (Hold : forall x, In x new ->
            Dict.mem x (papers_dict st0) = false /\
            Dict.mem x (Dict.set (papers_dict st) id p) = true /\
            mem x (paper_visited_set st0) = false).
  { intros x Hx. destruct (Hnew x Hx) as (H0 & H1 & H2).
    repeat split; auto using mem_set_known. }
  destruct (mem id (paper_visited_set st)) eqn:Hmarked.
  - exists new. auto.
  - exists (new ++ [id]). rewrite Hqueue, app_assoc. split; [reflexivity|]. split.
    + apply NoDup_app; [exact Hnodup | repeat constructor; intros [] |].
      intros x Hx [<- | []]. destruct (Hnew _ Hx) as (_ & H1 & _). congruence.
    + intros x Hx. apply in_app_or in Hx as [Hx | [<- | []]]; [auto|].
      repeat split.
      * destruct (Dict.mem id (papers_dict st0)) eqn:H0; [|reflexivity].
        apply Hmono in H0. congruence.
      * apply mem_set_same.
      * rewrite <- Hvisited. exact Hmarked.
Qed.

Lemma enqueued_since_for_body self w out_dir_name st0 id :
  triple (enqueued_since st0) (for_body self w out_dir_name id)
    (fun _ => enqueued_since st0) (fun _ => enqueued_since st0).
Proof.
  apply triple_for_body. intros st r st' Hsince Hturn.
  destruct Hturn as [Hknown | Hfresh Hget | Hfresh Hget | p Hfresh Hget
                    | p file_name Hfresh Hget | p e Hfresh Hget];
    cbn [after]; auto.
  - apply enqueued_since_stored with (st := st) (p := p); auto; store;
      reflexivity.
  - apply enqueued_since_stored with (st := st) (p := p); auto; store;
      reflexivity.
  - destruct Hsince as (Hv & Hmono & new & Hqueue & Hnodup & Hnew).
    unfold enqueued_since. store. split; [exact Hv|]. split.
    + intros k Hk. apply mem_set_known. auto.
    + exists new. repeat split; auto; try apply Hnew; auto.
      apply mem_set_known. apply Hnew. assumption.
Qed.

(** X10. Whatever its arguments and however it ends, a call of
    [_retrieve_related_papers] leaves the visited set alone and only appends
    to the queue: what was in the queue is still there, in the same order,
    and what was appended are identifiers that were neither in [papers_dict]
    nor in the visited set, each once, and that are in [papers_dict] now. *)
Theorem retrieve_only_appends :
  forall self w args st,
    enqueued_since st (snd (_retrieve_related_papers self w args st)).
Proof.
  intros self w args st. apply (triple_always (enqueued_since st)).
  - apply lift_retrieve; auto. intros. apply enqueued_since_for_body.
  - apply enqueued_since_refl.
Qed.

Lemma for_related_all_known self w out_dir_name ids st :
  known ids st ->
  for_related_paper_id self w out_dir_name ids st = (Returned tt, st).
Proof.
  induction ids as [|id ids IH]; intros Hknown; cbn [for_related_paper_id].
  - reflexivity.
  - assert (Hid : for_body self w out_dir_name id st = (Returned tt, st)).
    { apply for_body_known. apply Hknown. left. reflexivity. }
    rewrite (bind_returned _ Hid). apply IH.
    intros y Hy. apply Hknown. right. exact Hy.
Qed.

Lemma relationship_of_field relationship_type p related st :
  relationship_field relationship_type p = Some related ->
  relationship relationship_type p st = (Returned related, st).
Proof.
  unfold relationship, relationship_field.
  destruct (relationship_type =? "references"); [intros ->; reflexivity|].
  destruct (relationship_type =? "citations"); [intros ->; reflexivity|].
  discriminate.
Qed.

Lemma retrieve_body_again self w paper_id relationship_type out_dir_name st :
  let run := retrieve_body self w paper_id relationship_type out_dir_name st in
  fst run = Returned tt ->
  retrieve_body self w paper_id relationship_type out_dir_name (snd run) =
    (Returned tt, snd run).
Proof.
  intros run Hret. subst run.
  destruct (Dict.get (papers_dict st) paper_id) as [p|] eqn:Hp.
  - destruct (retrieve_returns self w paper_id relationship_type out_dir_name
                st p Hp Hret) as [related [Hfield Hrun]].
    assert (Hkept : Dict.get
              (papers_dict
                 (snd (retrieve_body self w paper_id relationship_type
                         out_dir_name st))) paper_id = Some p).
    { apply (triple_always (keeps (papers_dict st))
               (retrieve_body self w paper_id relationship_type out_dir_name) st).
      - apply lift_retrieve_body; auto. intros. apply keeps_for_body.
      - intros ? ? H. exact H.
      - exact Hp. }
    rewrite (retrieve_body_stored self w paper_id relationship_type
               out_dir_name _ p Hkept).
    erewrite bind_returned by (apply relationship_of_field; exact Hfield).
    apply for_related_all_known. rewrite Hrun in *.
    pose proof (known_for_related self w out_dir_name
                  (related_papers_id_list related) [] st) as H.
    assert (Hnone : known [] st) by (intros y []).
    specialize (H Hnone).
    destruct (for_related_paper_id _ _ _ _ st) as [[[] | e | |] s];
      try discriminate.
    cbn [after snd] in *. intros y Hy. apply H. apply in_or_app. left.
    apply -> in_rev. exact Hy.
  - unfold retrieve_body, bind at 1, read in Hret. rewrite Hp in Hret.
    discriminate.
Qed.

(** X11. A call that returned has nothing left to do: made again from the
    store it left, with the same arguments, it returns without a request
    and leaves the store as it is. *)
Theorem retrieve_again :
  forall self w args st,
    let run := _retrieve_related_papers self w args st in
    fst run = Returned tt ->
    _retrieve_related_papers self w args (snd run) = (Returned tt, snd run).
Proof.
  intros self w args st run Hret. subst run.
  destruct (retrieve_cases self w args) as [[e H] | [H | [p [r [o H]]]]];
    rewrite H in *; try discriminate.
  apply retrieve_body_again. exact Hret.
Qed.

(** X11 at an input: the references of the seed of the diamond, twice. *)
Lemma retrieve_again_witness :
  let st' :=
    snd (_retrieve_related_papers default_scrapper Fixtures.diamond
           (documented "A" "references" (Some "out"))
           (initial Fixtures.diamond_seeds [])) in
  _retrieve_related_papers default_scrapper Fixtures.diamond
    (documented "A" "references" (Some "out")) st' = (Returned tt, st').
Proof.
  exact (retrieve_again default_scrapper Fixtures.diamond
           (documented "A" "references" (Some "out"))
           (initial Fixtures.diamond_seeds []) eq_refl).
Defined.

(** ** [get_related_papers] on the empty dictionary *)

(** X12. [get_related_papers] returns exactly when [papers_dict] is empty,
    and it has then made no request and written no file. *)
Theorem get_related_papers_returns_iff_empty :
  forall self w out_dir_name fuel st,
    let run := get_related_papers self w out_dir_name (S fuel) st in
    (fst run = Returned tt <-> papers_dict st = []) /\
    (papers_dict st = [] ->
     trace (snd run) = trace st /\ files (snd run) = files st).
Proof.
  intros self w out_dir_name fuel st. cbv zeta.
  rewrite get_related_papers_run.
  destruct (papers_dict st) as [|[k p] d]; cbn.
  - repeat split; auto.
  - repeat split; intros; discriminate.
Qed.

(** ** The seed resolver: the identifier in the address *)

Lemma last_segment_append (a b seg : string) :
  last_segment (a ++ b) seg = last_segment b (last_segment a seg).
Proof.
  revert seg. induction a as [|c a IH]; intros seg; cbn; [reflexivity|].
  destruct (Ascii.eqb c "/"); apply IH.
Qed.

Lemma last_segment_no_slash (t seg : string) :
  no_slash t = true -> last_segment t seg = (seg ++ t)%string.
Proof.
  unfold no_slash. revert seg. induction t as [|c t IH]; intros seg; cbn.
  - intros _. rewrite append_empty. reflexivity.
  - intros H. apply andb_true_iff in H as [Hc Ht].
    apply negb_true_iff in Hc. rewrite Hc, (IH _ Ht), append_assoc.
    reflexivity.
Qed.

Lemma last_segment_after_slash (prefix tail : string) :
  no_slash tail = true ->
  last_segment (prefix ++ "/" ++ tail) "" = tail.
Proof.
  intros Htail. rewrite last_segment_append. cbn [String.append last_segment].
  cbn [Ascii.eqb Bool.eqb]. apply (last_segment_no_slash tail "" Htail).
Qed.

(** X13. The identifier taken from the address of the page is the first
    run of word characters in what follows the last slash; when there is
    none (the address ends with a slash, say) the method raises
    [IndexError]. *)
Theorem paper_id_from_current_url :
  forall w searched prefix tail st,
    current_url (browser w) searched = (prefix ++ "/" ++ tail)%string ->
    no_slash tail = true ->
    _get_paper_id_from_current_url w searched st =
      match findall_word tail with
      | id :: _ => (Returned id, st)
      | [] => (Raised IndexError, st)
      end.
Proof.
  intros w searched prefix tail st Hurl Htail.
  unfold _get_paper_id_from_current_url.
  rewrite Hurl, (last_segment_after_slash prefix tail Htail).
  destruct (findall_word tail); reflexivity.
Qed.

(** X13 at an input: an address with a query. *)
Lemma paper_id_from_current_url_witness :
  _get_paper_id_from_current_url flaky "Second" (initial [] []) =
    (Returned "id2", initial [] []).
Proof.
  exact (paper_id_from_current_url flaky "Second"
           "https://www.semanticscholar.org/paper/Second" "id2" (initial [] [])
           eq_refl eq_refl).
Defined.

(** ** The seed resolver: the check of the title *)

(** X15. [_check_paper_page] returns exactly when the wait for an [h1]
    element does not raise, an element with the selector
    [paper-detail-title] exists, and the distance between the requested
    title and the text of the first such element is between 0 and 10. *)
Theorem check_paper_page_accepts :
  forall w paper_title st,
    fst (_check_paper_page w paper_title st) = Returned tt <->
    h1_wait (browser w) paper_title = None /\
    exists h1 others,
      paper_detail_titles w paper_title = h1 :: others /\
      (0 <= levenshtein w paper_title (h1_text h1) <= 10)%Z.
Proof.
  intros w paper_title st.
  unfold _check_paper_page, bind at 1, driver, paper_detail_titles.
  destruct (h1_wait (browser w) paper_title) as [e|].
  - split; [discriminate | intros [H _]; discriminate].
  - unfold bind at 1.
    destruct (filter _ (h1_list (browser w) paper_title)) as [|h1 others];
      cbn [first].
    + split; [discriminate | intros [_ (h & o & H & _)]; discriminate].
    + unfold ret at 1.
      destruct ((0 <=? levenshtein w paper_title (h1_text h1))%Z) eqn:Hlow;
        destruct ((levenshtein w paper_title (h1_text h1) <=? 10)%Z) eqn:Hhigh;
        cbn [andb negb fst]; (split; [intros H | intros [_ (h & o & Hh & Hd)]]);
        try discriminate;
        try (split; [reflexivity | exists h1, others; split; [reflexivity | lia]]);
        try reflexivity;
        injection Hh as <- <-; lia.
Qed.

(** ** The seed resolver: what it leaves alone *)

Section Frame.

Context {X : Type} (f : state -> X).

Lemma preserves_ret {A} (a : A) : preserves f (ret a).
Proof. intros st. reflexivity. Qed.

Lemma preserves_raise {A} (e : exn) : preserves f (@raise A e).
Proof. intros st. reflexivity. Qed.

Lemma preserves_read {A} (g : state -> A) : preserves f (read g).
Proof. intros st. reflexivity. Qed.

Lemma preserves_bind {A B} (c : M A) (k : A -> M B) :
  preserves f c -> (forall a, preserves f (k a)) -> preserves f (bind c k).
Proof.
  intros Hc Hk st. unfold bind. specialize (Hc st).
  destruct (c st) as [[a | e | |] st1]; cbn [snd] in *; try exact Hc.
  rewrite (Hk a st1). exact Hc.
Qed.

Lemma preserves_if {A} (b : bool) (c1 c2 : M A) :
  preserves f c1 -> preserves f c2 -> preserves f (if b then c1 else c2).
Proof. destruct b; auto. Qed.

Lemma preserves_subscript {A} (o : option A) (k : string) :
  preserves f (subscript o k).
Proof. destruct o; intros st; reflexivity. Qed.

Lemma preserves_first {A} (l : list A) : preserves f (first l).
Proof. destruct l; intros st; reflexivity. Qed.

Lemma preserves_response_json (body : option paper) :
  preserves f (response_json body).
Proof. destruct body; intros st; reflexivity. Qed.

Lemma preserves_raise_FirstPaperDifferentError {A} :
  preserves f (@raise_FirstPaperDifferentError A []).
Proof. intros st. reflexivity. Qed.

Lemma preserves_try_except_finally_return {A} (body handler : M unit)
    (catches : exn -> bool) (value : state -> A) :
  preserves f body -> preserves f handler ->
  preserves f (try_except_finally_return body catches handler value).
Proof.
  intros Hbody Hhandler st. unfold try_except_finally_return.
  specialize (Hbody st).
  destruct (body st) as [[[] | e | |] st1]; cbn [snd] in *; try exact Hbody.
  destruct (catches e); cbn [snd]; try exact Hbody.
  specialize (Hhandler st1).
  destruct (handler st1) as [[[] | e' | |] st2]; cbn [snd] in *; congruence.
Qed.

Lemma preserves_try_except_pass (body : M unit) (catches : exn -> bool) :
  preserves f body -> preserves f (try_except_pass body catches).
Proof.
  intros Hbody st. unfold try_except_pass. specialize (Hbody st).
  destruct (body st) as [[[] | e | |] st1]; cbn [snd] in *; try exact Hbody.
  destruct (catches e); exact Hbody.
Qed.

(** The browser. *)

Hypothesis f_browser : forall what st, f (log (EvBrowser what) st) = f st.

Lemma preserves_driver (what : string) (raises : option exn) :
  preserves f (driver what raises).
Proof. intros st. unfold driver. destruct raises; apply f_browser. Qed.

Lemma preserves_page {A} (what : string) (found : exn + A) :
  preserves f (page what found).
Proof. intros st. unfold page. destruct found; apply f_browser. Qed.

Lemma preserves_check_paper_page w paper_title :
  preserves f (_check_paper_page w paper_title).
Proof.
  unfold _check_paper_page.
  apply preserves_bind; [apply preserves_driver | intros _].
  apply preserves_bind; [apply preserves_first | intros h1].
  apply preserves_if;
    [apply preserves_raise_FirstPaperDifferentError | apply preserves_ret].
Qed.

Lemma preserves_get_topics w searched :
  preserves f (_get_topics_in_paper_page w searched).
Proof.
  unfold _get_topics_in_paper_page.
  destruct (topics_page (browser w) searched) as [[]|]; apply preserves_page.
Qed.

(** All of [scrap_paper_by_title] up to the request. *)
Lemma preserves_pages {B} w paper_title
    (k : string -> list (string * string) -> string -> string -> M B) :
  (forall a t b id, preserves f (k a t b id)) ->
  preserves f
    (_search_paper_by_name w paper_title ;;;
     _open_first_link_in_search_page w paper_title ;;;
     _check_paper_page w paper_title ;;;
     abstract_text <- _get_abstract_in_paper_page w paper_title ;;
     topic_dict <- _get_topics_in_paper_page w paper_title ;;
     bibtex <- _get_bibtex_citation w paper_title ;;
     paper_id <- _get_paper_id_from_current_url w paper_title ;;
     k abstract_text topic_dict bibtex paper_id).
Proof.
  intros Hk.
  apply preserves_bind; [apply preserves_driver | intros _].
  apply preserves_bind; [apply preserves_driver | intros _].
  apply preserves_bind; [apply preserves_check_paper_page | intros _].
  apply preserves_bind; [apply preserves_page | intros a].
  apply preserves_bind; [apply preserves_get_topics | intros t].
  apply preserves_bind; [apply preserves_page | intros b].
  apply preserves_bind; [apply preserves_first | intros id].
  apply Hk.
Qed.

(** The request. *)

Hypothesis f_get : forall url st, f (log (EvGet url) st) = f st.
Hypothesis f_sleep : forall seconds st, f (log (EvSleep seconds) st) = f st.

Lemma preserves_get_paper_json self w paper_id :
  preserves f (_get_paper_json_by_id self w paper_id).
Proof.
  intros st. rewrite get_paper_json_cases.
  destruct (requests_get w (json_url_of paper_id)) as [|body]; cbn [snd].
  - apply f_get.
  - rewrite f_sleep. apply f_get.
Qed.

(** The local variable of [scrap_paper_by_title]. *)

Hypothesis f_attributes : forall p st, f (set_attributes_dict p st) = f st.

Lemma preserves_scrap_paper_by_title self w paper_title call_browser :
  preserves f (scrap_paper_by_title self w paper_title call_browser).
Proof.
  unfold scrap_paper_by_title.
  apply preserves_bind; [intros st; apply f_attributes | intros _].
  apply preserves_bind;
    [apply preserves_if; [apply preserves_driver | apply preserves_ret]
    | intros _].
  apply preserves_try_except_finally_return; [|apply preserves_driver].
  apply preserves_pages. intros a t b id.
  apply preserves_bind; [apply preserves_get_paper_json | intros fetched].
  apply preserves_bind; [intros st; apply f_attributes | intros _].
  apply preserves_bind; [intros st; apply f_attributes | intros _].
  apply preserves_if; [apply preserves_driver | apply preserves_ret].
Qed.

(** The dictionary that [scrap_paper_list_by_title] builds. *)

Hypothesis f_papers : forall d st, f (set_papers_dict d st) = f st.

Lemma preserves_for_paper_name self w paper_title_list :
  preserves f (for_paper_name self w paper_title_list).
Proof.
  induction paper_title_list as [|paper_name rest IH]; cbn [for_paper_name].
  - apply preserves_ret.
  - apply preserves_bind; [|intros _; exact IH].
    apply preserves_try_except_pass.
    apply preserves_bind; [apply preserves_scrap_paper_by_title | intros p].
    apply preserves_bind; [apply preserves_subscript | intros id].
    intros st. apply f_papers.
Qed.

Lemma preserves_scrap_paper_list_by_title self w paper_title_list :
  preserves f (scrap_paper_list_by_title self w paper_title_list).
Proof.
  unfold scrap_paper_list_by_title.
  apply preserves_bind; [apply preserves_driver | intros _].
  apply preserves_bind; [intros st; apply f_papers | intros _].
  apply preserves_bind; [apply preserves_for_paper_name | intros _].
  apply preserves_bind; [apply preserves_driver | intros _].
  apply preserves_read.
Qed.

End Frame.

(** ** The seed resolver: its requests *)

Lemma requests_at_most_preserved {A} (c : M A) :
  preserves (fun st => request_count (trace st)) c -> requests_at_most 0 c.
Proof. intros H st. rewrite (H st). lia. Qed.

Lemma requests_at_most_bind {A B} (n m : nat) (c : M A) (k : A -> M B) :
  requests_at_most n c -> (forall a, requests_at_most m (k a)) ->
  requests_at_most (n + m) (bind c k).
Proof.
  intros Hc Hk st. unfold bind. specialize (Hc st).
  destruct (c st) as [[a | e | |] st1]; cbn [snd] in *; try lia.
  specialize (Hk a st1). lia.
Qed.

Lemma request_count_browser what st :
  request_count (trace (log (EvBrowser what) st)) = request_count (trace st).
Proof. cbn [log trace]. rewrite request_count_app. cbn. lia. Qed.

Lemma request_count_sleep seconds st :
  request_count (trace (log (EvSleep seconds) st)) = request_count (trace st).
Proof. cbn [log trace]. rewrite request_count_app. cbn. lia. Qed.

Lemma request_count_get url st :
  request_count (trace (log (EvGet url) st)) = S (request_count (trace st)).
Proof. cbn [log trace]. rewrite request_count_app. cbn. lia. Qed.

Lemma write_count_browser what st :
  write_count (trace (log (EvBrowser what) st)) = write_count (trace st).
Proof. cbn [log trace]. rewrite write_count_app. cbn. lia. Qed.

Lemma write_count_sleep seconds st :
  write_count (trace (log (EvSleep seconds) st)) = write_count (trace st).
Proof. cbn [log trace]. rewrite write_count_app. cbn. lia. Qed.

Lemma write_count_get url st :
  write_count (trace (log (EvGet url) st)) = write_count (trace st).
Proof. cbn [log trace]. rewrite write_count_app. cbn. lia. Qed.

Lemma requests_at_most_get_paper_json self w paper_id :
  requests_at_most 1 (_get_paper_json_by_id self w paper_id).
Proof.
  intros st. rewrite get_paper_json_cases.
  destruct (requests_get w (json_url_of paper_id)) as [|body]; cbn [snd];
    rewrite ?request_count_sleep, request_count_get; lia.
Qed.

Lemma requests_at_most_try_except_finally_return {A} (n : nat)
    (body handler : M unit) (catches : exn -> bool) (value : state -> A) :
  requests_at_most n body -> requests_at_most 0 handler ->
  requests_at_most n (try_except_finally_return body catches handler value).
Proof.
  intros Hbody Hhandler st. unfold try_except_finally_return.
  specialize (Hbody st).
  destruct (body st) as [[[] | e | |] st1]; cbn [snd] in *; try exact Hbody.
  destruct (catches e); cbn [snd]; try exact Hbody.
  specialize (Hhandler st1).
  destruct (handler st1) as [[[] | e' | |] st2]; cbn [snd] in *; lia.
Qed.

Lemma requests_at_most_scrap_paper_by_title self w paper_title call_browser :
  requests_at_most 1 (scrap_paper_by_title self w paper_title call_browser).
Proof.
  unfold scrap_paper_by_title.
  apply (requests_at_most_bind 0 1);
    [apply requests_at_most_preserved; intros st; reflexivity | intros _].
  apply (requests_at_most_bind 0 1);
    [apply requests_at_most_preserved, preserves_if;
       [apply preserves_driver, request_count_browser | apply preserves_ret]
    | intros _].
  apply requests_at_most_try_except_finally_return;
    [|apply requests_at_most_preserved, preserves_driver, request_count_browser].
  apply (requests_at_most_bind 0 1);
    [apply requests_at_most_preserved, preserves_driver, request_count_browser
    | intros _].
  apply (requests_at_most_bind 0 1);
    [apply requests_at_most_preserved, preserves_driver, request_count_browser
    | intros _].
  apply (requests_at_most_bind 0 1);
    [apply requests_at_most_preserved, preserves_check_paper_page,
       request_count_browser
    | intros _].
  apply (requests_at_most_bind 0 1);
    [apply requests_at_most_preserved, preserves_page, request_count_browser
    | intros a].
  apply (requests_at_most_bind 0 1);
    [apply requests_at_most_preserved, preserves_get_topics,
       request_count_browser
    | intros t].
  apply (requests_at_most_bind 0 1);
    [apply requests_at_most_preserved, preserves_page, request_count_browser
    | intros b].
  apply (requests_at_most_bind 0 1);
    [apply requests_at_most_preserved, preserves_first | intros id].
  apply (requests_at_most_bind 1 0);
    [apply requests_at_most_get_paper_json | intros fetched].
  apply requests_at_most_preserved.
  apply preserves_bind; [intros st; reflexivity | intros _].
  apply preserves_bind; [intros st; reflexivity | intros _].
  apply preserves_if;
    [apply preserves_driver, request_count_browser | apply preserves_ret].
Qed.

(** X14. Resolving one title makes at most one request and writes nothing;
    of the store it changes its own dictionary and the trace only: the
    dictionary of papers, the queue, the visited set and the files are as
    before. *)
Theorem scrap_paper_by_title_footprint :
  forall self w paper_title call_browser st,
    let st' := snd (scrap_paper_by_title self w paper_title call_browser st) in
    request_count (trace st') <= request_count (trace st) + 1 /\
    write_count (trace st') = write_count (trace st) /\
    papers_dict st' = papers_dict st /\
    paper_id_queue st' = paper_id_queue st /\
    paper_visited_set st' = paper_visited_set st /\
    files st' = files st.
Proof.
  intros self w paper_title call_browser st st'. subst st'.
  split; [apply requests_at_most_scrap_paper_by_title|].
  split.
  { apply (preserves_scrap_paper_by_title (fun s => write_count (trace s)));
      intros; auto using write_count_browser, write_count_get, write_count_sleep. }
  repeat split;
    match goal with
    | |- ?g _ = _ => apply (preserves_scrap_paper_by_title g); reflexivity
    end.
Qed.

(** ** The seed resolver: one title *)

Lemma check_paper_page_run w paper_title st :
  _check_paper_page w paper_title st =
    match h1_wait (browser w) paper_title with
    | Some e => (Raised e, log (EvBrowser "wait h1") st)
    | None =>
        match paper_detail_titles w paper_title with
        | [] => (Raised IndexError, log (EvBrowser "wait h1") st)
        | h1 :: _ =>
            let d := levenshtein w paper_title (h1_text h1) in
            if ((0 <=? d)%Z && (d <=? 10)%Z)%bool
            then (Returned tt, log (EvBrowser "wait h1") st)
            else (Raised missing_init_arguments, log (EvBrowser "wait h1") st)
        end
    end.
Proof.
  unfold _check_paper_page, bind at 1, driver, paper_detail_titles.
  destruct (h1_wait (browser w) paper_title) as [e|]; [reflexivity|].
  unfold bind at 1.
  destruct (filter _ (h1_list (browser w) paper_title)) as [|h1 others];
    [reflexivity|].
  cbn [first ret]. cbv zeta.
  destruct ((0 <=? levenshtein w paper_title (h1_text h1))%Z
            && (levenshtein w paper_title (h1_text h1) <=? 10)%Z)%bool;
    reflexivity.
Qed.

Lemma begin_browser w call_browser st :
  (call_browser = true -> chrome_start (browser w) = None) ->
  (if call_browser then _start_browser w else ret tt) st =
    (Returned tt,
     if call_browser then log (EvBrowser "start") st else st).
Proof.
  intros Hstart. destruct call_browser; [|reflexivity].
  unfold _start_browser, driver. rewrite (Hstart eq_refl). reflexivity.
Qed.

(** X16. When the first title of the page found is not within distance 10
    of the requested one, [scrap_paper_by_title] returns the empty
    dictionary and the browser stays open, also when the method started it
    itself: the trace ends with the wait for the title, and no event of
    closing follows. *)
Theorem scrap_paper_by_title_other_title :
  forall self w paper_title call_browser st h1 others,
    (call_browser = true -> chrome_start (browser w) = None) ->
    search_page (browser w) paper_title = None ->
    first_link (browser w) paper_title = None ->
    h1_wait (browser w) paper_title = None ->
    paper_detail_titles w paper_title = h1 :: others ->
    ~ (0 <= levenshtein w paper_title (h1_text h1) <= 10)%Z ->
    exists st',
      scrap_paper_by_title self w paper_title call_browser st =
        (Returned empty_paper, st') /\
      trace st' =
        trace st ++ browser_event call_browser "start" ++
        [EvBrowser "search"; EvBrowser "first link"; EvBrowser "wait h1"].
Proof.
  intros self w paper_title call_browser st h1 others
    Hstart Hsearch Hfirst Hwait Htitles Hfar.
  unfold scrap_paper_by_title, bind at 1 2. cbn [update].
  rewrite (begin_browser w call_browser _ Hstart).
  set (st1 := if call_browser then log (EvBrowser "start") _ else _).
  assert (Hbody :
    forall (k : M unit),
      (_search_paper_by_name w paper_title ;;;
       _open_first_link_in_search_page w paper_title ;;;
       _check_paper_page w paper_title ;;; k) st1 =
      (Raised missing_init_arguments,
       log (EvBrowser "wait h1")
         (log (EvBrowser "first link") (log (EvBrowser "search") st1)))).
  { intros k.
    unfold bind at 1, _search_paper_by_name, driver. rewrite Hsearch.
    unfold bind at 1, _open_first_link_in_search_page, driver. rewrite Hfirst.
    unfold bind at 1. rewrite check_paper_page_run, Hwait, Htitles. cbv zeta.
    destruct ((0 <=? levenshtein w paper_title (h1_text h1))%Z
              && (levenshtein w paper_title (h1_text h1) <=? 10)%Z)%bool
      eqn:Hnear; [|reflexivity].
    apply andb_true_iff in Hnear as [Hlow Hhigh]. lia. }
  unfold try_except_finally_return. rewrite Hbody.
  cbn [missing_init_arguments catches_FirstPaperDifferentError].
  subst st1.
  destruct call_browser; (eexists; split; [reflexivity|]);
    cbn [log trace set_attributes_dict browser_event];
    rewrite <- ?app_assoc; reflexivity.
Qed.

(** X16 at an input: the method starts the browser itself. *)
Lemma scrap_paper_by_title_other_title_witness :
  exists st',
    scrap_paper_by_title default_scrapper unrelated "Foo" true (initial [] []) =
      (Returned empty_paper, st') /\
    trace st' =
      [EvBrowser "start"; EvBrowser "search"; EvBrowser "first link";
       EvBrowser "wait h1"].
Proof.
  refine (scrap_paper_by_title_other_title default_scrapper unrelated "Foo" true
            (initial [] [])
            {| h1_selector := "paper-detail-title";
               h1_text :=
                 "Completely Unrelated Document About Something Else Entirely" |}
            [] _ eq_refl eq_refl eq_refl eq_refl _).
  - reflexivity.
  - cbn. lia.
Defined.

(** The dictionary of the method after a run that began with the empty
    one. *)

Lemma resolved_bind {A B} w (c : M A) (k : A -> M B) :
  preserves attributes_dict c ->
  (forall a st, attributes_dict st = empty_paper ->
                resolved w (attributes_dict (snd (k a st)))) ->
  forall st, attributes_dict st = empty_paper ->
             resolved w (attributes_dict (snd (bind c k st))).
Proof.
  intros Hc Hk st Hst. unfold bind. specialize (Hc st).
  destruct (c st) as [[a | e | |] st1]; cbn [snd] in *;
    try (left; congruence).
  apply Hk. congruence.
Qed.

Lemma resolved_fetch self w paper_id abstract_text topic_dict bibtex
    (tail : M unit) :
  preserves attributes_dict tail ->
  forall st, attributes_dict st = empty_paper ->
    resolved w (attributes_dict (snd (
      (fetched <- _get_paper_json_by_id self w paper_id ;;
       update (set_attributes_dict fetched) ;;;
       update (fun st =>
         set_attributes_dict
           (with_page_fields (attributes_dict st) abstract_text topic_dict
              bibtex) st) ;;;
       tail) st))).
Proof.
  intros Htail st Hst. unfold bind at 1. rewrite get_paper_json_cases.
  destruct (requests_get w (json_url_of paper_id)) as [|[p|]] eqn:Hget;
    try (left; exact Hst).
  right. exists paper_id, p, abstract_text, topic_dict, bibtex.
  split; [exact Hget|].
  unfold bind, update. cbn [fst snd].
  match goal with
  | |- context [tail ?s] =>
      pose proof (Htail s) as Hs;
      destruct (tail s) as [[[] | e | |] st1]; cbn [snd] in *;
        rewrite Hs; reflexivity
  end.
Qed.

Lemma scrap_paper_by_title_resolved self w paper_title call_browser st :
  resolved w
    (attributes_dict
       (snd (scrap_paper_by_title self w paper_title call_browser st))).
Proof.
  unfold scrap_paper_by_title.
  unfold bind at 1. cbn [update].
  assert (Hempty : attributes_dict (set_attributes_dict empty_paper st) =
                   empty_paper) by reflexivity.
  revert Hempty. generalize (set_attributes_dict empty_paper st). clear st.
  apply resolved_bind.
  { apply preserves_if; [apply preserves_driver; reflexivity | apply preserves_ret]. }
  intros _ st Hst.
  set (body := bind (_search_paper_by_name w paper_title) _).
  assert (Hbody : resolved w (attributes_dict (snd (body st)))).
  { subst body. revert st Hst.
    apply resolved_bind; [apply preserves_driver; reflexivity | intros _].
    apply resolved_bind; [apply preserves_driver; reflexivity | intros _].
    apply resolved_bind;
      [apply preserves_check_paper_page; reflexivity | intros _].
    apply resolved_bind; [apply preserves_page; reflexivity | intros a].
    apply resolved_bind; [apply preserves_get_topics; reflexivity | intros t].
    apply resolved_bind; [apply preserves_page; reflexivity | intros b].
    apply resolved_bind; [apply preserves_first | intros id].
    apply resolved_fetch.
    apply preserves_if; [apply preserves_driver; reflexivity | apply preserves_ret]. }
  unfold try_except_finally_return.
  destruct (body st) as [[[] | e | |] st1]; cbn [snd] in *; try exact Hbody.
  destruct (catches_FirstPaperDifferentError e); cbn [snd]; try exact Hbody.
  pose proof (preserves_driver attributes_dict (fun _ _ => eq_refl) "close"
                (chrome_close (browser w)) st1) as Hclose.
  fold (_close_browser w) in Hclose.
  destruct (_close_browser w st1) as [[[] | e' | |] st2]; cbn [snd] in *;
    rewrite Hclose; exact Hbody.
Qed.




(** ** The seed resolver: a list of titles *)

Lemma scrap_without_browser_returns self w paper_title st :
  exists st',
    scrap_paper_by_title self w paper_title false st =
      (Returned (attributes_dict st'), st').
Proof.
  unfold scrap_paper_by_title, bind at 1 2. cbn [update ret].
  apply try_except_finally_return_returns; [|auto with completes].
  unfold _search_paper_by_name, _open_first_link_in_search_page,
    _get_abstract_in_paper_page, _get_bibtex_citation,
    _get_paper_id_from_current_url.
  completes.
Qed.

Lemma keyed_by_paper_id_set w d id p :
  keyed_by_paper_id w d ->
  paperId p = Some id ->
  resolved w p ->
  keyed_by_paper_id w (Dict.set d id p).
Proof.
  intros Hd Hid Hres k q Hget.
  destruct (String.eqb_spec k id) as [-> | Hne].
  - rewrite get_set_same in Hget. injection Hget as <-.
    split; [exact Hid|].
    destruct Hres as [-> | Hfull]; [discriminate | exact Hfull].
  - rewrite get_set_other in Hget by exact Hne. apply Hd, Hget.
Qed.

(** One turn of the loop over the titles returns, whatever happened to the
    title. *)
Lemma for_paper_name_turn self w paper_name st :
  keyed_by_paper_id w (papers_dict st) ->
  exists st',
    try_except_pass
      (paper_dict <- scrap_paper_by_title self w paper_name false ;;
       paper_id <- subscript (paperId paper_dict) "paperId" ;;
       update (fun st =>
         set_papers_dict (Dict.set (papers_dict st) paper_id paper_dict) st))
      catches_KeyError st = (Returned tt, st') /\
    keyed_by_paper_id w (papers_dict st').
Proof.
  intros Hkeyed.
  destruct (scrap_without_browser_returns self w paper_name st) as [st1 Hrun].
  pose proof (scrap_paper_by_title_resolved self w paper_name false st) as Hres.
  pose proof (preserves_scrap_paper_by_title papers_dict
                (fun _ _ => eq_refl) (fun _ _ => eq_refl) (fun _ _ => eq_refl)
                (fun _ _ => eq_refl) self w paper_name false st) as Hsame.
  rewrite Hrun in Hres, Hsame. cbn [snd] in Hres, Hsame.
  unfold try_except_pass. rewrite (bind_returned _ Hrun).
  destruct (paperId (attributes_dict st1)) as [id|] eqn:Hid; cbn [subscript].
  - unfold bind, ret, update. eexists. split; [reflexivity|].
    cbn [papers_dict set_papers_dict]. rewrite Hsame.
    apply keyed_by_paper_id_set; assumption.
  - unfold bind, raise. cbn [catches_KeyError]. eexists.
    split; [reflexivity|]. rewrite Hsame. exact Hkeyed.
Qed.

Lemma for_paper_name_returns self w paper_title_list st :
  keyed_by_paper_id w (papers_dict st) ->
  exists st',
    for_paper_name self w paper_title_list st = (Returned tt, st') /\
    keyed_by_paper_id w (papers_dict st').
Proof.
  revert st.
  induction paper_title_list as [|paper_name rest IH]; intros st Hkeyed;
    cbn [for_paper_name].
  - exists st. split; [reflexivity | exact Hkeyed].
  - destruct (for_paper_name_turn self w paper_name st Hkeyed)
      as (st1 & Hturn & Hkeyed1).
    rewrite (bind_returned _ Hturn). apply IH, Hkeyed1.
Qed.

Lemma keyed_by_paper_id_empty w : keyed_by_paper_id w [].
Proof. intros k p H. discriminate. Qed.

(** [scrap_paper_list_by_title] in full: what the browser allows. *)
Lemma scrap_paper_list_by_title_run self w paper_title_list st :
  match chrome_start (browser w) with
  | Some e =>
      scrap_paper_list_by_title self w paper_title_list st =
        (Raised e, log (EvBrowser "start") st)
  | None =>
      exists st1,
        keyed_by_paper_id w (papers_dict st1) /\
        scrap_paper_list_by_title self w paper_title_list st =
          match chrome_close (browser w) with
          | Some e => (Raised e, log (EvBrowser "close") st1)
          | None =>
              (Returned (papers_dict st1), log (EvBrowser "close") st1)
          end
  end.
Proof.
  unfold scrap_paper_list_by_title, _start_browser.
  destruct (chrome_start (browser w)) as [e|]; [reflexivity|].
  destruct (for_paper_name_returns self w paper_title_list
              (set_papers_dict [] (log (EvBrowser "start") st))
              (keyed_by_paper_id_empty w)) as (st1 & Hloop & Hkeyed).
  exists st1. split; [exact Hkeyed|].
  rewrite (bind_returned (c := driver "start" None) _ (a := tt)
             (st' := log (EvBrowser "start") st) eq_refl).
  rewrite (bind_returned (c := update (set_papers_dict [])) _ (a := tt)
             (st' := set_papers_dict [] (log (EvBrowser "start") st)) eq_refl).
  rewrite (bind_returned _ Hloop).
  unfold bind, _close_browser, driver, read.
  destruct (chrome_close (browser w)); reflexivity.
Qed.

(** X19. The dictionary that [scrap_paper_list_by_title] returns holds each
    record under the record's own [paperId], and every record in it is one
    that the repository served, with the fields of its page: the empty
    dictionary of a title that failed is never stored. *)
Theorem scrap_paper_list_by_title_keyed :
  forall self w paper_title_list st d st',
    scrap_paper_list_by_title self w paper_title_list st = (Returned d, st') ->
    keyed_by_paper_id w d.
Proof.
  intros self w paper_title_list st d st' Hrun.
  pose proof (scrap_paper_list_by_title_run self w paper_title_list st) as H.
  destruct (chrome_start (browser w)) as [e|]; [congruence|].
  destruct H as (st1 & Hkeyed & H).
  destruct (chrome_close (browser w)) as [e|]; [congruence|].
  rewrite H in Hrun. injection Hrun as <- _. exact Hkeyed.
Qed.

(** X19 at an input: of the two titles of [flaky] the second is stored. *)
Lemma scrap_paper_list_by_title_keyed_witness :
  keyed_by_paper_id flaky
    [("id2",
      with_page_fields (Fixtures.record "id2" [] []) "An abstract." []
        "@article{}")].
Proof.
  refine (scrap_paper_list_by_title_keyed default_scrapper flaky
            ["First"; "Second"] (initial [] []) _ _ _).
  vm_compute. reflexivity.
Defined.

Lemma requests_at_most_le {A} (n m : nat) (c : M A) :
  n <= m -> requests_at_most n c -> requests_at_most m c.
Proof. intros Hle Hc st. specialize (Hc st). lia. Qed.

Lemma requests_at_most_try_except_pass (n : nat) (body : M unit)
    (catches : exn -> bool) :
  requests_at_most n body -> requests_at_most n (try_except_pass body catches).
Proof.
  intros Hbody st. unfold try_except_pass. specialize (Hbody st).
  destruct (body st) as [[[] | e | |] st1]; cbn [snd] in *; try exact Hbody.
  destruct (catches e); exact Hbody.
Qed.

Lemma requests_at_most_for_paper_name self w paper_title_list :
  requests_at_most (length paper_title_list)
    (for_paper_name self w paper_title_list).
Proof.
  induction paper_title_list as [|paper_name rest IH];
    cbn [for_paper_name length].
  - apply requests_at_most_preserved, preserves_ret.
  - apply (requests_at_most_bind 1 (length rest)); [|intros _; exact IH].
    apply requests_at_most_try_except_pass.
    apply (requests_at_most_bind 1 0);
      [apply requests_at_most_scrap_paper_by_title | intros p].
    apply requests_at_most_preserved.
    apply preserves_bind; [apply preserves_subscript | intros id].
    intros st. reflexivity.
Qed.

Lemma requests_at_most_scrap_paper_list_by_title self w paper_title_list :
  requests_at_most (length paper_title_list)
    (scrap_paper_list_by_title self w paper_title_list).
Proof.
  unfold scrap_paper_list_by_title.
  apply (requests_at_most_le (0 + (0 + (length paper_title_list + (0 + 0)))));
    [lia|].
  apply requests_at_most_bind;
    [apply requests_at_most_preserved, preserves_driver, request_count_browser
    | intros _].
  apply requests_at_most_bind;
    [apply requests_at_most_preserved; intros st; reflexivity | intros _].
  apply requests_at_most_bind;
    [apply requests_at_most_for_paper_name | intros _].
  apply requests_at_most_bind;
    [apply requests_at_most_preserved, preserves_driver, request_count_browser
    | intros _].
  apply requests_at_most_preserved, preserves_read.
Qed.

(** X21. Resolving a list of titles makes at most one request for each
    title and writes no file; the queue, the visited set and the files are
    as before. *)
Theorem scrap_paper_list_by_title_footprint :
  forall self w paper_title_list st,
    let st' := snd (scrap_paper_list_by_title self w paper_title_list st) in
    request_count (trace st') <=
      request_count (trace st) + length paper_title_list /\
    write_count (trace st') = write_count (trace st) /\
    paper_id_queue st' = paper_id_queue st /\
    paper_visited_set st' = paper_visited_set st /\
    files st' = files st.
Proof.
  intros self w paper_title_list st st'. subst st'.
  split; [apply requests_at_most_scrap_paper_list_by_title|].
  split.
  { apply (preserves_scrap_paper_list_by_title
             (fun s => write_count (trace s)));
      intros; auto using write_count_browser, write_count_get, write_count_sleep. }
  repeat split;
    match goal with
    | |- ?g _ = _ => apply (preserves_scrap_paper_list_by_title g); reflexivity
    end.
Qed.

(** ** The entry point *)

Lemma written_names_app (tr1 tr2 : list event) :
  written_names (tr1 ++ tr2) = written_names tr1 ++ written_names tr2.
Proof.
  induction tr1 as [|[] tr1 IH]; cbn; auto. rewrite IH. reflexivity.
Qed.

Lemma written_names_log e st :
  written_names (trace (log e st)) =
    written_names (trace st) ++ written_names [e].
Proof. cbn [log trace]. apply written_names_app. Qed.

Lemma written_names_browser what st :
  written_names (trace (log (EvBrowser what) st)) = written_names (trace st).
Proof. rewrite written_names_log. apply app_nil_r. Qed.

Lemma written_names_get url st :
  written_names (trace (log (EvGet url) st)) = written_names (trace st).
Proof. rewrite written_names_log. apply app_nil_r. Qed.

Lemma written_names_sleep seconds st :
  written_names (trace (log (EvSleep seconds) st)) = written_names (trace st).
Proof. rewrite written_names_log. apply app_nil_r. Qed.

Lemma output_file_of_title w t :
  is_ascii t = true ->
  file_name_of w jsons_output_path t = output_file (ascii_base_name t).
Proof.
  intros Hascii. unfold file_name_of, output_file.
  rewrite (base_name_ascii w t Hascii).
  rewrite (os_path_join_relative jsons_output_path (ascii_base_name t)
             (ascii_base_name_relative t)).
  replace ((jsons_output_path =? "") || endswith_slash jsons_output_path)
    with false by reflexivity.
  rewrite append_assoc. reflexivity.
Qed.

(** One turn of the loop of [main]. *)
Lemma for_paper_id_turn w papers paper_id st :
  try_except_pass
    (paper_dict <- subscript (Dict.get papers paper_id) paper_id ;;
     output_file_name <- create_json_file_name w paper_dict jsons_output_path ;;
     paper_dict <- subscript (Dict.get papers paper_id) paper_id ;;
     dump w paper_dict output_file_name)
    catches_KeyError st =
  match Dict.get papers paper_id with
  | None => (Returned tt, st)
  | Some p =>
      match title p with
      | None => (Returned tt, st)
      | Some t =>
          if can_open w (file_name_of w jsons_output_path t)
          then (Returned tt, written (file_name_of w jsons_output_path t) p st)
          else (Raised OSError, st)
      end
  end.
Proof.
  unfold try_except_pass.
  destruct (Dict.get papers paper_id) as [p|]; [|reflexivity].
  cbn [subscript]. unfold bind at 1, ret at 1. unfold bind at 1.
  destruct (title p) as [t|] eqn:Ht.
  - rewrite (create_json_file_name_titled w p jsons_output_path t st Ht).
    unfold bind, ret, dump.
    destruct (can_open w (file_name_of w jsons_output_path t)); reflexivity.
  - unfold create_json_file_name. rewrite Ht. reflexivity.
Qed.

Lemma for_paper_id_run w papers paper_ids st :
  (forall k p t,
      Dict.get papers k = Some p -> title p = Some t -> is_ascii t = true) ->
  exists titles,
    written_names (trace (snd (for_paper_id w papers jsons_output_path
                                 paper_ids st))) =
      written_names (trace st) ++
      map (fun t => output_file (ascii_base_name t)) titles.
Proof.
  intros Hascii.
  revert st. induction paper_ids as [|paper_id rest IH]; intros st;
    cbn [for_paper_id].
  - exists []. cbn. rewrite app_nil_r. auto.
  - pose proof (for_paper_id_turn w papers paper_id st) as Hturn.
    destruct (Dict.get papers paper_id) as [p|] eqn:Hp;
      [|rewrite (bind_returned _ Hturn); apply IH].
    destruct (title p) as [t|] eqn:Ht;
      [|rewrite (bind_returned _ Hturn); apply IH].
    rewrite (output_file_of_title w t (Hascii paper_id p t Hp Ht)) in Hturn.
    destruct (can_open w (output_file (ascii_base_name t))) eqn:Hopen.
    + rewrite (bind_returned _ Hturn).
      destruct (IH (written (output_file (ascii_base_name t)) p st))
        as (titles & Hnames).
      exists (t :: titles).
      rewrite Hnames. unfold written. rewrite written_names_log.
      cbn [set_files trace written_names map]. rewrite <- app_assoc.
      reflexivity.
    + rewrite (bind_raised _ Hturn).
      exists []. cbn. rewrite app_nil_r. reflexivity.
Qed.

Lemma keyed_titles_ascii w papers :
  ascii_titles w ->
  keyed_by_paper_id w papers ->
  forall k p t,
    Dict.get papers k = Some p -> title p = Some t -> is_ascii t = true.
Proof.
  intros Hserved Hkeyed k p t Hp Ht.
  destruct (Hkeyed k p Hp) as (_ & id & fetched & a & tp & b & Hget & ->).
  exact (Hserved _ fetched t Hget Ht).
Qed.

(** X22. When the titles that the repository serves are ASCII, every file
    that [main] writes is directly in its output directory, under a name
    made of at most 50 lowercase letters, digits and underscores followed
    by [.json]: no such title makes it write elsewhere. *)
Theorem main_writes_in_output_directory :
  forall w d st,
    ascii_titles w ->
    exists bases,
      written_names (trace (snd (main w d st))) =
        written_names (trace st) ++ map output_file bases /\
      Forall (fun base => all_chars is_slug_char base = true /\
                          (String.length base <= 50)%nat) bases.
Proof.
  intros w d st Hserved.
  assert (Hnone : forall s : state,
             written_names (trace s) = written_names (trace st) ->
             exists bases,
               written_names (trace s) =
                 written_names (trace st) ++ map output_file bases /\
               Forall (fun base => all_chars is_slug_char base = true /\
                                   (String.length base <= 50)%nat) bases).
  { intros s Hs. exists []. cbn. rewrite app_nil_r. auto. }
  unfold main, os_listdir. cbv zeta.
  destruct (listdir d papers_dir) as [e | names]; [apply Hnone; reflexivity|].
  unfold bind at 1, ret at 1.
  set (paper_list := map _ names).
  pose proof (preserves_scrap_paper_list_by_title
                (fun s => written_names (trace s))) as Hlist.
  specialize (Hlist written_names_browser written_names_get
                written_names_sleep (fun _ _ => eq_refl) (fun _ _ => eq_refl)
                default_scrapper w paper_list st).
  cbv beta in Hlist.
  pose proof (scrap_paper_list_by_title_run default_scrapper w paper_list st)
    as Hrun.
  unfold bind at 1.
  destruct (scrap_paper_list_by_title default_scrapper w paper_list st)
    as [[papers | e | |] st1]; cbn [snd] in Hlist; try (apply Hnone, Hlist).
  assert (Hkeyed : keyed_by_paper_id w papers).
  { destruct (chrome_start (browser w)); [discriminate|].
    destruct Hrun as (st2 & Hkeyed & Hrun).
    destruct (chrome_close (browser w)); [discriminate|].
    injection Hrun as -> _. exact Hkeyed. }
  unfold bind at 1, try_mkdir.
  destruct (mkdir d jsons_output_path) as [| | e];
    try (apply Hnone, Hlist); unfold ret at 1;
    destruct (for_paper_id_run w papers (Dict.keys papers) st1
                (keyed_titles_ascii w papers Hserved Hkeyed))
      as (titles & Hnames);
    exists (map ascii_base_name titles);
    (split;
     [rewrite Hnames, Hlist, map_map; reflexivity
     | apply Forall_forall; intros base Hin;
       apply in_map_iff in Hin as (t & <- & _);
       split; [apply ascii_base_name_chars | apply slice_to_length]]).
Qed.

(** X22 at an input: the two papers of [shelf], resolved by [flaky]. *)
Lemma main_writes_in_output_directory_witness :
  exists bases,
    written_names (trace (snd (main flaky shelf (initial [] [])))) =
      map output_file bases /\
    Forall (fun base => all_chars is_slug_char base = true /\
                        (String.length base <= 50)%nat) bases.
Proof.
  refine (main_writes_in_output_directory flaky shelf (initial [] []) _).
  intros url p t Hget Ht. unfold flaky, requests_get, Fixtures.serve in Hget.
  destruct (url =? json_url_of "id2")%string; [|discriminate].
  injection Hget as <-. injection Ht as <-. reflexivity.
Defined.

Section FrameOfMain.

Context {X : Type} (f : state -> X).

Hypothesis f_written : forall name p st, f (written name p st) = f st.

Lemma preserves_for_paper_id w papers output_path paper_ids :
  preserves f (for_paper_id w papers output_path paper_ids).
Proof.
  induction paper_ids as [|paper_id rest IH]; cbn [for_paper_id].
  - apply preserves_ret.
  - apply preserves_bind; [|intros _; exact IH].
    apply preserves_try_except_pass.
    apply preserves_bind; [apply preserves_subscript | intros p].
    apply preserves_bind.
    { unfold create_json_file_name.
      apply preserves_bind; [apply preserves_subscript | intros t].
      apply preserves_ret. }
    intros name.
    apply preserves_bind; [apply preserves_subscript | intros p'].
    unfold dump. destruct (can_open w name); [|apply preserves_raise].
    intros st. apply f_written.
Qed.

Hypothesis f_browser : forall what st, f (log (EvBrowser what) st) = f st.
Hypothesis f_get : forall url st, f (log (EvGet url) st) = f st.
Hypothesis f_sleep : forall seconds st, f (log (EvSleep seconds) st) = f st.
Hypothesis f_attributes : forall p st, f (set_attributes_dict p st) = f st.
Hypothesis f_papers : forall d st, f (set_papers_dict d st) = f st.

Lemma preserves_main w d : preserves f (main w d).
Proof.
  unfold main. cbv zeta.
  apply preserves_bind.
  { unfold os_listdir. destruct (listdir d papers_dir);
      [apply preserves_raise | apply preserves_ret]. }
  intros names.
  apply preserves_bind;
    [apply preserves_scrap_paper_list_by_title; assumption | intros papers].
  apply preserves_bind; [|intros _; apply preserves_for_paper_id].
  unfold try_mkdir. destruct (mkdir d jsons_output_path);
    [apply preserves_ret | apply preserves_ret | apply preserves_raise].
Qed.

End FrameOfMain.

Lemma request_count_written name p st :
  request_count (trace (written name p st)) = request_count (trace st).
Proof.
  unfold written. cbn [log trace set_files]. rewrite request_count_app.
  cbn. lia.
Qed.

Lemma requests_at_most_ret_bind {A B} (n : nat) (a : A) (k : A -> M B) :
  requests_at_most n (k a) -> requests_at_most n (bind (ret a) k).
Proof. intros H st. exact (H st). Qed.

Lemma requests_at_most_main w d : requests_at_most (listed d) (main w d).
Proof.
  unfold main, listed, os_listdir. cbv zeta.
  destruct (listdir d papers_dir) as [e | names].
  - intros st. unfold bind, raise. cbn [snd]. lia.
  - apply requests_at_most_ret_bind.
    apply (requests_at_most_le (length names + (0 + 0))); [lia|].
    apply requests_at_most_bind.
    { rewrite <- (length_map (fun paper_fn => strip (fst (splitext paper_fn)))
                    names).
      apply requests_at_most_scrap_paper_list_by_title. }
    intros papers.
    apply requests_at_most_bind.
    { apply requests_at_most_preserved. unfold try_mkdir.
      destruct (mkdir d jsons_output_path);
        [apply preserves_ret | apply preserves_ret | apply preserves_raise]. }
    intros _. apply requests_at_most_preserved, preserves_for_paper_id.
    apply request_count_written.
Qed.

(** X24. [main] makes at most one request for each entry of the directory
    of papers, and it resolves titles only: it never fills the queue or the
    visited set, so the traversal of related papers is no part of a run. *)
Theorem main_footprint :
  forall w d st,
    let st' := snd (main w d st) in
    request_count (trace st') <= request_count (trace st) + listed d /\
    paper_id_queue st' = paper_id_queue st /\
    paper_visited_set st' = paper_visited_set st.
Proof.
  intros w d st st'. subst st'.
  split; [apply requests_at_most_main|].
  split;
    match goal with
    | |- ?g _ = _ => apply (preserves_main g); reflexivity
    end.
Qed.

(** ** The entry point: the titles it looks for *)

Lemma rfind_from_absent (c : ascii) (s : string) (i found : Z) :
  all_chars (fun x => negb (Ascii.eqb x c)) s = true ->
  rfind_from c s i found = found.
Proof.
  revert i. induction s as [|x s IH]; intros i; cbn; [reflexivity|].
  intros H. apply andb_true_iff in H as [Hx Hs].
  apply negb_true_iff in Hx. rewrite Hx. apply IH, Hs.
Qed.

Lemma rfind_from_append (c : ascii) (a b : string) (i found : Z) :
  rfind_from c (a ++ b) i found =
    rfind_from c b (i + Z.of_nat (String.length a))%Z (rfind_from c a i found).
Proof.
  revert i found. induction a as [|x a IH]; intros i found.
  - cbn. rewrite Z.add_0_r. reflexivity.
  - cbn [String.append rfind_from String.length]. rewrite IH.
    f_equal. lia.
Qed.

Lemma substring_prefix (a b : string) :
  substring 0 (String.length a) (a ++ b) = a.
Proof.
  induction a as [|x a IH]; cbn.
  - destruct b; reflexivity.
  - rewrite IH. reflexivity.
Qed.

(** X25. For an entry [stem.ext] of the directory of papers, whose
    extension has no dot and whose stem is not made of dots only, [main]
    looks for the stem without the white space around it. *)
Theorem main_title_of_entry :
  forall stem ext,
    no_slash stem = true ->
    no_slash ext = true ->
    all_chars (fun c => negb (Ascii.eqb c ".")) ext = true ->
    all_chars (fun c => Ascii.eqb c ".") stem = false ->
    strip (fst (splitext (stem ++ "." ++ ext))) = strip stem.
Proof.
  intros stem ext Hstem Hext Hdots Hname.
  assert (Hsep : rfind "/" (stem ++ "." ++ ext) = (-1)%Z).
  { apply rfind_from_absent. rewrite all_chars_append. fold (no_slash stem).
    rewrite Hstem. cbn. exact Hext. }
  assert (Hdot : rfind "." (stem ++ "." ++ ext) = Z.of_nat (String.length stem)).
  { unfold rfind. rewrite rfind_from_append. cbn [String.append rfind_from].
    cbn [Ascii.eqb Bool.eqb]. rewrite rfind_from_absent by exact Hdots.
    reflexivity. }
  unfold splitext. rewrite Hsep, Hdot. cbv zeta.
  replace (Z.of_nat (String.length stem) >? -1)%Z with true
    by (symmetry; apply Z.gtb_lt; lia).
  unfold slice.
  replace (Z.to_nat (-1 + 1)) with 0%nat by reflexivity.
  replace (Z.to_nat (Z.of_nat (String.length stem) - (-1 + 1)))
    with (String.length stem) by lia.
  rewrite substring_prefix, Hname. cbn [fst].
  replace (Z.to_nat 0) with 0%nat by reflexivity.
  replace (Z.to_nat (Z.of_nat (String.length stem) - 0))
    with (String.length stem) by lia.
  rewrite substring_prefix. reflexivity.
Qed.

(** X25 at an input: the second entry of [shelf]. *)
Lemma main_title_of_entry_witness :
  strip (fst (splitext " Second .pdf")) = "Second".
Proof.
  exact (main_title_of_entry " Second " "pdf" eq_refl eq_refl eq_refl eq_refl).
Defined.
